(** * Knowledge-graph import scripts: a shallow embedding and its properties

    The development follows the three Python scripts of the repository:
    - [import_knowledge_graph.py]          (class [KnowledgeGraphImporter]),
    - [import_knowledge_graph_from_rtf.py] (class [RTFKnowledgeGraphImporter]),
    - [query_knowledge_graph.py]           (class [KnowledgeGraphQuery]).

    Part I embeds the code: Python strings are lists of code points, the
    small fragment of Python values that flows through the scripts is an
    inductive type, dictionaries keep their insertion order, and the
    importer objects are threaded through a state-and-exception monad.
    Part II states and proves the properties.

    Writes to standard output ([print]) are not part of the model. *)

From Stdlib Require Import ZArith NArith Ascii String DecimalString Lia.
From Stdlib Require Import Permutation Sorted.
From stdpp Require Import base tactics option list.

#[local] Open Scope N_scope.
#[local] Open Scope list_scope.

(* ===================================================================== *)
(** * Part I.  The embedding                                              *)
(* ===================================================================== *)

(** ** Python [str]: sequences of Unicode code points *)

Module PyStr.

Abbreviation char := N (only parsing).
Abbreviation str := (list N) (only parsing).

(** ASCII literals of the source are written as Rocq strings. *)
Definition u (s : string) : str := map N_of_ascii (list_ascii_of_string s).
#[global] Arguments u : simpl never.

Definition TAB : char := 9.
Definition LF : char := 10.
Definition CR : char := 13.
Definition SPACE : char := 32.
Definition DQUOTE : char := 34.
Definition DOLLAR : char := 36.
Definition SQUOTE : char := 39.
Definition COMMA : char := 44.
Definition BACKSLASH : char := 92.
Definition LBRACE : char := 123.
Definition RBRACE : char := 125.
Definition BOM : char := 65279.        (* U+FEFF *)

Definition str_eqb (a b : str) : bool := bool_decide (a = b).

(** [s.startswith(p)] *)
Fixpoint starts_with (p s : str) : bool :=
  match p, s with
  | [], _ => true
  | a :: p', b :: s' => (a =? b) && starts_with p' s'
  | _ :: _, [] => false
  end.

(** [p in s] *)
Fixpoint contains (p s : str) : bool :=
  starts_with p s ||
  match s with
  | [] => false
  | _ :: s' => contains p s'
  end.

(** [s.replace(old, new)]: every non-overlapping occurrence of [old],
    scanning from the left.  [skip] counts the characters of an occurrence
    that has just been replaced and are still to be passed over. *)
Fixpoint replace_from (old new : str) (skip : nat) (s : str) : str :=
  match s with
  | [] => []
  | c :: s' =>
      match skip with
      | S k => replace_from old new k s'
      | O =>
          if starts_with old s
          then new ++ replace_from old new (length old - 1) s'
          else c :: replace_from old new 0 s'
      end
  end.

Definition replace (old new s : str) : str :=
  match old with
  | [] => new ++ flat_map (fun c => c :: new) s
  | _ :: _ => replace_from old new 0 s
  end.

(** [str.isspace] for one code point (CPython's [_PyUnicode_IsWhitespace]). *)
Definition isspace (c : char) : bool :=
  ((9 <=? c) && (c <=? 13)) || ((28 <=? c) && (c <=? 32))
  || (c =? 133) || (c =? 160) || (c =? 5760)
  || ((8192 <=? c) && (c <=? 8202))
  || (c =? 8232) || (c =? 8233) || (c =? 8239) || (c =? 8287) || (c =? 12288).

Fixpoint drop_while (f : char -> bool) (s : str) : str :=
  match s with
  | [] => []
  | c :: s' => if f c then drop_while f s' else s
  end.

(** [s.lstrip()], [s.rstrip()], [s.strip()] *)
Definition lstrip (s : str) : str := drop_while isspace s.
Definition rstrip (s : str) : str := rev (drop_while isspace (rev s)).
Definition strip (s : str) : str := rstrip (lstrip s).

(** [s.lstrip(chars)] *)
Definition lstrip_chars (chars s : str) : str :=
  drop_while (fun c => bool_decide (c ∈ chars)) s.

(** [s.split(sep)] for a separator of one character. *)
Fixpoint split (sep : char) (s : str) : list str :=
  match s with
  | [] => [[]]
  | c :: s' =>
      if c =? sep then [] :: split sep s'
      else match split sep s' with
           | p :: ps => (c :: p) :: ps
           | [] => [[c]]
           end
  end.

(** [sep.join(parts)] *)
Fixpoint join (sep : str) (parts : list str) : str :=
  match parts with
  | [] => []
  | [p] => p
  | p :: ps => p ++ sep ++ join sep ps
  end.

(** [str(n)] for an [int]. *)
Definition str_of_Z (z : Z) : str := u (NilZero.string_of_int (Z.to_int z)).

(** [int(s)] on a [str]: white space at both ends, an optional sign, decimal
    digits with single underscores between them, at most 4300 digits
    ([sys.int_info.default_max_str_digits]).  [None] stands for
    [ValueError].

    The white space that [int] skips is the ASCII white space and the white
    space outside ASCII; the separators U+001C to U+001F, which [str.strip]
    removes, are not part of it. *)
Definition int_space (c : char) : bool :=
  ((9 <=? c) && (c <=? 13)) || (c =? 32)
  || (c =? 133) || (c =? 160) || (c =? 5760)
  || ((8192 <=? c) && (c <=? 8202))
  || (c =? 8232) || (c =? 8233) || (c =? 8239) || (c =? 8287) || (c =? 12288).

(** The decimal digits (general category Nd of Unicode 14.0.0, the version
    of CPython 3.11) come in runs of ten, zero to nine; these are the code
    points of the zeros. *)
Definition digit_zeros : list N := [
  48; 1632; 1776; 1984; 2406; 2534; 2662; 2790; 2918; 3046; 3174; 3302; 3430;
  3558; 3664; 3792; 3872; 4160; 4240; 6112; 6160; 6470; 6608; 6784; 6800;
  6992; 7088; 7232; 7248; 42528; 43216; 43264; 43472; 43504; 43600; 44016;
  65296; 66720; 68912; 69734; 69872; 69942; 70096; 70384; 70736; 70864;
  71248; 71360; 71472; 71904; 72016; 72784; 73040; 73120; 92768; 92864;
  93008; 120782; 120792; 120802; 120812; 120822; 123200; 123632; 125264;
  130032 ].

Definition digit_val (c : char) : option Z :=
  match List.find (fun z => (z <=? c) && (c <=? z + 9)) digit_zeros with
  | Some z => Some (Z.of_N (c - z))
  | None => None
  end.

Definition is_digit (c : char) : bool :=
  match digit_val c with Some _ => true | None => false end.

Definition max_str_digits : nat := 4300.

Fixpoint parse_digits (acc : Z) (after_digit : bool) (s : str) : option Z :=
  match s with
  | [] => if after_digit then Some acc else None
  | c :: s' =>
      if c =? 95 then (if after_digit then parse_digits acc false s' else None)
      else match digit_val c with
           | Some d => parse_digits (10 * acc + d)%Z true s'
           | None => None
           end
  end.

Definition int_of_str (s : str) : option Z :=
  let r := rev (drop_while int_space (rev (drop_while int_space s))) in
  if (max_str_digits <? length (List.filter is_digit r))%nat then None
  else match r with
       | 43 :: r => parse_digits 0%Z false r
       | 45 :: r => Z.opp <$> parse_digits 0%Z false r
       | r => parse_digits 0%Z false r
       end.

(** [repr(s)] for a [str].  A character that [str.isprintable] accepts is
    written as it is; these are the runs of printable code points of
    Unicode 14.0.0, the version of CPython 3.11. *)
Definition printable_runs : list (N * N) := [
  (32, 126); (161, 172); (174, 887); (890, 895); (900, 906); (908, 908);
  (910, 929); (931, 1327); (1329, 1366); (1369, 1418); (1421, 1423);
  (1425, 1479); (1488, 1514); (1519, 1524); (1542, 1563); (1565, 1756);
  (1758, 1805); (1808, 1866); (1869, 1969); (1984, 2042); (2045, 2093);
  (2096, 2110); (2112, 2139); (2142, 2142); (2144, 2154); (2160, 2190);
  (2200, 2273); (2275, 2435); (2437, 2444); (2447, 2448); (2451, 2472);
  (2474, 2480); (2482, 2482); (2486, 2489); (2492, 2500); (2503, 2504);
  (2507, 2510); (2519, 2519); (2524, 2525); (2527, 2531); (2534, 2558);
  (2561, 2563); (2565, 2570); (2575, 2576); (2579, 2600); (2602, 2608);
  (2610, 2611); (2613, 2614); (2616, 2617); (2620, 2620); (2622, 2626);
  (2631, 2632); (2635, 2637); (2641, 2641); (2649, 2652); (2654, 2654);
  (2662, 2678); (2689, 2691); (2693, 2701); (2703, 2705); (2707, 2728);
  (2730, 2736); (2738, 2739); (2741, 2745); (2748, 2757); (2759, 2761);
  (2763, 2765); (2768, 2768); (2784, 2787); (2790, 2801); (2809, 2815);
  (2817, 2819); (2821, 2828); (2831, 2832); (2835, 2856); (2858, 2864);
  (2866, 2867); (2869, 2873); (2876, 2884); (2887, 2888); (2891, 2893);
  (2901, 2903); (2908, 2909); (2911, 2915); (2918, 2935); (2946, 2947);
  (2949, 2954); (2958, 2960); (2962, 2965); (2969, 2970); (2972, 2972);
  (2974, 2975); (2979, 2980); (2984, 2986); (2990, 3001); (3006, 3010);
  (3014, 3016); (3018, 3021); (3024, 3024); (3031, 3031); (3046, 3066);
  (3072, 3084); (3086, 3088); (3090, 3112); (3114, 3129); (3132, 3140);
  (3142, 3144); (3146, 3149); (3157, 3158); (3160, 3162); (3165, 3165);
  (3168, 3171); (3174, 3183); (3191, 3212); (3214, 3216); (3218, 3240);
  (3242, 3251); (3253, 3257); (3260, 3268); (3270, 3272); (3274, 3277);
  (3285, 3286); (3293, 3294); (3296, 3299); (3302, 3311); (3313, 3314);
  (3328, 3340); (3342, 3344); (3346, 3396); (3398, 3400); (3402, 3407);
  (3412, 3427); (3430, 3455); (3457, 3459); (3461, 3478); (3482, 3505);
  (3507, 3515); (3517, 3517); (3520, 3526); (3530, 3530); (3535, 3540);
  (3542, 3542); (3544, 3551); (3558, 3567); (3570, 3572); (3585, 3642);
  (3647, 3675); (3713, 3714); (3716, 3716); (3718, 3722); (3724, 3747);
  (3749, 3749); (3751, 3773); (3776, 3780); (3782, 3782); (3784, 3789);
  (3792, 3801); (3804, 3807); (3840, 3911); (3913, 3948); (3953, 3991);
  (3993, 4028); (4030, 4044); (4046, 4058); (4096, 4293); (4295, 4295);
  (4301, 4301); (4304, 4680); (4682, 4685); (4688, 4694); (4696, 4696);
  (4698, 4701); (4704, 4744); (4746, 4749); (4752, 4784); (4786, 4789);
  (4792, 4798); (4800, 4800); (4802, 4805); (4808, 4822); (4824, 4880);
  (4882, 4885); (4888, 4954); (4957, 4988); (4992, 5017); (5024, 5109);
  (5112, 5117); (5120, 5759); (5761, 5788); (5792, 5880); (5888, 5909);
  (5919, 5942); (5952, 5971); (5984, 5996); (5998, 6000); (6002, 6003);
  (6016, 6109); (6112, 6121); (6128, 6137); (6144, 6157); (6159, 6169);
  (6176, 6264); (6272, 6314); (6320, 6389); (6400, 6430); (6432, 6443);
  (6448, 6459); (6464, 6464); (6468, 6509); (6512, 6516); (6528, 6571);
  (6576, 6601); (6608, 6618); (6622, 6683); (6686, 6750); (6752, 6780);
  (6783, 6793); (6800, 6809); (6816, 6829); (6832, 6862); (6912, 6988);
  (6992, 7038); (7040, 7155); (7164, 7223); (7227, 7241); (7245, 7304);
  (7312, 7354); (7357, 7367); (7376, 7418); (7424, 7957); (7960, 7965);
  (7968, 8005); (8008, 8013); (8016, 8023); (8025, 8025); (8027, 8027);
  (8029, 8029); (8031, 8061); (8064, 8116); (8118, 8132); (8134, 8147);
  (8150, 8155); (8157, 8175); (8178, 8180); (8182, 8190); (8208, 8231);
  (8240, 8286); (8304, 8305); (8308, 8334); (8336, 8348); (8352, 8384);
  (8400, 8432); (8448, 8587); (8592, 9254); (9280, 9290); (9312, 11123);
  (11126, 11157); (11159, 11507); (11513, 11557); (11559, 11559);
  (11565, 11565); (11568, 11623); (11631, 11632); (11647, 11670);
  (11680, 11686); (11688, 11694); (11696, 11702); (11704, 11710);
  (11712, 11718); (11720, 11726); (11728, 11734); (11736, 11742);
  (11744, 11869); (11904, 11929); (11931, 12019); (12032, 12245);
  (12272, 12283); (12289, 12351); (12353, 12438); (12441, 12543);
  (12549, 12591); (12593, 12686); (12688, 12771); (12784, 12830);
  (12832, 42124); (42128, 42182); (42192, 42539); (42560, 42743);
  (42752, 42954); (42960, 42961); (42963, 42963); (42965, 42969);
  (42994, 43052); (43056, 43065); (43072, 43127); (43136, 43205);
  (43214, 43225); (43232, 43347); (43359, 43388); (43392, 43469);
  (43471, 43481); (43486, 43518); (43520, 43574); (43584, 43597);
  (43600, 43609); (43612, 43714); (43739, 43766); (43777, 43782);
  (43785, 43790); (43793, 43798); (43808, 43814); (43816, 43822);
  (43824, 43883); (43888, 44013); (44016, 44025); (44032, 55203);
  (55216, 55238); (55243, 55291); (63744, 64109); (64112, 64217);
  (64256, 64262); (64275, 64279); (64285, 64310); (64312, 64316);
  (64318, 64318); (64320, 64321); (64323, 64324); (64326, 64450);
  (64467, 64911); (64914, 64967); (64975, 64975); (65008, 65049);
  (65056, 65106); (65108, 65126); (65128, 65131); (65136, 65140);
  (65142, 65276); (65281, 65470); (65474, 65479); (65482, 65487);
  (65490, 65495); (65498, 65500); (65504, 65510); (65512, 65518);
  (65532, 65533); (65536, 65547); (65549, 65574); (65576, 65594);
  (65596, 65597); (65599, 65613); (65616, 65629); (65664, 65786);
  (65792, 65794); (65799, 65843); (65847, 65934); (65936, 65948);
  (65952, 65952); (66000, 66045); (66176, 66204); (66208, 66256);
  (66272, 66299); (66304, 66339); (66349, 66378); (66384, 66426);
  (66432, 66461); (66463, 66499); (66504, 66517); (66560, 66717);
  (66720, 66729); (66736, 66771); (66776, 66811); (66816, 66855);
  (66864, 66915); (66927, 66938); (66940, 66954); (66956, 66962);
  (66964, 66965); (66967, 66977); (66979, 66993); (66995, 67001);
  (67003, 67004); (67072, 67382); (67392, 67413); (67424, 67431);
  (67456, 67461); (67463, 67504); (67506, 67514); (67584, 67589);
  (67592, 67592); (67594, 67637); (67639, 67640); (67644, 67644);
  (67647, 67669); (67671, 67742); (67751, 67759); (67808, 67826);
  (67828, 67829); (67835, 67867); (67871, 67897); (67903, 67903);
  (67968, 68023); (68028, 68047); (68050, 68099); (68101, 68102);
  (68108, 68115); (68117, 68119); (68121, 68149); (68152, 68154);
  (68159, 68168); (68176, 68184); (68192, 68255); (68288, 68326);
  (68331, 68342); (68352, 68405); (68409, 68437); (68440, 68466);
  (68472, 68497); (68505, 68508); (68521, 68527); (68608, 68680);
  (68736, 68786); (68800, 68850); (68858, 68903); (68912, 68921);
  (69216, 69246); (69248, 69289); (69291, 69293); (69296, 69297);
  (69376, 69415); (69424, 69465); (69488, 69513); (69552, 69579);
  (69600, 69622); (69632, 69709); (69714, 69749); (69759, 69820);
  (69822, 69826); (69840, 69864); (69872, 69881); (69888, 69940);
  (69942, 69959); (69968, 70006); (70016, 70111); (70113, 70132);
  (70144, 70161); (70163, 70206); (70272, 70278); (70280, 70280);
  (70282, 70285); (70287, 70301); (70303, 70313); (70320, 70378);
  (70384, 70393); (70400, 70403); (70405, 70412); (70415, 70416);
  (70419, 70440); (70442, 70448); (70450, 70451); (70453, 70457);
  (70459, 70468); (70471, 70472); (70475, 70477); (70480, 70480);
  (70487, 70487); (70493, 70499); (70502, 70508); (70512, 70516);
  (70656, 70747); (70749, 70753); (70784, 70855); (70864, 70873);
  (71040, 71093); (71096, 71133); (71168, 71236); (71248, 71257);
  (71264, 71276); (71296, 71353); (71360, 71369); (71424, 71450);
  (71453, 71467); (71472, 71494); (71680, 71739); (71840, 71922);
  (71935, 71942); (71945, 71945); (71948, 71955); (71957, 71958);
  (71960, 71989); (71991, 71992); (71995, 72006); (72016, 72025);
  (72096, 72103); (72106, 72151); (72154, 72164); (72192, 72263);
  (72272, 72354); (72368, 72440); (72704, 72712); (72714, 72758);
  (72760, 72773); (72784, 72812); (72816, 72847); (72850, 72871);
  (72873, 72886); (72960, 72966); (72968, 72969); (72971, 73014);
  (73018, 73018); (73020, 73021); (73023, 73031); (73040, 73049);
  (73056, 73061); (73063, 73064); (73066, 73102); (73104, 73105);
  (73107, 73112); (73120, 73129); (73440, 73464); (73648, 73648);
  (73664, 73713); (73727, 74649); (74752, 74862); (74864, 74868);
  (74880, 75075); (77712, 77810); (77824, 78894); (82944, 83526);
  (92160, 92728); (92736, 92766); (92768, 92777); (92782, 92862);
  (92864, 92873); (92880, 92909); (92912, 92917); (92928, 92997);
  (93008, 93017); (93019, 93025); (93027, 93047); (93053, 93071);
  (93760, 93850); (93952, 94026); (94031, 94087); (94095, 94111);
  (94176, 94180); (94192, 94193); (94208, 100343); (100352, 101589);
  (101632, 101640); (110576, 110579); (110581, 110587); (110589, 110590);
  (110592, 110882); (110928, 110930); (110948, 110951); (110960, 111355);
  (113664, 113770); (113776, 113788); (113792, 113800); (113808, 113817);
  (113820, 113823); (118528, 118573); (118576, 118598); (118608, 118723);
  (118784, 119029); (119040, 119078); (119081, 119154); (119163, 119274);
  (119296, 119365); (119520, 119539); (119552, 119638); (119648, 119672);
  (119808, 119892); (119894, 119964); (119966, 119967); (119970, 119970);
  (119973, 119974); (119977, 119980); (119982, 119993); (119995, 119995);
  (119997, 120003); (120005, 120069); (120071, 120074); (120077, 120084);
  (120086, 120092); (120094, 120121); (120123, 120126); (120128, 120132);
  (120134, 120134); (120138, 120144); (120146, 120485); (120488, 120779);
  (120782, 121483); (121499, 121503); (121505, 121519); (122624, 122654);
  (122880, 122886); (122888, 122904); (122907, 122913); (122915, 122916);
  (122918, 122922); (123136, 123180); (123184, 123197); (123200, 123209);
  (123214, 123215); (123536, 123566); (123584, 123641); (123647, 123647);
  (124896, 124902); (124904, 124907); (124909, 124910); (124912, 124926);
  (124928, 125124); (125127, 125142); (125184, 125259); (125264, 125273);
  (125278, 125279); (126065, 126132); (126209, 126269); (126464, 126467);
  (126469, 126495); (126497, 126498); (126500, 126500); (126503, 126503);
  (126505, 126514); (126516, 126519); (126521, 126521); (126523, 126523);
  (126530, 126530); (126535, 126535); (126537, 126537); (126539, 126539);
  (126541, 126543); (126545, 126546); (126548, 126548); (126551, 126551);
  (126553, 126553); (126555, 126555); (126557, 126557); (126559, 126559);
  (126561, 126562); (126564, 126564); (126567, 126570); (126572, 126578);
  (126580, 126583); (126585, 126588); (126590, 126590); (126592, 126601);
  (126603, 126619); (126625, 126627); (126629, 126633); (126635, 126651);
  (126704, 126705); (126976, 127019); (127024, 127123); (127136, 127150);
  (127153, 127167); (127169, 127183); (127185, 127221); (127232, 127405);
  (127462, 127490); (127504, 127547); (127552, 127560); (127568, 127569);
  (127584, 127589); (127744, 128727); (128733, 128748); (128752, 128764);
  (128768, 128883); (128896, 128984); (128992, 129003); (129008, 129008);
  (129024, 129035); (129040, 129095); (129104, 129113); (129120, 129159);
  (129168, 129197); (129200, 129201); (129280, 129619); (129632, 129645);
  (129648, 129652); (129656, 129660); (129664, 129670); (129680, 129708);
  (129712, 129722); (129728, 129733); (129744, 129753); (129760, 129767);
  (129776, 129782); (129792, 129938); (129940, 129994); (130032, 130041);
  (131072, 173791); (173824, 177976); (177984, 178205); (178208, 183969);
  (183984, 191456); (194560, 195101); (196608, 201546); (917760, 917999) ].

Definition isprintable (c : char) : bool :=
  existsb (fun run : N * N => (run.1 <=? c) && (c <=? run.2)) printable_runs.

Definition hex_digit (n : N) : char := if n <? 10 then 48 + n else 87 + n.

Fixpoint hex_fixed (width : nat) (n : N) : str :=
  match width with
  | O => []
  | S w => hex_fixed w (n / 16) ++ [hex_digit (n mod 16)]
  end.

Definition repr_char (quote c : char) : str :=
  if (c =? quote) || (c =? BACKSLASH) then [BACKSLASH; c]
  else if c =? TAB then u "\t"
  else if c =? LF then u "\n"
  else if c =? CR then u "\r"
  else if isprintable c then [c]
  else if c <? 256 then u "\x" ++ hex_fixed 2 c
  else if c <? 65536 then u "\u" ++ hex_fixed 4 c
  else u "\U" ++ hex_fixed 8 c.

Definition repr_str (s : str) : str :=
  let quote :=
    if bool_decide (SQUOTE ∈ s) && negb (bool_decide (DQUOTE ∈ s))
    then DQUOTE else SQUOTE in
  quote :: flat_map (repr_char quote) s ++ [quote].

End PyStr.
Export PyStr.

(** ** Python values, dictionaries and exceptions *)

Module Py.

(** The values that reach the scripts: cells of a table, parameters of a
    query and replies of the graph store. *)
#[warnings="-register-all"] Inductive pyval :=
| PStr (s : str)
| PInt (z : Z)
| PNone
| PList (l : list pyval).

(** Hashable values, as dictionary keys. *)
Inductive hkey :=
| KStr (s : str)
| KInt (z : Z)
| KNone.

#[export] Instance hkey_eq_dec : EqDecision hkey.
Proof. solve_decision. Defined.

(** [hash(v)]: lists are unhashable. *)
Definition to_key (v : pyval) : option hkey :=
  match v with
  | PStr s => Some (KStr s)
  | PInt z => Some (KInt z)
  | PNone => Some KNone
  | PList _ => None
  end.

(** A [dict] in insertion order: assigning to a key that is present keeps
    its position, a new key goes to the end. *)
Definition pydict (V : Type) := list (hkey * V).

Fixpoint dict_set {V} (k : hkey) (v : V) (d : pydict V) : pydict V :=
  match d with
  | [] => [(k, v)]
  | (k', v') :: d' =>
      if decide (k' = k) then (k', v) :: d' else (k', v') :: dict_set k v d'
  end.

Fixpoint dict_get {V} (k : hkey) (d : pydict V) : option V :=
  match d with
  | [] => None
  | (k', v') :: d' => if decide (k' = k) then Some v' else dict_get k d'
  end.

Definition keys {V} (d : pydict V) : list hkey := map fst d.

(** [str(v)] and [repr(v)] *)
Fixpoint py_repr (v : pyval) : str :=
  match v with
  | PStr s => repr_str s
  | PInt z => str_of_Z z
  | PNone => u "None"
  | PList l => u "[" ++ join (u ", ") (map py_repr l) ++ u "]"
  end.

Definition py_str (v : pyval) : str :=
  match v with
  | PStr s => s
  | _ => py_repr v
  end.

Inductive exn :=
| KeyError (k : hkey)
| ValueError
| TypeError
| AttributeError
| IndexError
| CsvError
| ResponseError (msg : str).   (* raised by the redis client, [str(e) = msg] *)

Inductive result (A : Type) :=
| Ok (a : A)
| Raise (e : exn).
Arguments Ok {A} a.
Arguments Raise {A} e.

End Py.
Export Py.

(** ** The [csv] module: [csv.reader] and [csv.DictReader] with the default
    ([excel]) dialect: the delimiter is a comma, the quote character is the
    double quote ([DQUOTE]) and is doubled inside a quoted field, there is no
    escape character and the reader is not strict. *)

Module Csv.

Inductive parser_state :=
| START_RECORD
| START_FIELD
| IN_FIELD
| IN_QUOTED_FIELD
| QUOTE_IN_QUOTED_FIELD
| EAT_CRNL.

#[export] Instance parser_state_eq_dec : EqDecision parser_state.
Proof. solve_decision. Defined.

Record reader := mk_reader {
  fields : list str;       (* fields of the record being read *)
  field : str;             (* characters of the field being read *)
  state : parser_state
}.

Definition set_state (st : parser_state) (r : reader) : reader :=
  mk_reader (fields r) (field r) st.

Definition field_limit : N := 131072.

Definition parse_reset : reader := mk_reader [] [] START_RECORD.

Definition parse_save_field (r : reader) : reader :=
  mk_reader (fields r ++ [field r]) [] (state r).

Definition parse_add_char (r : reader) (c : char) : result reader :=
  if field_limit <=? N.of_nat (length (field r)) then Raise CsvError
  else Ok (mk_reader (fields r) (field r ++ [c]) (state r)).

Definition is_newline (c : char) : bool := (c =? LF) || (c =? CR).

(** One step of the parser; [None] is the end-of-line signal that the reader
    sends after the last character of every line. *)
Definition parse_process_char (r : reader) (c : option char) : result reader :=
  let start_field (r : reader) :=
    match c with
    | None => Ok (set_state START_RECORD (parse_save_field r))
    | Some ch =>
        if is_newline ch then Ok (set_state EAT_CRNL (parse_save_field r))
        else if ch =? DQUOTE then Ok (set_state IN_QUOTED_FIELD r)
        else if ch =? COMMA then Ok (parse_save_field r)
        else match parse_add_char r ch with
             | Ok r' => Ok (set_state IN_FIELD r')
             | Raise e => Raise e
             end
    end in
  match state r with
  | START_RECORD =>
      match c with
      | None => Ok r
      | Some ch =>
          if is_newline ch then Ok (set_state EAT_CRNL r)
          else start_field (set_state START_FIELD r)
      end
  | START_FIELD => start_field r
  | IN_FIELD =>
      match c with
      | None => Ok (set_state START_RECORD (parse_save_field r))
      | Some ch =>
          if is_newline ch then Ok (set_state EAT_CRNL (parse_save_field r))
          else if ch =? COMMA then Ok (set_state START_FIELD (parse_save_field r))
          else parse_add_char r ch
      end
  | IN_QUOTED_FIELD =>
      match c with
      | None => Ok r
      | Some ch =>
          if ch =? DQUOTE then Ok (set_state QUOTE_IN_QUOTED_FIELD r)
          else parse_add_char r ch
      end
  | QUOTE_IN_QUOTED_FIELD =>
      match c with
      | None => Ok (set_state START_RECORD (parse_save_field r))
      | Some ch =>
          if ch =? DQUOTE then
            match parse_add_char r ch with
            | Ok r' => Ok (set_state IN_QUOTED_FIELD r')
            | Raise e => Raise e
            end
          else if ch =? COMMA then Ok (set_state START_FIELD (parse_save_field r))
          else if is_newline ch then Ok (set_state EAT_CRNL (parse_save_field r))
          else match parse_add_char r ch with
               | Ok r' => Ok (set_state IN_FIELD r')
               | Raise e => Raise e
               end
      end
  | EAT_CRNL =>
      match c with
      | None => Ok (set_state START_RECORD r)
      | Some ch => if is_newline ch then Ok r else Raise CsvError
      end
  end.

(** The characters of one line, then the end-of-line signal. *)
Fixpoint process_line (r : reader) (line : str) : result reader :=
  match line with
  | [] => parse_process_char r None
  | c :: line' =>
      match parse_process_char r (Some c) with
      | Ok r' => process_line r' line'
      | Raise e => Raise e
      end
  end.

(** What an iteration produces: the items yielded, and the exception that
    ended the iteration if one did. *)
Definition stream (A : Type) : Type := list A * option exn.

(** All records that iterating a [csv.reader] over [lines] yields.  A record
    ends when the parser is back in [START_RECORD] after a line; at the end
    of the input a record that is still open is closed. *)
Fixpoint reader_rows (r : reader) (lines : list str) : stream (list str) :=
  match lines with
  | [] =>
      if negb (bool_decide (field r = [])) || bool_decide (state r = IN_QUOTED_FIELD)
      then ([fields (parse_save_field r)], None)
      else ([], None)
  | line :: rest =>
      match process_line r line with
      | Raise e => ([], Some e)
      | Ok r' =>
          if bool_decide (state r' = START_RECORD)
          then let '(rows, e) := reader_rows parse_reset rest in (fields r' :: rows, e)
          else reader_rows r' rest
      end
  end.

Definition reader_iter (lines : list str) : stream (list str) :=
  reader_rows parse_reset lines.

(** [DictReader.__next__] once the field names are known:
    [dict(zip(fieldnames, row))], surplus values under the key [None],
    missing values [None]. *)
Definition make_row (fieldnames row : list str) : pydict pyval :=
  let d := fold_left (fun d kv => dict_set (KStr kv.1) (PStr kv.2) d)
                     (zip fieldnames row) [] in
  let lf := length fieldnames in
  let lr := length row in
  if (lf <? lr)%nat then dict_set KNone (PList (map PStr (drop lf row))) d
  else fold_left (fun d k => dict_set (KStr k) PNone d) (drop lr fieldnames) d.

(** Empty records are skipped. *)
Definition data_rows (fieldnames : list str) (records : list (list str))
  : list (pydict pyval) :=
  map (make_row fieldnames) (filter (fun r => r <> []) records).

(** Iterating [csv.DictReader(lines)]: the first record gives the field
    names. *)
Definition DictReader (lines : list str) : stream (pydict pyval) :=
  let '(records, e) := reader_iter lines in
  match records with
  | [] => ([], e)
  | fieldnames :: records' => (data_rows fieldnames records', e)
  end.

End Csv.
Export Csv.

(** ** What the two importer classes share: the statistics, the connection to
    the graph store, and the plumbing of exceptions and state *)

Module Importer.

(** [self.stats] *)
Record Stats := mk_stats {
  business_segments : nat;
  task_templates : nat;
  workflow_templates : nat;
  used_in_relationships : nat;
  depends_on_relationships : nat;
  errors : list str
}.

Inductive counter :=
| c_business_segments
| c_task_templates
| c_workflow_templates
| c_used_in_relationships
| c_depends_on_relationships.

Definition get_counter (c : counter) (s : Stats) : nat :=
  match c with
  | c_business_segments => business_segments s
  | c_task_templates => task_templates s
  | c_workflow_templates => workflow_templates s
  | c_used_in_relationships => used_in_relationships s
  | c_depends_on_relationships => depends_on_relationships s
  end.

(** [self.stats[c] += 1] *)
Definition increment (c : counter) (s : Stats) : Stats :=
  match c with
  | c_business_segments =>
      mk_stats (S (business_segments s)) (task_templates s) (workflow_templates s)
               (used_in_relationships s) (depends_on_relationships s) (errors s)
  | c_task_templates =>
      mk_stats (business_segments s) (S (task_templates s)) (workflow_templates s)
               (used_in_relationships s) (depends_on_relationships s) (errors s)
  | c_workflow_templates =>
      mk_stats (business_segments s) (task_templates s) (S (workflow_templates s))
               (used_in_relationships s) (depends_on_relationships s) (errors s)
  | c_used_in_relationships =>
      mk_stats (business_segments s) (task_templates s) (workflow_templates s)
               (S (used_in_relationships s)) (depends_on_relationships s) (errors s)
  | c_depends_on_relationships =>
      mk_stats (business_segments s) (task_templates s) (workflow_templates s)
               (used_in_relationships s) (S (depends_on_relationships s)) (errors s)
  end.

(** [self.stats['errors'].append(msg)] *)
Definition append_error (msg : str) (s : Stats) : Stats :=
  mk_stats (business_segments s) (task_templates s) (workflow_templates s)
           (used_in_relationships s) (depends_on_relationships s)
           (errors s ++ [msg]).

(** The initial statistics of [__init__]. *)
Definition init_stats : Stats := mk_stats 0 0 0 0 0 [].

(** The answer of [redis_client.execute_command('GRAPH.QUERY', graph, q)]. *)
Inductive reply :=
| Replies (v : pyval)
| Fails (msg : str).      (* an exception [e] with [str(e) = msg] *)

(** The outside world: the graph store answers a query in the light of the
    queries it has received before, and the clock gives the text of
    [datetime.now().isoformat()] at its n-th reading. *)
Record env := mk_env {
  execute_command : list str -> str -> reply;
  now_isoformat : nat -> str
}.

(** The importer object, with the trace of what it sent to the store. *)
Record importer := mk_importer {
  stats : Stats;
  sent : list str;          (* the queries submitted so far, oldest first *)
  clock_reads : nat
}.

Definition init : importer := mk_importer init_stats [] 0.

(** Computations that read and update the importer and may raise. *)
Definition M (A : Type) : Type := importer -> result A * importer.

Definition ret {A} (a : A) : M A := fun self => (Ok a, self).
Definition raise {A} (e : exn) : M A := fun self => (Raise e, self).
Definition bind {A B} (m : M A) (k : A -> M B) : M B :=
  fun self =>
    match m self with
    | (Ok a, self') => k a self'
    | (Raise e, self') => (Raise e, self')
    end.
Definition lift {A} (r : result A) : M A := fun self => (r, self).

Notation "'do' x <- m ; k" := (bind m (fun x => k))
  (at level 10, x name, m at level 100, k at level 200).
Notation "m ;; k" := (bind m (fun _ => k))
  (at level 100, k at level 200, right associativity).

Definition modify_stats (f : Stats -> Stats) : M unit :=
  fun self => (Ok tt, mk_importer (f (stats self)) (sent self) (clock_reads self)).

(** [datetime.now().isoformat()] *)
Definition now (E : env) : M str :=
  fun self =>
    (Ok (now_isoformat E (clock_reads self)),
     mk_importer (stats self) (sent self) (S (clock_reads self))).

(** The call to the store inside [try], with the handler that follows it:
    [query] is submitted; on an exception the handler appends
    [message (str e)] to the error list and the function returns [[]]. *)
Definition submit (E : env) (query : str) (message : str -> str) : M pyval :=
  fun self =>
    let self' := mk_importer (stats self) (sent self ++ [query]) (clock_reads self) in
    match execute_command E (sent self) query with
    | Replies v => (Ok v, self')
    | Fails msg =>
        (Ok (PList []),
         mk_importer (append_error (message msg) (stats self')) (sent self')
                     (clock_reads self'))
    end.

(** A [for] loop over the items of an iteration; the exception that ends the
    iteration, if any, is raised after the items before it were processed. *)
Fixpoint for_each {A} (items : list A) (body : A -> M unit) : M unit :=
  match items with
  | [] => ret tt
  | x :: rest => body x ;; for_each rest body
  end.

Definition for_stream {A} (it : stream A) (body : A -> M unit) : M unit :=
  for_each it.1 body ;;
  match it.2 with
  | Some e => raise e
  | None => ret tt
  end.

(** How a cell of a row enters the parameters: as it is, or through [int]. *)
Inductive conv := as_is | as_int.

(** One import function: its query template, the columns that its [params]
    literal reads from the row (in the order of the literal; [created_at] is
    always added last), the counter it increments, and the column that its
    progress line slices with [[:50]], if it has one. *)
Record table := mk_table {
  template : str;
  columns : list (string * conv);
  counts : counter;
  sliced : option string
}.

(** [row[name]] *)
Definition getitem (row : pydict pyval) (name : string) : result pyval :=
  match dict_get (KStr (u name)) row with
  | Some v => Ok v
  | None => Raise (KeyError (KStr (u name)))
  end.

(** [int(v)] *)
Definition py_int (v : pyval) : result pyval :=
  match v with
  | PStr s => match int_of_str s with
              | Some z => Ok (PInt z)
              | None => Raise ValueError
              end
  | PInt z => Ok (PInt z)
  | PNone | PList _ => Raise TypeError
  end.

Definition read_column (row : pydict pyval) (col : string * conv) : result (str * pyval) :=
  match getitem row col.1 with
  | Raise e => Raise e
  | Ok v =>
      match col.2 with
      | as_is => Ok (u col.1, v)
      | as_int => match py_int v with
                  | Ok n => Ok (u col.1, n)
                  | Raise e => Raise e
                  end
      end
  end.

(** The entries of the [params] literal before [created_at], evaluated from
    left to right. *)
Fixpoint read_columns (row : pydict pyval) (cols : list (string * conv))
  : result (list (str * pyval)) :=
  match cols with
  | [] => Ok []
  | col :: cols' =>
      match read_column row col with
      | Raise e => Raise e
      | Ok kv =>
          match read_columns row cols' with
          | Raise e => Raise e
          | Ok kvs => Ok (kv :: kvs)
          end
      end
  end.

Definition build_params (E : env) (t : table) (row : pydict pyval)
  : M (list (str * pyval)) :=
  do kvs <- lift (read_columns row (columns t));
  do created_at <- now E;
  ret (kvs ++ [(u "created_at", PStr created_at)]).

(** The argument of the progress [print]: a cell sliced with [[:50]] must be
    a sequence. *)
Definition progress_line (t : table) (row : pydict pyval) : result unit :=
  match sliced t with
  | None => Ok tt
  | Some name =>
      match getitem row name with
      | Raise e => Raise e
      | Ok (PStr _) | Ok (PList _) => Ok tt
      | Ok (PInt _) | Ok PNone => Raise TypeError
      end
  end.

End Importer.
Export Importer.

(** ** [import_knowledge_graph.py]: class [KnowledgeGraphImporter] *)

Module KnowledgeGraphImporter.

(** One entry of [formatted_params]. *)
Definition format_param (kv : str * pyval) : str :=
  match kv.2 with
  | PStr value => kv.1 ++ u "=" ++ [DQUOTE] ++ value ++ [DQUOTE]
  | PList value =>
      kv.1 ++ u "=" ++ [DQUOTE] ++ join (u ",") (map py_str value) ++ [DQUOTE]
  | value => kv.1 ++ u "=" ++ py_str value
  end.

Definition query_with_params (query : str) (params : option (list (str * pyval))) : str :=
  match params with
  | Some ps => u "CYPHER " ++ join (u " ") (map format_param ps) ++ u " " ++ query
  | None => query
  end.

Definition error_message (query msg : str) : str :=
  u "Query error: " ++ take 100 query ++ u "... - " ++ msg.

Definition execute_cypher (E : env) (query : str)
    (params : option (list (str * pyval))) : M pyval :=
  submit E (query_with_params query params) (error_message query).

(** Reading the file: [open(csv_path, 'r', newline='', encoding='utf-8-sig')].
    The text of the file is given as its code points; the codec drops one
    leading byte-order mark, and with [newline=''] the lines keep their
    terminators (LF, CR or CR LF). *)
Definition decode_utf_8_sig (text : str) : str :=
  match text with
  | c :: rest => if c =? BOM then rest else text
  | [] => []
  end.

Fixpoint file_lines_from (cur : str) (after_cr : bool) (s : str) : list str :=
  match s with
  | [] => match cur with [] => [] | _ :: _ => [cur] end
  | c :: s' =>
      if after_cr then
        if c =? LF then (cur ++ [c]) :: file_lines_from [] false s'
        else cur :: (if c =? CR then file_lines_from [c] true s'
                     else file_lines_from [c] false s')
      else
        if c =? LF then (cur ++ [c]) :: file_lines_from [] false s'
        else if c =? CR then file_lines_from (cur ++ [c]) true s'
        else file_lines_from (cur ++ [c]) false s'
  end.

Definition file_lines (text : str) : list str := file_lines_from [] false text.

(** [name.lstrip(BOM)] *)
Definition clean_name (name : str) : str := lstrip_chars [BOM] name.

(** [{key.lstrip(BOM): value for key, value in row.items()}]; the key
    [None] of a row with surplus values has no [lstrip]. *)
Fixpoint clean_items (items : list (hkey * pyval)) (acc : pydict pyval)
  : result (pydict pyval) :=
  match items with
  | [] => Ok acc
  | (KStr key, value) :: rest => clean_items rest (dict_set (KStr (clean_name key)) value acc)
  | (_, _) :: _ => Raise AttributeError
  end.

Definition clean_row (row : pydict pyval) : result (pydict pyval) :=
  clean_items row [].

(** The rows of the file as the loop sees them ([row] before cleaning):
    [csv.DictReader(csvfile)] with its field names cleaned when there are
    any. *)
Definition read_rows (text : str) : stream (pydict pyval) :=
  let '(records, e) := reader_iter (file_lines (decode_utf_8_sig text)) in
  match records with
  | [] => ([], e)
  | fieldnames :: records' =>
      let fieldnames' :=
        match fieldnames with
        | [] => fieldnames
        | _ :: _ => map clean_name fieldnames
        end in
      (data_rows fieldnames' records', e)
  end.

(** The body of the loop of an import function. *)
Definition import_row (E : env) (t : table) (row : pydict pyval) : M unit :=
  do clean_row <- lift (clean_row row);
  do params <- build_params E t clean_row;
  execute_cypher E (template t) (Some params) ;;
  modify_stats (increment (counts t)) ;;
  lift (progress_line t clean_row).

Definition import_table (E : env) (t : table) (text : str) : M unit :=
  for_stream (read_rows text) (import_row E t).

Definition business_segments_query : str := u "
                CREATE (bs:BUSINESS_SEGMENT {
                    segment_id: $segment_id,
                    segment_name: $segment_name,
                    description: $description,
                    version: $version,
                    node_type: $node_type,
                    created_at: $created_at
                })
                ".

Definition business_segments_table : table :=
  mk_table business_segments_query
    [ ("segment_id", as_is); ("segment_name", as_is); ("description",
      as_is); ("version", as_is); ("node_type", as_is) ]%string
    c_business_segments (None).

Definition task_templates_query : str := u "
                CREATE (tt:TASK_TEMPLATE {
                    node_id: $node_id,
                    node_type: $node_type,
                    segment_id: $segment_id,
                    role: $role,
                    workflow_name: $workflow_name,
                    characteristic: $characteristic,
                    prompt: $prompt,
                    pain_point_need: $pain_point_need,
                    artifacts: $artifacts,
                    keywords_phrases: $keywords_phrases,
                    outcomes: $outcomes,
                    prompt_flexibility: $prompt_flexibility,
                    instruction_with_example: $instruction_with_example,
                    example_straightforward: $example_straightforward,
                    example_complex: $example_complex,
                    example_enterprise: $example_enterprise,
                    created_at: $created_at
                })
                ".

Definition task_templates_table : table :=
  mk_table task_templates_query
    [ ("node_id", as_is); ("node_type", as_is); ("segment_id", as_is);
      ("role", as_is); ("workflow_name", as_is); ("characteristic", as_is);
      ("prompt", as_is); ("pain_point_need", as_is); ("artifacts", as_is);
      ("keywords_phrases", as_is); ("outcomes", as_is);
      ("prompt_flexibility", as_is); ("instruction_with_example", as_is);
      ("example_straightforward", as_is); ("example_complex", as_is);
      ("example_enterprise", as_is) ]%string
    c_task_templates (Some "workflow_name"%string).

Definition workflow_templates_query : str := u "
                CREATE (wt:WORKFLOW_TEMPLATE {
                    workflow_id: $workflow_id,
                    node_type: $node_type,
                    segment_id: $segment_id,
                    workflow_name: $workflow_name,
                    description: $description,
                    business_value: $business_value,
                    total_tasks: $total_tasks,
                    involved_roles: $involved_roles,
                    complexity_level: $complexity_level,
                    created_at: $created_at
                })
                ".

Definition workflow_templates_table : table :=
  mk_table workflow_templates_query
    [ ("workflow_id", as_is); ("node_type", as_is); ("segment_id", as_is);
      ("workflow_name", as_is); ("description", as_is); ("business_value",
      as_is); ("total_tasks", as_int); ("involved_roles", as_is);
      ("complexity_level", as_is) ]%string
    c_workflow_templates (Some "workflow_name"%string).

Definition task_workflow_relationships_query : str := u "
                MATCH (tt:TASK_TEMPLATE {node_id: $source_node_id})
                MATCH (wt:WORKFLOW_TEMPLATE {workflow_id: $target_node_id})
                CREATE (tt)-[r:USED_IN {
                    relationship_type: $relationship_type,
                    sequence_position: $sequence_position,
                    priority_score: $priority_score,
                    notification_trigger: $notification_trigger,
                    visibility_roles: $visibility_roles,
                    created_at: $created_at
                }]->(wt)
                ".

Definition task_workflow_relationships_table : table :=
  mk_table task_workflow_relationships_query
    [ ("source_node_id", as_is); ("target_node_id", as_is);
      ("relationship_type", as_is); ("sequence_position", as_is);
      ("priority_score", as_int); ("notification_trigger", as_is);
      ("visibility_roles", as_is) ]%string
    c_used_in_relationships (None).

Definition task_dependencies_query : str := u "
                MATCH (tt1:TASK_TEMPLATE {node_id: $source_node_id})
                MATCH (tt2:TASK_TEMPLATE {node_id: $target_node_id})
                CREATE (tt1)-[r:DEPENDS_ON {
                    relationship_type: $relationship_type,
                    workflow_context: $workflow_context,
                    dependency_type: $dependency_type,
                    priority_score: $priority_score,
                    created_at: $created_at
                }]->(tt2)
                ".

Definition task_dependencies_table : table :=
  mk_table task_dependencies_query
    [ ("source_node_id", as_is); ("target_node_id", as_is);
      ("relationship_type", as_is); ("workflow_context", as_is);
      ("dependency_type", as_is); ("priority_score", as_int) ]%string
    c_depends_on_relationships (None).

Definition import_business_segments (E : env) := import_table E business_segments_table.
Definition import_task_templates (E : env) := import_table E task_templates_table.
Definition import_workflow_templates (E : env) := import_table E workflow_templates_table.
Definition import_task_workflow_relationships (E : env) :=
  import_table E task_workflow_relationships_table.
Definition import_task_dependencies (E : env) := import_table E task_dependencies_table.

End KnowledgeGraphImporter.

(** ** [import_knowledge_graph_from_rtf.py]: class [RTFKnowledgeGraphImporter] *)

Module RTFKnowledgeGraphImporter.

(** The literal text that the pattern [r'\\strokec2 (.+?)}'] starts with. *)
Definition marker : str := u "\strokec2 ".

(** Reading the file: [open(rtf_path, 'r', encoding='utf-8')] and
    [f.read()].  The text of the file is given as its code points; without a
    [newline] argument the line ends are translated on reading: a carriage
    return followed by a line feed, and a carriage return alone, are read as
    one line feed. *)
Fixpoint read_text_from (after_cr : bool) (s : str) : str :=
  match s with
  | [] => []
  | c :: s' =>
      if c =? CR then LF :: read_text_from true s'
      else if c =? LF then
        if after_cr then read_text_from false s' else LF :: read_text_from false s'
      else c :: read_text_from false s'
  end.

Definition read_text (file : str) : str := read_text_from false file.

(** The characters before the first [stop], if [stop] occurs. *)
Fixpoint up_to (stop : char) (s : str) : option str :=
  match s with
  | [] => None
  | c :: s' => if c =? stop then Some [] else cons c <$> up_to stop s'
  end.

(** A match of the pattern at the head of [s], under [re.DOTALL]: the marker,
    then the shortest run of at least one character that a closing brace
    follows.  The result is the group, that run. *)
Definition match_here (s : str) : option str :=
  if starts_with marker s then
    match drop (length marker) s with
    | c :: rest => cons c <$> up_to RBRACE rest
    | [] => None
    end
  else None.

(** [re.findall(csv_pattern, content, re.DOTALL)]: the groups of the
    successive matches, the search resuming after each match. *)
Fixpoint findall_from (skip : nat) (s : str) : list str :=
  match s with
  | [] => []
  | _ :: s' =>
      match skip with
      | S k => findall_from k s'
      | O =>
          match match_here s with
          | Some group => group :: findall_from (length marker + length group) s'
          | None => findall_from 0 s'
          end
      end
  end.

Definition findall (content : str) : list str := findall_from 0 content.

(** [re.sub(r'[{}]', '', s)] *)
Definition remove_braces (s : str) : str :=
  filter (fun c => c <> LBRACE /\ c <> RBRACE) s.

(** The lines of a recovered payload:
    [[line.strip() for line in s.strip().split('\n') if line.strip()]] *)
Definition payload_lines (s : str) : list str :=
  map strip (filter (fun line => strip line <> []) (split LF (strip s))).

(** [extract_csv_from_rtf], on the text [content] read from the file. *)
Definition extract_csv_from_rtf (content : str) : list str :=
  match findall content with
  | csv_content :: _ =>
      let csv_content := replace [BACKSLASH] [LF] csv_content in
      let csv_content := remove_braces csv_content in
      payload_lines csv_content
  | [] => []
  end.

(** The chain of three [replace] calls on a string value: a double quote
    becomes backslash and double quote, a line feed becomes backslash and
    [n], a carriage return becomes backslash and [r]. *)
Definition escaped_value (value : str) : str :=
  replace [CR] [BACKSLASH; 114]
    (replace [LF] [BACKSLASH; 110]
       (replace [DQUOTE] [BACKSLASH; DQUOTE] value)).

(** The text that takes the place of a placeholder. *)
Definition literal (value : pyval) : str :=
  match value with
  | PStr s => [DQUOTE] ++ escaped_value s ++ [DQUOTE]
  | _ => py_str value
  end.

(** [query.replace(f'${key}', ...)] *)
Definition substitute (query : str) (kv : str * pyval) : str :=
  replace (DOLLAR :: kv.1) (literal kv.2) query.

(** [sorted(params.items(), key=lambda x: len(x[0]), reverse=True)]: a stable
    sort, longest names first. *)
Fixpoint insert_by_length (x : str * pyval) (l : list (str * pyval))
  : list (str * pyval) :=
  match l with
  | [] => [x]
  | y :: l' =>
      if (length x.1 <? length y.1)%nat then y :: insert_by_length x l'
      else x :: l
  end.

Definition sorted_params (items : list (str * pyval)) : list (str * pyval) :=
  foldr insert_by_length [] items.

(** The query after the substitution loop. *)
Definition render (query : str) (params : option (list (str * pyval))) : str :=
  match params with
  | Some ps => fold_left substitute (sorted_params ps) query
  | None => query
  end.

Definition error_message (query msg : str) : str :=
  u "Query error: " ++ take 100 query ++ u " ... - " ++ u "Query failed: " ++ msg.

Definition execute_cypher (E : env) (query : str)
    (params : option (list (str * pyval))) : M pyval :=
  let query := render query params in
  submit E query (error_message query).

(** The body of the loop of an import function. *)
Definition import_row (E : env) (t : table) (row : pydict pyval) : M unit :=
  do params <- build_params E t row;
  execute_cypher E (template t) (Some params) ;;
  modify_stats (increment (counts t)) ;;
  lift (progress_line t row).

Definition import_table (E : env) (t : table) (content : str) : M unit :=
  match extract_csv_from_rtf content with
  | [] => ret tt
  | csv_lines => for_stream (DictReader csv_lines) (import_row E t)
  end.

Definition business_segments_query : str := u "
            CREATE (bs:BUSINESS_SEGMENT {
                segment_id: $segment_id,
                segment_name: $segment_name,
                description: $description,
                version: $version,
                node_type: $node_type,
                created_at: $created_at
            })
            ".

Definition business_segments_table : table :=
  mk_table business_segments_query
    [ ("segment_id", as_is); ("segment_name", as_is); ("description",
      as_is); ("version", as_is); ("node_type", as_is) ]%string
    c_business_segments (None).

Definition task_templates_query : str := u "
            CREATE (tt:TASK_TEMPLATE {
                node_id: $node_id,
                node_type: $node_type,
                segment_id: $segment_id,
                role: $role,
                workflow_name: $workflow_name,
                characteristic: $characteristic,
                prompt: $prompt,
                pain_point_need: $pain_point_need,
                artifacts: $artifacts,
                keywords_phrases: $keywords_phrases,
                outcomes: $outcomes,
                prompt_flexibility: $prompt_flexibility,
                instruction_with_example: $instruction_with_example,
                example_straightforward: $example_straightforward,
                example_complex: $example_complex,
                example_enterprise: $example_enterprise,
                created_at: $created_at
            })
            ".

Definition task_templates_table : table :=
  mk_table task_templates_query
    [ ("node_id", as_is); ("node_type", as_is); ("segment_id", as_is);
      ("role", as_is); ("workflow_name", as_is); ("characteristic", as_is);
      ("prompt", as_is); ("pain_point_need", as_is); ("artifacts", as_is);
      ("keywords_phrases", as_is); ("outcomes", as_is);
      ("prompt_flexibility", as_is); ("instruction_with_example", as_is);
      ("example_straightforward", as_is); ("example_complex", as_is);
      ("example_enterprise", as_is) ]%string
    c_task_templates (Some "workflow_name"%string).

Definition workflow_templates_query : str := u "
            CREATE (wt:WORKFLOW_TEMPLATE {
                workflow_id: $workflow_id,
                node_type: $node_type,
                segment_id: $segment_id,
                workflow_name: $workflow_name,
                description: $description,
                business_value: $business_value,
                total_tasks: $total_tasks,
                involved_roles: $involved_roles,
                complexity_level: $complexity_level,
                created_at: $created_at
            })
            ".

Definition workflow_templates_table : table :=
  mk_table workflow_templates_query
    [ ("workflow_id", as_is); ("node_type", as_is); ("segment_id", as_is);
      ("workflow_name", as_is); ("description", as_is); ("business_value",
      as_is); ("total_tasks", as_int); ("involved_roles", as_is);
      ("complexity_level", as_is) ]%string
    c_workflow_templates (Some "workflow_name"%string).

Definition task_workflow_relationships_query : str := u "
            MATCH (tt:TASK_TEMPLATE {node_id: $source_node_id})
            MATCH (wt:WORKFLOW_TEMPLATE {workflow_id: $target_node_id})
            CREATE (tt)-[r:USED_IN {
                relationship_type: $relationship_type,
                sequence_position: $sequence_position,
                priority_score: $priority_score,
                notification_trigger: $notification_trigger,
                visibility_roles: $visibility_roles,
                created_at: $created_at
            }]->(wt)
            ".

Definition task_workflow_relationships_table : table :=
  mk_table task_workflow_relationships_query
    [ ("source_node_id", as_is); ("target_node_id", as_is);
      ("relationship_type", as_is); ("sequence_position", as_is);
      ("priority_score", as_int); ("notification_trigger", as_is);
      ("visibility_roles", as_is) ]%string
    c_used_in_relationships (None).

Definition task_dependencies_query : str := u "
            MATCH (tt1:TASK_TEMPLATE {node_id: $source_node_id})
            MATCH (tt2:TASK_TEMPLATE {node_id: $target_node_id})
            CREATE (tt1)-[r:DEPENDS_ON {
                relationship_type: $relationship_type,
                workflow_context: $workflow_context,
                dependency_type: $dependency_type,
                priority_score: $priority_score,
                created_at: $created_at
            }]->(tt2)
            ".

Definition task_dependencies_table : table :=
  mk_table task_dependencies_query
    [ ("source_node_id", as_is); ("target_node_id", as_is);
      ("relationship_type", as_is); ("workflow_context", as_is);
      ("dependency_type", as_is); ("priority_score", as_int) ]%string
    c_depends_on_relationships (None).

Definition import_business_segments (E : env) := import_table E business_segments_table.
Definition import_task_templates (E : env) := import_table E task_templates_table.
Definition import_workflow_templates (E : env) := import_table E workflow_templates_table.
Definition import_task_workflow_relationships (E : env) :=
  import_table E task_workflow_relationships_table.
Definition import_task_dependencies (E : env) := import_table E task_dependencies_table.

End RTFKnowledgeGraphImporter.

(** ** [query_knowledge_graph.py]: class [KnowledgeGraphQuery] *)

Module KnowledgeGraphQuery.

Definition and_then {A B} (r : result A) (k : A -> result B) : result B :=
  match r with
  | Ok a => k a
  | Raise e => Raise e
  end.

(** [len(v)] *)
Definition py_len (v : pyval) : result nat :=
  match v with
  | PStr s => Ok (length s)
  | PList l => Ok (length l)
  | PInt _ | PNone => Raise TypeError
  end.

(** [v[i]] for a non-negative index *)
Definition py_index (v : pyval) (i : nat) : result pyval :=
  match v with
  | PStr s => match s !! i with Some c => Ok (PStr [c]) | None => Raise IndexError end
  | PList l => match l !! i with Some x => Ok x | None => Raise IndexError end
  | PInt _ | PNone => Raise TypeError
  end.

(** The items of [for x in v] *)
Definition py_iter (v : pyval) : result (list pyval) :=
  match v with
  | PStr s => Ok (map (fun c => PStr [c]) s)
  | PList l => Ok l
  | PInt _ | PNone => Raise TypeError
  end.

(** The inner loop, [for i, header in enumerate(headers)], from index [i]. *)
Fixpoint fill_row (i : nat) (headers : list pyval) (row : pyval)
    (row_dict : pydict pyval) : result (pydict pyval) :=
  match headers with
  | [] => Ok row_dict
  | header :: headers' =>
      and_then (py_len row) (fun n =>
        if (i <? n)%nat then
          and_then (py_index row i) (fun v =>
            match to_key header with
            | Some k => fill_row (S i) headers' row (dict_set k v row_dict)
            | None => Raise TypeError
            end)
        else fill_row (S i) headers' row row_dict)
  end.

(** The outer loop, [for row in rows]. *)
Fixpoint format_rows (headers : pyval) (rows : list pyval)
  : result (list (pydict pyval)) :=
  match rows with
  | [] => Ok []
  | row :: rows' =>
      and_then (py_iter headers) (fun hs =>
      and_then (fill_row 0 hs row []) (fun row_dict =>
      and_then (format_rows headers rows') (fun formatted_results =>
      Ok (row_dict :: formatted_results))))
  end.

(** The body of [try] in [query], given the answer of the store. *)
Definition query_try (answer : reply) : result (list (pydict pyval)) :=
  match answer with
  | Fails msg => Raise (ResponseError msg)
  | Replies result =>
      and_then (py_len result) (fun n =>
        if (n <? 2)%nat then Ok []
        else
          and_then (py_index result 0) (fun headers =>
          and_then (py_index result 1) (fun rows =>
          and_then (py_iter rows) (fun rows =>
          format_rows headers rows))))
  end.

(** [query]: whatever the body raises is caught and [[]] is returned. *)
Definition query (execute_command : str -> reply) (cypher_query : str)
  : list (pydict pyval) :=
  match query_try (execute_command cypher_query) with
  | Ok formatted_results => formatted_results
  | Raise _ => []
  end.

End KnowledgeGraphQuery.

(** ** Vocabulary of the statements *)

Module Vocabulary.
Import RTFKnowledgeGraphImporter.

(** A template seen as a sequence of pieces: plain text, and placeholders
    written [$name]. *)
Inductive piece :=
| Text (s : str)
| Hole (name : str).

(** The text of the template as it stands in the source. *)
Fixpoint template_text (tpl : list piece) : str :=
  match tpl with
  | [] => []
  | Text s :: rest => s ++ template_text rest
  | Hole name :: rest => DOLLAR :: name ++ template_text rest
  end.

(** [params[name]] on the list of items of the mapping. *)
Fixpoint lookup_param (name : str) (params : list (str * pyval)) : option pyval :=
  match params with
  | [] => None
  | (k, v) :: rest => if decide (k = name) then Some v else lookup_param name rest
  end.

(** The template with every placeholder that has a value in [params]
    replaced by the literal of that value, piece by piece. *)
Fixpoint instantiate (params : list (str * pyval)) (tpl : list piece) : str :=
  match tpl with
  | [] => []
  | Text s :: rest => s ++ instantiate params rest
  | Hole name :: rest =>
      match lookup_param name params with
      | Some v => literal v ++ instantiate params rest
      | None => DOLLAR :: name ++ instantiate params rest
      end
  end.

(** The names of a mapping. *)
Definition names (ps : list (str * pyval)) : list str := map fst ps.

(** No dollar sign of [s] begins the placeholder of [k], or a beginning of
    that placeholder that reaches the end of [s]. *)
Fixpoint no_start (k s : str) : bool :=
  match s with
  | [] => true
  | c :: s' =>
      negb ((c =? DOLLAR) && (starts_with k s' || starts_with s' k)) && no_start k s'
  end.

(** [s] without its beginning [p], when it begins with [p]. *)
Fixpoint after (p s : str) : option str :=
  match p with
  | [] => Some s
  | a :: p' =>
      match s with
      | b :: s' => if a =? b then after p' s' else None
      | [] => None
      end
  end.

(** Whether the text that follows a placeholder, at any moment of the
    substitution loop, can begin with [ext]: the text of a piece of plain
    text is compared in full; of a placeholder that follows, the dollar sign
    and the first character of the literal of its value are compared. *)
Fixpoint continues (ps : list (str * pyval)) (ext : str) (rest : list piece) : bool :=
  match rest with
  | [] => match ext with [] => true | _ :: _ => false end
  | Text s :: rest' =>
      if (length ext <=? length s)%nat then starts_with ext s
      else starts_with s ext && continues ps (drop (length s) ext) rest'
  | Hole n :: _ =>
      match ext with
      | [] => true
      | c :: _ =>
          (c =? DOLLAR)
          || match lookup_param n ps with
             | Some v => match literal v with h :: _ => c =? h | [] => false end
             | None => false
             end
      end
  end.

Definition dollar_free (s : str) : bool := forallb (fun c => negb (c =? DOLLAR)) s.

(** A reading of a template as pieces under which the placeholders written
    in it are the ones that the loop finds: plain text and names hold no
    dollar sign; the text after a placeholder does not continue its name to
    a longer name of the mapping; and no name of the mapping begins the name
    of a placeholder that is not in the mapping. *)
Fixpoint reads_well (ps : list (str * pyval)) (tpl : list piece) : bool :=
  match tpl with
  | [] => true
  | Text s :: rest => dollar_free s && reads_well ps rest
  | Hole name :: rest =>
      dollar_free name
      && forallb (fun k => match after name k with
                           | Some (c :: ext) => negb (continues ps (c :: ext) rest)
                           | _ => true
                           end) (names ps)
      && (bool_decide (name ∈ names ps)
          || forallb (fun k => negb (starts_with k name)) (names ps))
      && reads_well ps rest
  end.

(** No value holds a dollar sign that begins (or, at its end, could begin)
    the placeholder of a name that comes after its own in [l], the order in
    which the loop processes the items. *)
Fixpoint values_pass_later (l : list (str * pyval)) : bool :=
  match l with
  | [] => true
  | kv :: rest =>
      forallb (fun k' => no_start k' (literal kv.2)) (names rest)
      && values_pass_later rest
  end.

(** No value of the mapping holds a dollar sign that begins (or, at its end,
    could begin) the placeholder of a name of the mapping. *)
Definition values_pass (ps : list (str * pyval)) : bool :=
  forallb (fun kv => forallb (fun k' => no_start k' (literal kv.2)) (names ps)) ps.

(** The first character of a text. *)
Definition first_char (s : str) : option char := head s.

(** Longest names first: the order of the substitution loop. *)
Definition by_length_desc (x y : str * pyval) : Prop :=
  (length y.1 <= length x.1)%nat.

(** A row that an import function processes to the end: every column of the
    table is in the row, the integer columns are numeric, and the progress
    line can be printed. *)
Definition complete (t : table) (row : pydict pyval) : Prop :=
  (exists kvs, read_columns row (columns t) = Ok kvs) /\ progress_line t row = Ok tt.

(** The same for the plain-file importer, which first cleans the keys. *)
Definition complete_plain (t : table) (row : pydict pyval) : Prop :=
  exists row', KnowledgeGraphImporter.clean_row row = Ok row' /\ complete t row'.

(** A dictionary [d] made from a result row [row] under the header row
    [headers]: its keys are the headers at the positions where the row has a
    value. *)
Definition row_formatted (headers : pyval) (d : pydict pyval) (row : pyval) : Prop :=
  forall k, k ∈ keys d <->
    exists hs j h n,
      KnowledgeGraphQuery.py_iter headers = Ok hs /\ hs !! j = Some h /\
      to_key h = Some k /\ KnowledgeGraphQuery.py_len row = Ok n /\ (j < n)%nat.

(** The error messages that one submission adds: one message when the
    store fails on [q] after the queries of [history], none otherwise. *)
Definition outcome_errors (E : env) (history : list str) (q : str)
    (message : str -> str) : list str :=
  match execute_command E history q with
  | Fails msg => [message msg]
  | Replies _ => []
  end.

(** The error messages that submitting [qs] one after the other adds. *)
Fixpoint collected (E : env) (message : str -> str -> str) (history : list str)
    (qs : list str) : list str :=
  match qs with
  | [] => []
  | q :: qs' =>
      outcome_errors E history q (message q)
      ++ collected E message (history ++ [q]) qs'
  end.

(** What a loop over rows has done, from the importer [self] before it to
    the importer [self'] after it: one query per row was submitted, the
    messages of the failed submissions were appended to the error list in
    order, and the counter [c] grew by the number of rows. *)
Definition attempted_all (E : env) (message : str -> str -> str) (c : counter)
    (rows : list (pydict pyval)) (self self' : importer) : Prop :=
  exists qs,
    sent self' = sent self ++ qs /\
    length qs = length rows /\
    errors (stats self') = errors (stats self) ++ collected E message (sent self) qs /\
    get_counter c (stats self') = (get_counter c (stats self) + length rows)%nat.

(** One turn of a loop that submits one query: from every importer, the
    body returns and has attempted the row. *)
Definition attempts_one (E : env) (body : pydict pyval -> M unit)
    (message : str -> str -> str) (c : counter) (row : pydict pyval) : Prop :=
  forall self, exists self',
    body row self = (Ok tt, self') /\ attempted_all E message c [row] self self'.

(** Modelled from the spec: the wrapper of a payload in a rich-text
    container is not in the sources; section 4.1 of the specification gives
    its escaping rules by what the recovery undoes (the backslash is the
    line-break escape, braces are the group delimiters).  A line feed is
    written as backslash and line feed, and a backslash or a brace of the
    payload is preceded by a backslash; the escaped payload follows the
    marker and is closed by a brace, between a prologue and an epilogue. *)
Definition rtf_escape (payload : str) : str :=
  flat_map (fun c =>
    if (c =? BACKSLASH) || (c =? LBRACE) || (c =? RBRACE) then [BACKSLASH; c]
    else if c =? LF then [BACKSLASH; LF]
    else [c]) payload.

Definition rtf_wrap (prologue payload epilogue : str) : str :=
  prologue ++ marker ++ rtf_escape payload ++ [RBRACE] ++ epilogue.

(** The rows that the loop of the rich-text importer receives. *)
Definition rtf_table_rows (content : str) : stream (pydict pyval) :=
  DictReader (extract_csv_from_rtf content).

(** The same from the text of the file, which is read first. *)
Definition rtf_file_rows (file : str) : stream (pydict pyval) :=
  rtf_table_rows (read_text file).

(** The rows that the loop of the plain-file importer works on: each row of
    the reader with its keys cleaned, up to the first row that cannot be
    cleaned or to the exception of the reader. *)
Fixpoint clean_rows (rows : list (pydict pyval)) : stream (pydict pyval) :=
  match rows with
  | [] => ([], None)
  | row :: rows' =>
      match KnowledgeGraphImporter.clean_row row with
      | Ok row' => let '(cleaned, e) := clean_rows rows' in (row' :: cleaned, e)
      | Raise e => ([], Some e)
      end
  end.

Definition plain_table_rows (text : str) : stream (pydict pyval) :=
  let '(rows, e) := KnowledgeGraphImporter.read_rows text in
  let '(cleaned, e') := clean_rows rows in
  (cleaned, match e' with Some x => Some x | None => e end).

(** A payload given by its lines, each ended by a line feed, and the text of
    the plain file that holds it, with or without a byte-order mark. *)
Definition payload_of (lines : list str) : str :=
  concat (map (fun l => l ++ [LF]) lines).

Definition plain_file (with_bom : bool) (payload : str) : str :=
  if with_bom then BOM :: payload else payload.

(** The characters of a line without the end-of-line signal. *)
Fixpoint process_chars (r : reader) (l : str) : result reader :=
  match l with
  | [] => Ok r
  | c :: l' =>
      match parse_process_char r (Some c) with
      | Ok r' => process_chars r' l'
      | Raise e => Raise e
      end
  end.

(** A character inside a line that the wrapper writes as it is and the
    recovery returns as it is: no backslash and no brace; a line feed or a
    carriage return is not inside a line, it ends one. *)
Definition payload_char (c : char) : Prop := c ∉ [BACKSLASH; LBRACE; RBRACE; LF; CR].

(** The record that the reader makes of a line read on its own. *)
Definition line_record (l : str) : option (list str) :=
  match process_line parse_reset l with
  | Ok r => Some (fields r)
  | Raise _ => None
  end.

Definition line_fields (l : str) : list str := default [] (line_record l).

(** The line closes the quoted fields that it opens: at its end the reader
    is not inside a quoted field. *)
Definition closes_quotes (l : str) : bool :=
  match process_chars parse_reset l with
  | Ok r => negb (bool_decide (state r = IN_QUOTED_FIELD))
  | Raise _ => true
  end.

(** A line that the wrapper and the recovery give back as it is: without
    whitespace at its ends, made of characters that pass, and with its
    quoted fields closed.  The empty line is one. *)
Definition wrappable_line (l : str) : Prop :=
  strip l = l /\ Forall payload_char l /\ closes_quotes l = true.

(** A text that does not begin with a byte-order mark. *)
Definition no_bom_head (s : str) : Prop := head s <> Some BOM.

(** How a line of a payload ends: with a line feed, with a carriage return
    and a line feed, with a carriage return, or with nothing. *)
Inductive line_end := end_lf | end_crlf | end_cr | end_none.

Definition end_text (e : line_end) : str :=
  match e with
  | end_lf => [LF]
  | end_crlf => [CR; LF]
  | end_cr => [CR]
  | end_none => []
  end.

(** The text of a payload given by its lines and their ends. *)
Definition payload_text (lines : list (str * line_end)) : str :=
  concat (map (fun le => le.1 ++ end_text le.2) lines).

(** The lines are the lines of the text, each text being cut into lines in
    one way: a line that ends with nothing is the last one and is not empty,
    and after a line that ends with a carriage return no empty line ends
    with a line feed (the two are one line that ends with a carriage return
    and a line feed). *)
Fixpoint ends_well (lines : list (str * line_end)) : Prop :=
  match lines with
  | [] => True
  | (l, e) :: rest =>
      (e = end_none -> l <> [] /\ rest = []) /\
      (e = end_cr -> head rest <> Some ([], end_lf)) /\
      ends_well rest
  end.

(** The end of a line as the wrapper writes it, as it is read from the file
    of the container, and as it stands after the backslashes were turned
    into line feeds. *)
Definition wrapped_end (e : line_end) : str :=
  match e with
  | end_lf => [BACKSLASH; LF]
  | end_crlf => [CR; BACKSLASH; LF]
  | end_cr => [CR]
  | end_none => []
  end.

Definition read_end (e : line_end) : str :=
  match e with
  | end_lf => [BACKSLASH; LF]
  | end_crlf => [LF; BACKSLASH; LF]
  | end_cr => [LF]
  | end_none => []
  end.

Definition spread_end (e : line_end) : str :=
  match e with
  | end_lf => [LF; LF]
  | end_crlf => [LF; LF; LF]
  | end_cr => [LF]
  | end_none => []
  end.

End Vocabulary.
Export Vocabulary.

(** ** The rest of the importers: indexes, verification and the whole run *)

Module Run.

(** [if v]: the truth value of a value. *)
Definition py_truthy (v : pyval) : bool :=
  match v with
  | PStr s => negb (bool_decide (s = []))
  | PInt z => negb (z =? 0)%Z
  | PNone => false
  | PList l => negb (bool_decide (l = []))
  end.

(** [try: body except Exception: handler] *)
Definition try_except {A} (body : M A) (handler : exn -> M A) : M A :=
  fun self =>
    match body self with
    | (Ok a, self') => (Ok a, self')
    | (Raise e, self') => handler e self'
    end.

(** A direct call [self.redis_client.execute_command('GRAPH.QUERY', graph, q)]
    outside any [try]: the failure of the store is raised. *)
Definition execute_command_direct (E : env) (q : str) : M pyval :=
  fun self =>
    let self' := mk_importer (stats self) (sent self ++ [q]) (clock_reads self) in
    match execute_command E (sent self) q with
    | Replies v => (Ok v, self')
    | Fails msg => (Raise (ResponseError msg), self')
    end.

(** The contents of the five files that [run_import] reads, in the order in
    which it reads them.  (That a file cannot be opened is not covered.) *)
Record sources := mk_sources {
  business_segments_file : str;
  task_templates_file : str;
  workflow_templates_file : str;
  task_workflow_relationships_file : str;
  task_dependencies_file : str
}.

End Run.
Export Run.

Module RTFKnowledgeGraphImporterRun.
Import RTFKnowledgeGraphImporter KnowledgeGraphQuery.

Definition indexes : list str :=
  [ u "CREATE INDEX FOR (bs:BUSINESS_SEGMENT) ON (bs.segment_id)";
    u "CREATE INDEX FOR (tt:TASK_TEMPLATE) ON (tt.node_id)";
    u "CREATE INDEX FOR (tt:TASK_TEMPLATE) ON (tt.role)";
    u "CREATE INDEX FOR (tt:TASK_TEMPLATE) ON (tt.segment_id)";
    u "CREATE INDEX FOR (wt:WORKFLOW_TEMPLATE) ON (wt.workflow_id)";
    u "CREATE INDEX FOR (wt:WORKFLOW_TEMPLATE) ON (wt.segment_id)";
    u "CREATE INDEX FOR (wt:WORKFLOW_TEMPLATE) ON (wt.complexity_level)" ].

Definition create_indexes (E : env) : M unit :=
  for_each indexes (fun index_query => execute_cypher E index_query None ;; ret tt).

(** One of the two counting loops of [verify_import]: a query per name, and
    [counts[name] = result[1][0]] when [result and len(result) > 1]. *)
Fixpoint count_by (E : env) (query_of : str -> str) (names : list str)
    (counts : pydict pyval) : M (pydict pyval) :=
  match names with
  | [] => ret counts
  | name :: names' =>
      do result <- execute_cypher E (query_of name) None;
      do counts' <-
        (if py_truthy result then
           do n <- lift (py_len result);
           if (1 <? n)%nat then
             do row <- lift (py_index result 1);
             do count <- lift (py_index row 0);
             ret (dict_set (KStr name) count counts)
           else ret counts
         else ret counts);
      count_by E query_of names' counts'
  end.

Definition node_count_query (node_type : str) : str :=
  u "MATCH (n:" ++ node_type ++ u ") RETURN count(n)".

Definition rel_count_query (rel_type : str) : str :=
  u "MATCH ()-[r:" ++ rel_type ++ u "]-() RETURN count(r)".

Definition node_types : list str :=
  [u "BUSINESS_SEGMENT"; u "TASK_TEMPLATE"; u "WORKFLOW_TEMPLATE"].

Definition rel_types : list str := [u "USED_IN"; u "DEPENDS_ON"].

(** [verify_import]; the two dictionaries that it prints are its value here. *)
Definition verify_import (E : env) : M (pydict pyval * pydict pyval) :=
  do node_counts <- count_by E node_count_query node_types [];
  do rel_counts <- count_by E rel_count_query rel_types [];
  ret (node_counts, rel_counts).

Definition autogen_query : str :=
  u "
        MATCH (tt:TASK_TEMPLATE {role: 'PRODM'})
        MATCH (tt)-[:USED_IN]->(wt:WORKFLOW_TEMPLATE {workflow_id: 'LAUNCH_001'})
        RETURN tt.workflow_name, wt.workflow_name
        ".

Definition test_autogen_queries (E : env) : M unit :=
  do result <- execute_cypher E autogen_query None;
  if py_truthy result then
    do n <- lift (py_len result);
    ret tt
  else ret tt.

Definition run_import (E : env) (files : sources) : M unit :=
  import_business_segments E (business_segments_file files) ;;
  import_task_templates E (task_templates_file files) ;;
  import_workflow_templates E (workflow_templates_file files) ;;
  import_task_workflow_relationships E (task_workflow_relationships_file files) ;;
  import_task_dependencies E (task_dependencies_file files) ;;
  create_indexes E ;;
  verify_import E ;;
  test_autogen_queries E.

End RTFKnowledgeGraphImporterRun.

Module KnowledgeGraphImporterRun.
Import KnowledgeGraphImporter KnowledgeGraphQuery.

Definition indexes : list str :=
  [ u "CREATE INDEX FOR (n:TASK_TEMPLATE) ON (n.node_id)";
    u "CREATE INDEX FOR (n:TASK_TEMPLATE) ON (n.role)";
    u "CREATE INDEX FOR (n:TASK_TEMPLATE) ON (n.segment_id)";
    u "CREATE INDEX FOR (n:WORKFLOW_TEMPLATE) ON (n.workflow_id)";
    u "CREATE INDEX FOR (n:WORKFLOW_TEMPLATE) ON (n.segment_id)";
    u "CREATE INDEX FOR (n:WORKFLOW_TEMPLATE) ON (n.complexity_level)";
    u "CREATE INDEX FOR (n:BUSINESS_SEGMENT) ON (n.segment_id)";
    u "CREATE INDEX FOR ()-[r:USED_IN]-() ON (r.sequence_position)";
    u "CREATE INDEX FOR ()-[r:DEPENDS_ON]-() ON (r.workflow_context)";
    u "CREATE INDEX FOR ()-[r:DEPENDS_ON]-() ON (r.dependency_type)" ].

(** The call is wrapped in a [try] of its own. *)
Definition create_indexes (E : env) : M unit :=
  for_each indexes (fun index_query =>
    try_except (execute_cypher E index_query None ;; ret tt) (fun _ => ret tt)).

Definition node_counts_query : str :=
  u "MATCH (n) RETURN labels(n)[0] as type, count(n) as count".

Definition rel_counts_query : str :=
  u "MATCH ()-[r]->() RETURN type(r) as type, count(r) as count".

Definition test_query : str :=
  u "
        MATCH (t:TASK_TEMPLATE)-[r:USED_IN]->(w:WORKFLOW_TEMPLATE)
        WHERE t.role = 'PRODM' AND w.workflow_id = 'LAUNCH_001'
        RETURN t.node_id, r.sequence_position, t.workflow_name
        ORDER BY r.sequence_position
        ".

(** [for row in counts[1]: print(row[0], row[1])] *)
Fixpoint print_counts (rows : list pyval) : result unit :=
  match rows with
  | [] => Ok tt
  | row :: rows' =>
      and_then (py_index row 0) (fun _ =>
      and_then (py_index row 1) (fun _ => print_counts rows'))
  end.

Definition report_counts (counts : pyval) : result unit :=
  and_then (py_index counts 1) (fun rows =>
  and_then (py_iter rows) print_counts).

Definition verify_import (E : env) : M unit :=
  do node_counts <- execute_command_direct E node_counts_query;
  lift (report_counts node_counts) ;;
  do rel_counts <- execute_command_direct E rel_counts_query;
  lift (report_counts rel_counts) ;;
  do result <- execute_command_direct E test_query;
  do rows <- lift (py_index result 1);
  do n <- lift (py_len rows);
  ret tt.

Definition run_import (E : env) (files : sources) : M unit :=
  import_business_segments E (business_segments_file files) ;;
  import_task_templates E (task_templates_file files) ;;
  import_workflow_templates E (workflow_templates_file files) ;;
  import_task_workflow_relationships E (task_workflow_relationships_file files) ;;
  import_task_dependencies E (task_dependencies_file files) ;;
  create_indexes E ;;
  verify_import E.

End KnowledgeGraphImporterRun.

(** ** The helpers of the query interface *)

Module KnowledgeGraphQueryHelpers.
Import KnowledgeGraphQuery.

(** [d.get(key, default)] *)
Definition dict_get_default (key : hkey) (default : pyval) (d : pydict pyval) : pyval :=
  match dict_get key d with
  | Some v => v
  | None => default
  end.

Definition all_roles_query : str :=
  u "MATCH (tt:TASK_TEMPLATE) RETURN DISTINCT tt.role ORDER BY tt.role".

(** [[r.get('tt.role', 'Unknown') for r in results if r.get('tt.role')]] *)
Definition get_all_roles (execute_command : str -> reply) : list pyval :=
  let results := query execute_command all_roles_query in
  map (dict_get_default (KStr (u "tt.role")) (PStr (u "Unknown")))
      (filter (fun r => py_truthy (dict_get_default (KStr (u "tt.role")) PNone r) = true)
              results).

Definition workflow_details_query (workflow_id : str) : str :=
  u "
        MATCH (wt:WORKFLOW_TEMPLATE {workflow_id: '" ++ workflow_id ++ u "'})
        RETURN wt.workflow_name, wt.description, wt.business_value, 
               wt.total_tasks, wt.involved_roles, wt.complexity_level
        ".

(** [results[0] if results else {}] *)
Definition get_workflow_details (execute_command : str -> reply) (workflow_id : str)
  : pydict pyval :=
  match query execute_command (workflow_details_query workflow_id) with
  | first :: _ => first
  | [] => []
  end.

Definition get_tasks_by_role (execute_command : str -> reply) (role : str)
  : list (pydict pyval) :=
  query execute_command
    (u "
        MATCH (tt:TASK_TEMPLATE {role: '" ++ role ++ u "'})
        RETURN tt.node_id, tt.workflow_name, tt.characteristic, tt.prompt_flexibility
        ORDER BY tt.workflow_name
        ").

Definition get_workflow_tasks (execute_command : str -> reply) (workflow_id : str)
  : list (pydict pyval) :=
  query execute_command
    (u "
        MATCH (tt:TASK_TEMPLATE)-[u:USED_IN]->(wt:WORKFLOW_TEMPLATE {workflow_id: '" ++ workflow_id ++ u "'})
        RETURN tt.role, tt.workflow_name, tt.characteristic, 
               u.sequence_position, u.priority_score
        ORDER BY u.sequence_position, u.priority_score
        ").

Definition get_task_dependencies (execute_command : str -> reply) (task_id : str)
  : list (pydict pyval) :=
  query execute_command
    (u "
        MATCH (t1:TASK_TEMPLATE {node_id: '" ++ task_id ++ u "'})-[d:DEPENDS_ON]->(t2:TASK_TEMPLATE)
        RETURN t2.node_id, t2.role, t2.workflow_name, 
               d.dependency_type, d.workflow_context
        ORDER BY d.priority_score
        ").

Definition find_workflows_by_complexity (execute_command : str -> reply) (complexity : str)
  : list (pydict pyval) :=
  query execute_command
    (u "
        MATCH (wt:WORKFLOW_TEMPLATE {complexity_level: '" ++ complexity ++ u "'})
        RETURN wt.workflow_id, wt.workflow_name, wt.total_tasks, wt.involved_roles
        ORDER BY wt.workflow_name
        ").

Definition get_role_collaboration_map (execute_command : str -> reply)
  : list (pydict pyval) :=
  query execute_command
    (u "
        MATCH (wt:WORKFLOW_TEMPLATE)
        RETURN wt.workflow_name, wt.involved_roles, wt.complexity_level
        ORDER BY wt.complexity_level, wt.workflow_name
        ").

Definition search_tasks_by_keyword (execute_command : str -> reply) (keyword : str)
  : list (pydict pyval) :=
  query execute_command
    (u "
        MATCH (tt:TASK_TEMPLATE)
        WHERE tt.workflow_name CONTAINS '" ++ keyword ++ u "' 
           OR tt.characteristic CONTAINS '" ++ keyword ++ u "'
           OR tt.keywords_phrases CONTAINS '" ++ keyword ++ u "'
        RETURN tt.role, tt.workflow_name, tt.characteristic, tt.keywords_phrases
        ORDER BY tt.role, tt.workflow_name
        ").

End KnowledgeGraphQueryHelpers.

(** ** Vocabulary of the further properties *)

Module Accounting.

(** Every double quote of [s] comes right after a backslash; [after_backslash]
    tells whether the character before [s] is one. *)
Fixpoint guarded (after_backslash : bool) (s : str) : Prop :=
  match s with
  | [] => True
  | c :: s' => (c = DQUOTE -> after_backslash = true) /\ guarded (c =? BACKSLASH) s'
  end.

(** What a table load does to the importer, from [self] to [self']: it
    submits queries [qs] (appended to the trace), the error list grows by
    the messages of those of [qs] on which the store failed, its counter [c]
    grows by the number of [qs], and the other counters stay. *)
Definition accounted (E : env) (message : str -> str -> str) (c : counter)
    (self self' : importer) : Prop :=
  exists qs,
    sent self' = sent self ++ qs /\
    errors (stats self') = errors (stats self) ++ collected E message (sent self) qs /\
    get_counter c (stats self') = (get_counter c (stats self) + length qs)%nat /\
    forall c', c' <> c -> get_counter c' (stats self') = get_counter c' (stats self).

(** What the steps after the loads may do: submit queries and append error
    messages, with every counter unchanged. *)
Definition counters_kept (self self' : importer) : Prop :=
  (exists qs, sent self' = sent self ++ qs) /\
  (exists es, errors (stats self') = errors (stats self) ++ es) /\
  forall c, get_counter c (stats self') = get_counter c (stats self).

(** A store that answers every query, and one that fails on every query. *)
Definition never_fails (E : env) : Prop :=
  forall history q, exists v, execute_command E history q = Replies v.

Definition always_fails (E : env) : Prop :=
  forall history q, exists msg, execute_command E history q = Fails msg.

(** All characters that the reader holds in its fields satisfy [P]. *)
Definition reader_holds (P : char -> Prop) (r : reader) : Prop :=
  Forall (Forall P) (fields r) /\ Forall P (field r).

#[export] Instance counter_eq_dec : EqDecision counter.
Proof. solve_decision. Defined.

(** The five loads of [run_import], in its order: the table and the text of
    its file. *)
Definition rtf_loads (files : sources) : list (table * str) :=
  [ (RTFKnowledgeGraphImporter.business_segments_table, business_segments_file files);
    (RTFKnowledgeGraphImporter.task_templates_table, task_templates_file files);
    (RTFKnowledgeGraphImporter.workflow_templates_table, workflow_templates_file files);
    (RTFKnowledgeGraphImporter.task_workflow_relationships_table,
     task_workflow_relationships_file files);
    (RTFKnowledgeGraphImporter.task_dependencies_table, task_dependencies_file files) ].

Definition plain_loads (files : sources) : list (table * str) :=
  [ (KnowledgeGraphImporter.business_segments_table, business_segments_file files);
    (KnowledgeGraphImporter.task_templates_table, task_templates_file files);
    (KnowledgeGraphImporter.workflow_templates_table, workflow_templates_file files);
    (KnowledgeGraphImporter.task_workflow_relationships_table,
     task_workflow_relationships_file files);
    (KnowledgeGraphImporter.task_dependencies_table, task_dependencies_file files) ].

(** A file whose reading ends without an exception and whose rows the import
    function of its table processes to the end. *)
Definition loads_to_end (rows_of : str -> stream (pydict pyval))
    (ok : table -> pydict pyval -> Prop) (l : table * str) : Prop :=
  (rows_of l.2).2 = None /\ Forall (ok l.1) (rows_of l.2).1.

(** The counter of [t] has grown by [n] and the other counters are as they
    were. *)
Definition grown (t : table) (n : nat) (self self' : importer) : Prop :=
  forall c,
    get_counter c (stats self')
    = (get_counter c (stats self) + if bool_decide (c = counts t) then n else 0)%nat.

(** The number of data rows of the files of [ls]. *)
Definition rows_in (rows_of : str -> stream (pydict pyval)) (ls : list (table * str)) : nat :=
  sum_list_with (fun l => length (rows_of l.2).1) ls.

End Accounting.
Export Accounting.

(** ** Inputs of the examples *)

Module Fixtures.

(** A store that accepts every query, and one that rejects every query. *)
Definition accepting : env :=
  mk_env (fun _ _ => Replies (PList [PList [PStr (u "Nodes created: 1")]]))
         (fun _ => u "2024-01-01T00:00:00").

Definition rejecting : env :=
  mk_env (fun _ _ => Fails (u "connection lost"))
         (fun _ => u "2024-01-01T00:00:00").

(** Three relationship rows; the second has [priority_score] [abc]. *)
Definition relationships_csv : str := u
"source_node_id,target_node_id,relationship_type,sequence_position,priority_score,notification_trigger,visibility_roles
T1,W1,USED_IN,1,5,none,PRODM
T2,W1,USED_IN,2,abc,none,PRODM
T3,W1,USED_IN,3,7,none,PRODM
".

(** The same rows inside a rich-text container. *)
Definition relationships_rtf : str := u
"{\rtf1\ansi\cocoartf2\f0\fs24 \cf0 \strokec2 source_node_id,target_node_id,relationship_type,sequence_position,priority_score,notification_trigger,visibility_roles\
T1,W1,USED_IN,1,5,none,PRODM\
T2,W1,USED_IN,2,abc,none,PRODM\
T3,W1,USED_IN,3,7,none,PRODM}".

(** Two business segments inside a rich-text container. *)
Definition segments_rtf : str := u
"{\rtf1\ansi \strokec2 segment_id,segment_name,description,version,node_type\
SEG1,Product,Product management,1,segment\
SEG2,Sales,Sales operations,1,segment}".

(** The same two business segments as a plain file. *)
Definition segments_csv : str := u
"segment_id,segment_name,description,version,node_type
SEG1,Product,Product management,1,segment
SEG2,Sales,Sales operations,1,segment
".

(** One task dependency, inside a rich-text container and as a plain file. *)
Definition dependencies_rtf : str := u
"{\rtf1\ansi \strokec2 source_node_id,target_node_id,relationship_type,workflow_context,dependency_type,priority_score\
T2,T1,DEPENDS_ON,LAUNCH_001,blocking,3}".

Definition dependencies_csv : str := u
"source_node_id,target_node_id,relationship_type,workflow_context,dependency_type,priority_score
T2,T1,DEPENDS_ON,LAUNCH_001,blocking,3
".

(** The files of a run: two segments, one dependency, and three files that
    hold no rows (a container without payload; an empty file). *)
Definition run_files_rtf : sources :=
  mk_sources segments_rtf (u "{\rtf1\ansi}") (u "{\rtf1\ansi}") (u "{\rtf1\ansi}")
             dependencies_rtf.

Definition run_files_csv : sources :=
  mk_sources segments_csv [] [] [] dependencies_csv.

End Fixtures.

(* ===================================================================== *)
(** * Part II.  Properties                                                *)
(* ===================================================================== *)

(** A closed, decidable statement is settled by evaluation. *)
Ltac by_evaluation := apply (bool_decide_unpack _); vm_compute; exact I.

(** ** Facts about strings *)

Section StringFacts.

Implicit Types (s p old new : list N) (c : N).

Lemma starts_with_app p s : starts_with p (p ++ s) = true.
Proof.
  induction p as [|a p IH]; simpl; [done|].
  by rewrite N.eqb_refl, IH.
Qed.

Lemma starts_with_prefix p s : starts_with p s = true <-> exists r, s = p ++ r.
Proof.
  split.
  - revert s. induction p as [|a p IH]; intros s H; simpl in *.
    + by exists s.
    + destruct s as [|b s]; [done|].
      apply andb_true_iff in H as [Hab H]. apply N.eqb_eq in Hab as ->.
      destruct (IH _ H) as [r ->]. by exists r.
  - intros [r ->]. apply starts_with_app.
Qed.

Lemma starts_with_app_long p s1 s2 :
  (length p <= length s1)%nat -> starts_with p (s1 ++ s2) = starts_with p s1.
Proof.
  revert s1. induction p as [|a p IH]; intros s1 Hlen; [done|].
  destruct s1 as [|b s1]; simpl in *; [lia|].
  rewrite IH by lia. done.
Qed.

Lemma starts_with_nil_r p : starts_with p [] = true -> p = [].
Proof. by destruct p. Qed.

Lemma starts_with_length p s : starts_with p s = true -> (length p <= length s)%nat.
Proof.
  intros [r ->]%starts_with_prefix. rewrite length_app. lia.
Qed.

Lemma starts_with_lookup p s i :
  starts_with p s = true -> (i < length p)%nat -> s !! i = p !! i.
Proof.
  intros [r ->]%starts_with_prefix Hi. by rewrite lookup_app_l.
Qed.

(** An occurrence of [p] cannot begin in a text that lacks its first
    character. *)
Lemma starts_with_head_absent a p c s :
  c <> a -> starts_with (a :: p) (c :: s) = false.
Proof.
  intros Hne. simpl. destruct (a =? c) eqn:E; [|done].
  apply N.eqb_eq in E. congruence.
Qed.

Lemma contains_nil p : p <> [] -> contains p [] = false.
Proof. by destruct p. Qed.

Lemma contains_cons p c s :
  contains p (c :: s) = starts_with p (c :: s) || contains p s.
Proof. done. Qed.

Lemma contains_false_cons p c s :
  contains p (c :: s) = false -> starts_with p (c :: s) = false /\ contains p s = false.
Proof. rewrite contains_cons. apply orb_false_iff. Qed.

Lemma contains_false_drop p s k : contains p s = false -> contains p (drop k s) = false.
Proof.
  revert s. induction k as [|k IH]; intros s H; [by rewrite drop_0|].
  destruct s as [|c s]; [done|]. simpl.
  apply IH. by apply contains_false_cons in H as [_ H].
Qed.

Lemma contains_false_starts p s : contains p s = false -> starts_with p s = false.
Proof.
  destruct s; simpl; intros H; apply orb_false_iff in H; tauto.
Qed.

(** A text without the first character of [p] delays every occurrence. *)
Lemma contains_skip a p s1 s2 :
  a ∉ s1 -> contains (a :: p) (s1 ++ s2) = contains (a :: p) s2.
Proof.
  induction s1 as [|c s1 IH]; intros Hnot; [done|].
  rewrite <- app_comm_cons, contains_cons.
  rewrite starts_with_head_absent, IH; [done| |].
  - intros Hin. apply Hnot. by right.
  - intros ->. apply Hnot. by left.
Qed.

Lemma contains_absent a p s : a ∉ s -> contains (a :: p) s = false.
Proof.
  intros H. rewrite <- (app_nil_r s). rewrite contains_skip by done. done.
Qed.

End StringFacts.

(** ** Facts about [replace] *)

Section ReplaceFacts.

Implicit Types (s old new k : list N) (c a h : N).

Lemma replace_from_skip old new n s :
  replace_from old new n s = replace_from old new 0 (drop n s).
Proof.
  revert n. induction s as [|c s IH]; intros [|n]; simpl; try done.
Qed.

Lemma replace_from_hit_skip old new c s :
  starts_with old (c :: s) = true ->
  replace_from old new 0 (c :: s) = new ++ replace_from old new (length old - 1) s.
Proof. intros H. simpl replace_from. by rewrite H. Qed.

Lemma replace_from_hit old new c s :
  old <> [] -> starts_with old (c :: s) = true ->
  replace_from old new 0 (c :: s)
  = new ++ replace_from old new 0 (drop (length old) (c :: s)).
Proof.
  intros Hne H. simpl replace_from. rewrite H. f_equal.
  rewrite replace_from_skip. f_equal.
  destruct old as [|a o]; [done|]. simpl. by rewrite Nat.sub_0_r.
Qed.

Lemma replace_from_miss old new c s :
  starts_with old (c :: s) = false ->
  replace_from old new 0 (c :: s) = c :: replace_from old new 0 s.
Proof. intros H. simpl replace_from. by rewrite H. Qed.

Lemma replace_from_app_hit old new s :
  old <> [] -> replace_from old new 0 (old ++ s) = new ++ replace_from old new 0 s.
Proof.
  intros Hne. destruct old as [|a o] eqn:E; [done|].
  rewrite <- app_comm_cons, replace_from_hit; [|done|].
  - f_equal. f_equal. rewrite app_comm_cons. by rewrite drop_app_length.
  - rewrite app_comm_cons. apply starts_with_app.
Qed.

Lemma replace_from_cons_hit a old new s :
  replace_from (a :: old) new 0 (a :: old ++ s) = new ++ replace_from (a :: old) new 0 s.
Proof. by apply (replace_from_app_hit (a :: old)). Qed.

(** A stretch of text without the first character of [old] is copied. *)
Lemma replace_from_skip_text a old new s1 s2 :
  a ∉ s1 ->
  replace_from (a :: old) new 0 (s1 ++ s2) = s1 ++ replace_from (a :: old) new 0 s2.
Proof.
  induction s1 as [|c s1 IH]; intros Hnot; [done|].
  rewrite <- !app_comm_cons, replace_from_miss.
  - f_equal. apply IH. intros Hin. apply Hnot. by right.
  - apply starts_with_head_absent. intros ->. apply Hnot. by left.
Qed.

Lemma replace_from_absent old new s :
  contains old s = false -> replace_from old new 0 s = s.
Proof.
  induction s as [|c s IH]; intros H; [done|].
  apply contains_false_cons in H as [H1 H2].
  rewrite replace_from_miss by done. f_equal. by apply IH.
Qed.

Lemma replace_absent old new s :
  contains old s = false -> replace old new s = s.
Proof.
  intros H. destruct old as [|a o].
  - by destruct s.
  - by apply replace_from_absent.
Qed.

Lemma replace_single a new s :
  replace [a] new s = flat_map (fun c => if c =? a then new else [c]) s.
Proof.
  unfold replace. induction s as [|c s IH]; [done|].
  simpl flat_map. destruct (c =? a) eqn:E.
  - apply N.eqb_eq in E as ->. rewrite replace_from_hit; [|done|].
    + simpl. by rewrite drop_0, IH.
    + simpl. by rewrite N.eqb_refl.
  - rewrite replace_from_miss.
    + simpl. by rewrite IH.
    + simpl. rewrite N.eqb_sym, E. done.
Qed.

End ReplaceFacts.

(** ** The query templater of the rich-text importer *)

Section Templater.
Import RTFKnowledgeGraphImporter.

Implicit Types (s k : list N) (ps : list (list N * pyval)).

Lemma insert_by_length_perm x ps : Permutation (insert_by_length x ps) (x :: ps).
Proof.
  induction ps as [|y ps IH]; simpl; [reflexivity|].
  case_match; [|reflexivity].
  rewrite IH. apply perm_swap.
Qed.

Lemma sorted_params_perm ps : Permutation (sorted_params ps) ps.
Proof.
  induction ps as [|x ps IH]; simpl; [reflexivity|].
  rewrite insert_by_length_perm. by constructor.
Qed.

Lemma elem_of_sorted_params kv ps : kv ∈ sorted_params ps <-> kv ∈ ps.
Proof. by rewrite (sorted_params_perm ps). Qed.

Lemma insert_by_length_hd x y ps :
  by_length_desc y x -> HdRel by_length_desc y ps ->
  HdRel by_length_desc y (insert_by_length x ps).
Proof.
  intros Hyx Hhd. destruct ps as [|z ps]; simpl; [by constructor|].
  case_match; constructor; [by inversion Hhd|done].
Qed.

Lemma insert_by_length_sorted x ps :
  Sorted by_length_desc ps -> Sorted by_length_desc (insert_by_length x ps).
Proof.
  induction 1 as [|y ps Hs IH Hhd]; simpl.
  - by repeat constructor.
  - destruct (_ <? _)%nat eqn:E.
    + apply Nat.ltb_lt in E. constructor; [done|].
      apply insert_by_length_hd; [|done]. unfold by_length_desc. lia.
    + apply Nat.ltb_ge in E. constructor; [by constructor|].
      by constructor.
Qed.

Lemma sorted_params_sorted ps : Sorted by_length_desc (sorted_params ps).
Proof.
  induction ps as [|x ps IH]; simpl; [constructor|].
  by apply insert_by_length_sorted.
Qed.

Lemma substitute_unfold s k v :
  substitute s (k, v) = replace_from (DOLLAR :: k) (literal v) 0 s.
Proof. done. Qed.

(** Every literal has a first character. *)
Lemma string_of_uint_first d : exists c r, NilZero.string_of_uint d = String c r.
Proof. destruct d; simpl; eauto. Qed.

Lemma str_of_Z_first z : exists h, first_char (str_of_Z z) = Some h.
Proof.
  unfold str_of_Z. destruct z as [|p|p]; simpl.
  - eauto.
  - destruct (string_of_uint_first (Pos.to_uint p)) as (c & r & ->). simpl. eauto.
  - eauto.
Qed.

Lemma literal_first v : exists h, first_char (literal v) = Some h.
Proof.
  destruct v; simpl; eauto using str_of_Z_first.
Qed.

End Templater.

(** ** Reading a template as text and placeholders *)

Section Reading.
Import RTFKnowledgeGraphImporter.

Implicit Types (s k ext name : list N) (ps qs sp : list (list N * pyval))
  (tpl rest : list piece).

Lemma starts_with_app_cases k a b :
  starts_with k (a ++ b) = true ->
  starts_with k a = true \/
  exists ext, k = a ++ ext /\ ext <> [] /\ starts_with ext b = true.
Proof.
  revert k. induction a as [|x a IH]; intros k H.
  - destruct k as [|y k]; [by left|]. right. by exists (y :: k).
  - destruct k as [|y k]; [by left|]. simpl in H |- *.
    apply andb_true_iff in H as [Hxy H]. apply N.eqb_eq in Hxy as ->.
    rewrite N.eqb_refl. simpl.
    destruct (IH _ H) as [?|(ext & -> & ? & ?)]; [by left|right].
    by exists ext.
Qed.

Lemma dollar_free_spec s : dollar_free s = true -> DOLLAR ∉ s.
Proof.
  unfold dollar_free. intros H Hin. rewrite forallb_forall in H.
  apply list_elem_of_In, H in Hin. by rewrite N.eqb_refl in Hin.
Qed.

Lemma after_spec p s ext : after p s = Some ext <-> s = p ++ ext.
Proof.
  revert s. induction p as [|a p IH]; intros s; simpl.
  - split; [by intros [= ->]|by intros ->].
  - destruct s as [|b s]; [split; [done|discriminate]|].
    destruct (a =? b) eqn:E.
    + apply N.eqb_eq in E as ->. rewrite IH. split; [by intros ->|by intros [= ->]].
    + apply N.eqb_neq in E. split; [done|]. intros [= -> _]. done.
Qed.

(** A stretch of text in which no dollar sign begins the placeholder is
    copied by the replacement. *)
Lemma replace_from_guarded k new s1 s2 :
  no_start k s1 = true ->
  replace_from (DOLLAR :: k) new 0 (s1 ++ s2) = s1 ++ replace_from (DOLLAR :: k) new 0 s2.
Proof.
  induction s1 as [|c s1 IH]; intros H; [done|].
  cbn [no_start] in H. apply andb_true_iff in H as [Hc H].
  rewrite <- !app_comm_cons, replace_from_miss; [by rewrite IH|].
  cbn [starts_with]. destruct (DOLLAR =? c) eqn:E; [|done]. simpl.
  destruct (starts_with k (s1 ++ s2)) eqn:Hk; [|done]. exfalso.
  apply N.eqb_eq in E as <-. rewrite N.eqb_refl in Hc. simpl in Hc.
  apply negb_true_iff, orb_false_iff in Hc as [H1 H2].
  apply starts_with_app_cases in Hk as [Hk|(ext & -> & _ & _)]; [congruence|].
  by rewrite starts_with_app in H2.
Qed.

Lemma contains_guarded k s1 s2 :
  no_start k s1 = true ->
  contains (DOLLAR :: k) (s1 ++ s2) = contains (DOLLAR :: k) s2.
Proof.
  induction s1 as [|c s1 IH]; intros H; [done|].
  cbn [no_start] in H. apply andb_true_iff in H as [Hc H].
  rewrite <- app_comm_cons, contains_cons, IH by done.
  cbn [starts_with]. destruct (DOLLAR =? c) eqn:E; [|done]. simpl.
  destruct (starts_with k (s1 ++ s2)) eqn:Hk; [|done]. exfalso.
  apply N.eqb_eq in E as <-. rewrite N.eqb_refl in Hc. simpl in Hc.
  apply negb_true_iff, orb_false_iff in Hc as [H1 H2].
  apply starts_with_app_cases in Hk as [Hk|(ext & -> & _ & _)]; [congruence|].
  by rewrite starts_with_app in H2.
Qed.

(** Looking up a name. *)
Lemma lookup_param_None name ps : lookup_param name ps = None <-> name ∉ names ps.
Proof.
  induction ps as [|[k v] ps IH]; simpl.
  - split; [intros _; apply not_elem_of_nil|done].
  - destruct (decide (k = name)) as [->|Hne].
    + split; [done|]. intros H. exfalso. apply H. by left.
    + rewrite IH, not_elem_of_cons. split; [intros H; split; [congruence|done]|by intros [_ ?]].
Qed.

Lemma lookup_param_Some name v ps :
  lookup_param name ps = Some v -> (name, v) ∈ ps.
Proof.
  induction ps as [|[k w] ps IH]; simpl; [done|].
  destruct (decide (k = name)) as [->|Hne].
  - intros [= ->]. by left.
  - intros H. right. by apply IH.
Qed.

Lemma elem_of_names k v ps : (k, v) ∈ ps -> k ∈ names ps.
Proof. intros H. apply list_elem_of_fmap. by exists (k, v). Qed.

Lemma lookup_param_elem name v ps :
  NoDup (names ps) -> (name, v) ∈ ps -> lookup_param name ps = Some v.
Proof.
  induction ps as [|[k w] ps IH]; intros Hnd Hin; [by apply elem_of_nil in Hin|].
  apply NoDup_cons in Hnd as [Hk Hnd]. simpl.
  apply elem_of_cons in Hin as [[= -> ->]|Hin].
  - by rewrite decide_True.
  - rewrite decide_False; [by apply IH|].
    intros ->. apply Hk. by apply (elem_of_names _ v).
Qed.

Lemma lookup_param_app name qs l :
  lookup_param name (qs ++ l)
  = match lookup_param name qs with
    | Some v => Some v
    | None => lookup_param name l
    end.
Proof.
  induction qs as [|[k v] qs IH]; simpl; [done|].
  by destruct (decide (k = name)).
Qed.

Lemma names_app qs l : names (qs ++ l) = names qs ++ names l.
Proof. apply map_app. Qed.

Lemma instantiate_perm ps ps' tpl :
  NoDup (names ps) -> Permutation ps' ps -> instantiate ps' tpl = instantiate ps tpl.
Proof.
  intros Hnd Hperm.
  assert (NoDup (names ps')) as Hnd' by (unfold names; by rewrite Hperm).
  assert (forall name, lookup_param name ps' = lookup_param name ps) as Hlook.
  { intros name. destruct (lookup_param name ps) as [v|] eqn:E.
    - apply lookup_param_elem; [done|]. rewrite Hperm. by apply lookup_param_Some.
    - apply lookup_param_None. apply lookup_param_None in E.
      unfold names in *. by rewrite Hperm. }
  induction tpl as [|[s|name] tpl IH]; simpl; [done|by rewrite IH|].
  by rewrite Hlook, IH.
Qed.

(** What the text after a placeholder begins with. *)
Lemma continues_sound ps qs rest : forall ext,
  (forall n w, lookup_param n qs = Some w -> lookup_param n ps = Some w) ->
  starts_with ext (instantiate qs rest) = true ->
  continues ps ext rest = true.
Proof.
  induction rest as [|[s|n] rest IH]; intros ext Hsub H.
  - simpl in *. by destruct ext.
  - cbn [instantiate continues] in *.
    destruct (length ext <=? length s)%nat eqn:Hlen.
    + apply Nat.leb_le in Hlen. by rewrite starts_with_app_long in H.
    + apply Nat.leb_gt in Hlen.
      apply starts_with_prefix in H as [r Hr].
      assert (ext = s ++ drop (length s) ext) as Hext.
      { rewrite <- (take_drop (length s) ext) at 1. f_equal.
        apply (f_equal (take (length s))) in Hr.
        rewrite take_app_length, take_app_le in Hr by lia. done. }
      apply andb_true_iff. split.
      * rewrite Hext. apply starts_with_app.
      * apply IH; [done|]. apply starts_with_prefix. exists r.
        rewrite Hext in Hr at 1. rewrite <- app_assoc in Hr.
        by apply app_inv_head in Hr.
  - cbn [instantiate continues] in *. destruct ext as [|c ext]; [done|].
    destruct (lookup_param n qs) as [w|] eqn:E.
    + rewrite (Hsub _ _ E). destruct (literal_first w) as [h Hh].
      destruct (literal w) as [|h' lw]; [done|]. simpl in H.
      apply andb_true_iff in H as [H _]. rewrite H. apply orb_true_r.
    + simpl in H. apply andb_true_iff in H as [H _]. by rewrite H.
Qed.

(** One turn of the substitution loop: the placeholders of [k] are replaced
    and everything else stays, when the names in [qs] were processed before
    [k] and the names still to come are not longer than [k]. *)
Lemma substitute_step ps qs k v tpl :
  reads_well ps tpl = true ->
  lookup_param k qs = None ->
  k ∈ names ps ->
  (forall n w, lookup_param n qs = Some w ->
     lookup_param n ps = Some w /\ no_start k (literal w) = true) ->
  (forall name, name ∈ names ps -> lookup_param name qs = None ->
     (length name <= length k)%nat) ->
  replace_from (DOLLAR :: k) (literal v) 0 (instantiate qs tpl)
  = instantiate (qs ++ [(k, v)]) tpl.
Proof.
  intros Htpl Hk Hkin Hqs Hraw.
  induction tpl as [|[s|name] tpl IH]; [done| |].
  - cbn [reads_well] in Htpl. apply andb_true_iff in Htpl as [Hs Htpl].
    cbn [instantiate]. rewrite replace_from_skip_text by by apply dollar_free_spec.
    by rewrite IH.
  - cbn [reads_well] in Htpl.
    apply andb_true_iff in Htpl as [Htpl Hrest].
    apply andb_true_iff in Htpl as [Htpl Hunknown].
    apply andb_true_iff in Htpl as [Hname Hcont].
    cbn [instantiate]. rewrite lookup_param_app.
    destruct (lookup_param name qs) as [w|] eqn:E.
    + destruct (Hqs _ _ E) as [_ Hw].
      rewrite replace_from_guarded by done. by rewrite IH.
    + cbn [lookup_param]. destruct (decide (k = name)) as [->|Hne].
      * rewrite replace_from_cons_hit. by rewrite IH.
      * rewrite replace_from_miss.
        -- rewrite replace_from_skip_text by by apply dollar_free_spec.
           by rewrite IH.
        -- cbn [starts_with]. rewrite N.eqb_refl. simpl.
           destruct (starts_with k (name ++ instantiate qs tpl)) eqn:Hst; [|done].
           exfalso.
           apply starts_with_app_cases in Hst as [Hst|(ext & -> & Hext & Hst)].
           ++ apply starts_with_prefix in Hst as [r Hr].
              assert (r <> []) as Hr'.
              { intros ->. rewrite app_nil_r in Hr. congruence. }
              assert (length k < length name)%nat as Hlt.
              { rewrite Hr, length_app. destruct r; [done|]. simpl. lia. }
              apply orb_true_iff in Hunknown as [Hin|Hall].
              ** apply bool_decide_eq_true in Hin.
                 specialize (Hraw _ Hin E). lia.
              ** rewrite forallb_forall in Hall.
                 apply list_elem_of_In, Hall, negb_true_iff in Hkin.
                 rewrite Hr, starts_with_app in Hkin. done.
           ++ rewrite forallb_forall in Hcont.
              apply list_elem_of_In, Hcont in Hkin.
              rewrite (proj2 (after_spec name (name ++ ext) ext) eq_refl) in Hkin.
              destruct ext as [|c ext]; [done|]. apply negb_true_iff in Hkin.
              rewrite (continues_sound ps qs tpl (c :: ext)) in Hkin; [done| |done].
              intros n w Hn. by apply Hqs.
Qed.

Lemma values_pass_later_spec l1 l2 k v k' v' :
  values_pass_later (l1 ++ (k', v') :: l2) = true -> (k, v) ∈ l1 ->
  no_start k' (literal v) = true.
Proof.
  induction l1 as [|kv l1 IH]; intros H Hin; [by apply elem_of_nil in Hin|].
  cbn [app values_pass_later] in H. apply andb_true_iff in H as [Hkv H].
  apply elem_of_cons in Hin as [<-|Hin]; [|by apply IH].
  rewrite forallb_forall in Hkv. apply Hkv, list_elem_of_In.
  rewrite names_app. apply elem_of_app. right. by left.
Qed.

Lemma values_pass_spec ps k v k' :
  values_pass ps = true -> (k, v) ∈ ps -> k' ∈ names ps ->
  no_start k' (literal v) = true.
Proof.
  unfold values_pass. intros H Hin Hk'.
  rewrite forallb_forall in H. apply list_elem_of_In, H in Hin.
  rewrite forallb_forall in Hin. by apply list_elem_of_In, Hin in Hk'.
Qed.

Lemma strongly_sorted_middle {A} (R : A -> A -> Prop) (l1 : list A) x l2 :
  StronglySorted R (l1 ++ x :: l2) ->
  (forall y, y ∈ l1 -> R y x) /\ (forall z, z ∈ l2 -> R x z).
Proof.
  induction l1 as [|a l1 IH]; simpl; intros H; apply StronglySorted_inv in H as [H Hall].
  - split; [by intros y ?%elem_of_nil|].
    intros z Hz. by apply (proj1 (Forall_forall _ _) Hall).
  - destruct (IH H) as [IH1 IH2]. split; [|done].
    intros y [->|Hy]%elem_of_cons; [|by apply IH1].
    apply (proj1 (Forall_forall _ _) Hall). apply elem_of_app. right. by left.
Qed.

(** The loop over a list of items in descending order of name length. *)
Lemma fold_substitute_instantiate ps tpl : forall l qs,
  NoDup (names ps) ->
  Permutation (qs ++ l) ps ->
  StronglySorted by_length_desc (qs ++ l) ->
  reads_well ps tpl = true ->
  values_pass_later (qs ++ l) = true ->
  fold_left substitute l (instantiate qs tpl) = instantiate (qs ++ l) tpl.
Proof.
  induction l as [|[k v] l IH]; intros qs Hnd Hperm Hsort Htpl Hval.
  - by rewrite app_nil_r.
  - cbn [fold_left]. rewrite substitute_unfold.
    assert (NoDup (names (qs ++ (k, v) :: l))) as Hnd'
      by (unfold names; by rewrite Hperm).
    rewrite names_app in Hnd'. cbn [names map fst] in Hnd'.
    apply NoDup_app in Hnd' as (Hnq & Hdisj & Hnl).
    apply NoDup_cons in Hnl as [Hkl Hnl].
    assert (k ∉ names qs) as Hkq.
    { intros Hin. apply (Hdisj _ Hin). by left. }
    assert ((k, v) ∈ ps) as Hkv.
    { rewrite <- Hperm. apply elem_of_app. right. by left. }
    rewrite (substitute_step ps qs k v tpl Htpl).
    + replace (qs ++ (k, v) :: l) with ((qs ++ [(k, v)]) ++ l)
        by by rewrite <- app_assoc.
      apply IH; try done; by rewrite <- app_assoc.
    + by apply lookup_param_None.
    + by apply (elem_of_names _ v).
    + intros n w Hn. apply lookup_param_Some in Hn as Hin.
      assert ((n, w) ∈ ps) as Hps.
      { rewrite <- Hperm. apply elem_of_app. by left. }
      split; [by apply lookup_param_elem|].
      by apply (values_pass_later_spec qs l n w k v Hval).
    + intros name Hname Hnone.
      assert (name ∈ names (qs ++ (k, v) :: l)) as Hin
        by (unfold names in *; by rewrite Hperm).
      rewrite names_app in Hin. apply elem_of_app in Hin as [Hin|Hin].
      { by apply lookup_param_None in Hnone. }
      cbn [names map fst] in Hin. apply elem_of_cons in Hin as [->|Hin]; [done|].
      apply list_elem_of_fmap in Hin as ([name' v'] & -> & Hin).
      by apply (proj2 (strongly_sorted_middle _ _ _ _ Hsort) (name', v')).
Qed.

Lemma app_ne_self short ext : ext <> [] -> short ++ ext <> short.
Proof.
  intros Hne Heq. apply Hne.
  rewrite <- (app_nil_r short) in Heq at 2. by apply app_inv_head in Heq.
Qed.

Lemma by_length_desc_trans : Transitive by_length_desc.
Proof. intros x y z. unfold by_length_desc. lia. Qed.

(** The substitution loop gives the template with every placeholder of the
    mapping replaced by the literal of its value, and the other placeholders
    as they were. *)
Lemma fold_sorted_instantiate ps sp tpl :
  NoDup (names ps) -> Permutation sp ps -> Sorted by_length_desc sp ->
  reads_well ps tpl = true -> values_pass_later sp = true ->
  fold_left substitute sp (template_text tpl) = instantiate ps tpl.
Proof.
  intros Hnd Hperm Hsort Htpl Hval.
  assert (template_text tpl = instantiate [] tpl) as ->.
  { clear. induction tpl as [|[s|name] tpl IH]; simpl; by rewrite ?IH. }
  rewrite (fold_substitute_instantiate ps tpl sp []); try done.
  - by apply instantiate_perm.
  - apply Sorted_StronglySorted; [apply by_length_desc_trans|done].
Qed.

(** What is left in the result. *)
Lemma instantiate_no_placeholder ps tpl k :
  reads_well ps tpl = true -> values_pass ps = true -> k ∈ names ps ->
  contains (DOLLAR :: k) (instantiate ps tpl) = false.
Proof.
  intros Htpl Hval Hk.
  induction tpl as [|[s|name] tpl IH]; [done| |].
  - cbn [reads_well] in Htpl. apply andb_true_iff in Htpl as [Hs Htpl].
    cbn [instantiate]. rewrite contains_skip by by apply dollar_free_spec.
    by apply IH.
  - cbn [reads_well] in Htpl.
    apply andb_true_iff in Htpl as [Htpl Hrest].
    apply andb_true_iff in Htpl as [Htpl Hunknown].
    apply andb_true_iff in Htpl as [Hname Hcont].
    cbn [instantiate]. destruct (lookup_param name ps) as [w|] eqn:E.
    + rewrite contains_guarded; [by apply IH|].
      apply (values_pass_spec ps name w k); [done| |done].
      by apply lookup_param_Some.
    + rewrite contains_cons.
      rewrite contains_skip by by apply dollar_free_spec.
      rewrite IH by done. rewrite orb_false_r.
      cbn [starts_with]. rewrite N.eqb_refl. simpl.
      destruct (starts_with k (name ++ instantiate ps tpl)) eqn:Hst; [|done].
      exfalso. apply lookup_param_None in E.
      apply starts_with_app_cases in Hst as [Hst|(ext & -> & Hext & Hst)].
      * apply orb_true_iff in Hunknown as [Hin|Hall].
        -- by apply bool_decide_eq_true in Hin.
        -- rewrite forallb_forall in Hall.
           apply list_elem_of_In, Hall, negb_true_iff in Hk. congruence.
      * rewrite forallb_forall in Hcont.
        apply list_elem_of_In, Hcont in Hk.
        rewrite (proj2 (after_spec name (name ++ ext) ext) eq_refl) in Hk.
        destruct ext as [|c ext]; [done|]. apply negb_true_iff in Hk.
        rewrite (continues_sound ps ps tpl (c :: ext)) in Hk; done.
Qed.

End Reading.

(** ** A name that is a prefix of another *)

Section PrefixSafety.
Import RTFKnowledgeGraphImporter.

(** C2 (amended): for every mapping, of any number of entries and with each
    name once, in which one name is a strict prefix of another, and for
    every ordering [ps'] of the mapping, the substitution loop runs in
    descending order of name length, the longer name of the pair before the
    shorter, and the rendered query is the template with every placeholder
    of the mapping replaced by the literal of its own value and every other
    placeholder left as it is; the result does not depend on the ordering.
    This is for a template read as plain text and placeholders such that
    the text after a placeholder does not continue its name to a longer name
    of the mapping and no name of the mapping begins the name of a
    placeholder outside the mapping, and for values in which no dollar sign
    begins the placeholder of a name that the loop processes after the name
    of the value. *)
Theorem render_prefix_safe ps ps' tpl short ext v1 v2 :
  NoDup (names ps) ->
  (short, v1) ∈ ps -> (short ++ ext, v2) ∈ ps -> ext <> [] ->
  reads_well ps tpl = true ->
  values_pass_later (sorted_params ps') = true ->
  Permutation ps' ps ->
  Sorted by_length_desc (sorted_params ps') /\
  (exists l1 l2 l3,
     sorted_params ps' = l1 ++ (short ++ ext, v2) :: l2 ++ (short, v1) :: l3) /\
  render (template_text tpl) (Some ps') = instantiate ps tpl.
Proof.
  intros Hnd Hshort Hlong Hext Htpl Hval Hperm.
  assert (Permutation (sorted_params ps') ps) as Hsp
    by by rewrite sorted_params_perm.
  pose proof (sorted_params_sorted ps') as Hsorted.
  split; [done|]. split.
  - assert ((short ++ ext, v2) ∈ sorted_params ps') as Hin by by rewrite Hsp.
    apply list_elem_of_split in Hin as (l1 & r & Hsplit).
    assert ((short, v1) ∈ sorted_params ps') as Hin' by by rewrite Hsp.
    rewrite Hsplit in Hin'.
    apply elem_of_app in Hin' as [Hin'|Hin'].
    + exfalso. apply Sorted_StronglySorted in Hsorted; [|apply by_length_desc_trans].
      rewrite Hsplit in Hsorted.
      apply (proj1 (strongly_sorted_middle _ _ _ _ Hsorted)) in Hin'.
      unfold by_length_desc in Hin'. simpl in Hin'. rewrite length_app in Hin'.
      destruct ext; [done|]. simpl in Hin'. lia.
    + apply elem_of_cons in Hin' as [Heq|Hin'].
      * injection Heq as Heq _. symmetry in Heq. by apply app_ne_self in Heq.
      * apply list_elem_of_split in Hin' as (l2 & l3 & ->). by exists l1, l2, l3.
  - unfold render. by apply fold_sorted_instantiate.
Qed.

End PrefixSafety.

Section PrefixSafetyExamples.
Import RTFKnowledgeGraphImporter.

Lemma render_prefix_safe_witness :
  let ps := [(u "id", PStr (u "A")); (u "id" ++ u "_extra", PInt 5);
             (u "note", PStr (u "Budget of $5M"))] in
  let tpl := [Text (u "MATCH (n {id: "); Hole (u "id"); Text (u ", x: ");
              Hole (u "id" ++ u "_extra"); Text (u ", note: "); Hole (u "note");
              Text (u "}) RETURN "); Hole (u "other")] in
  Sorted by_length_desc (sorted_params (rev ps)) /\
  (exists l1 l2 l3,
     sorted_params (rev ps)
     = l1 ++ (u "id" ++ u "_extra", PInt 5) :: l2 ++ (u "id", PStr (u "A")) :: l3) /\
  render (template_text tpl) (Some (rev ps)) = instantiate ps tpl.
Proof.
  intros ps tpl.
  apply (render_prefix_safe ps (rev ps) tpl (u "id") (u "_extra")).
  - by_evaluation.
  - by left.
  - right. by left.
  - discriminate.
  - by vm_compute.
  - by vm_compute.
  - symmetry. apply Permutation_rev.
Defined.

(** C2, as stated, fails.  With the names [id] and [id_extra] and the
    distinct values [A] and [$id], the placeholder [$id_extra] is not
    replaced by the literal of its own value: the later substitution of
    [$id] rewrites the value just inserted.  This holds for both orderings
    of the mapping.  And a placeholder outside the mapping whose name begins
    with a name of the mapping is matched in part: [$id_extra2] is written
    as the literal of [id_extra] followed by [2]. *)
Lemma render_prefix_counterexample :
  let tpl := [Hole (u "id_extra")] in
  let ps := [(u "id", PStr (u "A")); (u "id_extra", PStr (u "$id"))] in
  render (template_text tpl) (Some ps) <> instantiate ps tpl /\
  render (template_text tpl) (Some (rev ps)) <> instantiate ps tpl /\
  instantiate ps tpl = [DQUOTE] ++ u "$id" ++ [DQUOTE] /\
  render (template_text tpl) (Some ps) = [DQUOTE; DQUOTE] ++ u "A" ++ [DQUOTE; DQUOTE] /\
  render (u "RETURN $id_extra2")
    (Some [(u "id", PStr (u "A")); (u "id_extra", PStr (u "B"))])
  = u "RETURN " ++ [DQUOTE] ++ u "B" ++ [DQUOTE] ++ u "2".
Proof. vm_compute. repeat split; discriminate. Qed.

End PrefixSafetyExamples.

(** ** What is left of the placeholders, and how values are written *)

Section Rendering.
Import RTFKnowledgeGraphImporter.

(** C7 (amended): for a mapping with each name once, a template read as
    plain text and placeholders such that the text after a placeholder does
    not continue its name to a longer name of the mapping and no name of the
    mapping begins the name of a placeholder outside the mapping, and for
    values in which no dollar sign begins the placeholder of a name that the
    loop processes after the name of the value: the rendered query is the
    template with every placeholder of the mapping replaced by the literal
    of its value, and every placeholder outside the mapping left as it is,
    without an error.  When moreover no dollar sign of a value begins the
    placeholder of any name of the mapping, no [$name] of a name of the
    mapping occurs in the rendered query. *)
Theorem render_no_placeholder_left tpl ps :
  NoDup (names ps) ->
  reads_well ps tpl = true ->
  values_pass_later (sorted_params ps) = true ->
  render (template_text tpl) (Some ps) = instantiate ps tpl /\
  (values_pass ps = true ->
   forall k, k ∈ names ps ->
     contains (DOLLAR :: k) (render (template_text tpl) (Some ps)) = false).
Proof.
  intros Hnd Htpl Hval.
  assert (render (template_text tpl) (Some ps) = instantiate ps tpl) as Heq.
  { unfold render. apply fold_sorted_instantiate; try done.
    - apply sorted_params_perm.
    - apply sorted_params_sorted. }
  split; [done|]. intros Hall k Hk. rewrite Heq.
  by apply instantiate_no_placeholder.
Qed.

Lemma render_no_placeholder_left_witness :
  let ps := [(u "id", PStr (u "T1")); (u "total_tasks", PInt 3);
             (u "note", PStr (u "Budget of $5M"))] in
  let tpl := [Text (u "CREATE (n {id: "); Hole (u "id"); Text (u ", total: ");
              Hole (u "total_tasks"); Text (u ", note: "); Hole (u "note");
              Text (u ", other: "); Hole (u "other"); Text (u "})")] in
  render (template_text tpl) (Some ps)
  = u "CREATE (n {id: " ++ [DQUOTE] ++ u "T1" ++ [DQUOTE] ++ u ", total: 3, note: "
      ++ [DQUOTE] ++ u "Budget of $5M" ++ [DQUOTE] ++ u ", other: $other})" /\
  forall k, k ∈ names ps ->
    contains (DOLLAR :: k) (render (template_text tpl) (Some ps)) = false.
Proof.
  intros ps tpl.
  destruct (render_no_placeholder_left tpl ps) as [Heq Hnone];
    [by_evaluation|by vm_compute|by vm_compute|].
  split; [by rewrite Heq|]. by apply Hnone.
Defined.

(** C7, as stated, fails on both counts.  A value that holds the placeholder
    of a longer name is inserted after that name was processed, so [$bb]
    remains in the output although [bb] is in the mapping; and a placeholder
    that is not in the mapping, [$id_extra], is rewritten when a name of the
    mapping, [id], is a prefix of its name.  A value that holds the
    placeholder of a name processed after its own does not stay as it was
    inserted: the [$id] inside the value of [title] is replaced in turn. *)
Lemma render_placeholder_counterexample :
  contains (u "$bb")
    (render (u "RETURN $a")
       (Some [(u "a", PStr (u "$bb")); (u "bb", PStr (u "x"))])) = true /\
  render (u "RETURN $id_extra") (Some [(u "id", PInt 1)]) = u "RETURN 1_extra" /\
  render (u "RETURN $title")
    (Some [(u "title", PStr (u "see $id")); (u "id", PInt 7)])
  = u "RETURN " ++ [DQUOTE] ++ u "see 7" ++ [DQUOTE].
Proof. by vm_compute. Qed.

(** What the escaping of the rich-text importer does achieve. *)
Lemma escape_removes (a : N) (new s : list N) :
  a ∉ new -> a ∉ flat_map (fun c => if c =? a then new else [c]) s.
Proof.
  intros Hnew Hin. apply list_elem_of_In, in_flat_map in Hin as (c & _ & Hc).
  apply list_elem_of_In in Hc. destruct (c =? a) eqn:E; [done|].
  apply list_elem_of_singleton in Hc as ->. by rewrite N.eqb_refl in E.
Qed.

Lemma escape_keeps_absent (a b : N) (new s : list N) :
  a ∉ new -> a ∉ s -> a ∉ flat_map (fun c => if c =? b then new else [c]) s.
Proof.
  intros Hnew Hs Hin. apply list_elem_of_In, in_flat_map in Hin as (c & Hc' & Hc).
  apply list_elem_of_In in Hc, Hc'. destruct (c =? b); [done|].
  by apply list_elem_of_singleton in Hc as ->.
Qed.

Lemma escaped_value_no_line_break value :
  (LF ∉ escaped_value value) /\ (CR ∉ escaped_value value).
Proof.
  unfold escaped_value. rewrite !replace_single. split.
  - apply escape_keeps_absent; [by_evaluation|].
    apply escape_removes. by_evaluation.
  - apply escape_removes. by_evaluation.
Qed.

(** C1, at the failing inputs.  The plain-file importer writes a string value
    between double quotes as it is: the value made of [a], a double quote and
    [b] is sent with its double quote unescaped, so the literal ends after
    [a].  The rich-text importer escapes the double quote, the line feed and
    the carriage return but not the backslash: the value made of one
    backslash is written as a double quote, a backslash and a double quote,
    in which the backslash escapes the closing quote and the literal does
    not end. *)
Theorem string_value_breaks_literal :
  KnowledgeGraphImporter.query_with_params (u "RETURN $name")
    (Some [(u "name", PStr (u "a" ++ [DQUOTE] ++ u "b"))])
  = u "CYPHER name=" ++ [DQUOTE] ++ u "a" ++ [DQUOTE] ++ u "b" ++ [DQUOTE]
      ++ u " RETURN $name" /\
  render (u "RETURN $name") (Some [(u "name", PStr [BACKSLASH])])
  = u "RETURN " ++ [DQUOTE; BACKSLASH; DQUOTE].
Proof. by vm_compute. Qed.

(** C6, at the failing input.  The plain-file importer writes a list value as
    one quoted string of its elements joined by commas.  The rich-text
    importer has no case for lists: the placeholder is replaced by [str] of
    the list, brackets and quoted elements, not by a joined string. *)
Theorem list_value_not_flattened :
  (forall key value query,
     KnowledgeGraphImporter.query_with_params query (Some [(key, PList value)])
     = u "CYPHER " ++ key ++ u "=" ++ [DQUOTE] ++ join (u ",") (map py_str value)
         ++ [DQUOTE] ++ u " " ++ query) /\
  render (u "RETURN $roles")
    (Some [(u "roles", PList [PStr (u "PRODM"); PStr (u "ENG")])])
  = u "RETURN ['PRODM', 'ENG']".
Proof.
  split; [|by vm_compute].
  intros key value query.
  unfold KnowledgeGraphImporter.query_with_params, KnowledgeGraphImporter.format_param.
  cbn [map join fst snd]. by rewrite <- !app_assoc.
Qed.

End Rendering.

(** ** Whitespace stripping and line splitting *)

Section StripFacts.

Implicit Types (s p : list N) (c x : N) (f : N -> bool).

Lemma drop_while_suffix f s : exists p, s = p ++ drop_while f s.
Proof.
  induction s as [|c s [p IH]]; simpl; [by exists []|].
  destruct (f c).
  - exists (c :: p). simpl. by f_equal.
  - by exists [].
Qed.

Lemma drop_while_head f s c : head (drop_while f s) = Some c -> f c = false.
Proof.
  induction s as [|a s IH]; simpl; [done|].
  destruct (f a) eqn:E; [done|]. simpl. by intros [= <-].
Qed.

Lemma drop_while_fix f s :
  (forall c, head s = Some c -> f c = false) -> drop_while f s = s.
Proof.
  destruct s as [|a s]; simpl; [done|]. intros H. by rewrite (H a).
Qed.

Lemma drop_while_idem f s : drop_while f (drop_while f s) = drop_while f s.
Proof. apply drop_while_fix, drop_while_head. Qed.

Lemma drop_while_elem f s x : x ∈ drop_while f s -> x ∈ s.
Proof.
  destruct (drop_while_suffix f s) as [p Hp]. intros Hx.
  rewrite Hp. apply elem_of_app. by right.
Qed.

Lemma elem_of_rev_iff s x : x ∈ rev s <-> x ∈ s.
Proof. rewrite !list_elem_of_In. symmetry. apply in_rev. Qed.

Lemma lstrip_elem s x : x ∈ lstrip s -> x ∈ s.
Proof. apply drop_while_elem. Qed.

Lemma rstrip_elem s x : x ∈ rstrip s -> x ∈ s.
Proof.
  unfold rstrip. rewrite elem_of_rev_iff. intros H%drop_while_elem.
  by apply elem_of_rev_iff.
Qed.

Lemma strip_elem s x : x ∈ strip s -> x ∈ s.
Proof. intros H%rstrip_elem. by apply lstrip_elem. Qed.

(** [rstrip] keeps a prefix. *)
Lemma rstrip_prefix s : exists q, s = rstrip s ++ q.
Proof.
  unfold rstrip. destruct (drop_while_suffix isspace (rev s)) as [p Hp].
  exists (rev p). rewrite <- rev_app_distr, <- Hp. by rewrite rev_involutive.
Qed.

Lemma rstrip_idem s : rstrip (rstrip s) = rstrip s.
Proof. unfold rstrip. by rewrite rev_involutive, drop_while_idem. Qed.

Lemma lstrip_rstrip_fix s : lstrip s = s -> lstrip (rstrip s) = rstrip s.
Proof.
  intros Hfix. apply drop_while_fix. intros c Hc.
  apply (drop_while_head isspace s). fold (lstrip s). rewrite Hfix.
  destruct (rstrip_prefix s) as [q Hq]. rewrite Hq.
  destruct (rstrip s); [done|]. done.
Qed.

Lemma strip_idem s : strip (strip s) = strip s.
Proof.
  unfold strip. rewrite lstrip_rstrip_fix.
  - apply rstrip_idem.
  - apply drop_while_idem.
Qed.

Lemma split_nonempty sep s : split sep s <> [].
Proof.
  destruct s as [|c s]; simpl; [done|].
  destruct (c =? sep); [done|]. by destruct (split sep s).
Qed.

Lemma split_elem sep s p x : p ∈ split sep s -> x ∈ p -> x ∈ s /\ x <> sep.
Proof.
  revert p. induction s as [|c s IH]; intros p Hp Hx; simpl in Hp.
  - apply list_elem_of_singleton in Hp as ->. by apply elem_of_nil in Hx.
  - destruct (c =? sep) eqn:E.
    + apply elem_of_cons in Hp as [->|Hp]; [by apply elem_of_nil in Hx|].
      destruct (IH p Hp Hx). split; [by right|done].
    + apply N.eqb_neq in E.
      destruct (split sep s) as [|q qs] eqn:Hs; [by destruct (split_nonempty sep s)|].
      apply elem_of_cons in Hp as [->|Hp].
      * apply elem_of_cons in Hx as [->|Hx]; [split; [by left|done]|].
        destruct (IH q) as [? ?]; [by left|done|]. split; [by right|done].
      * destruct (IH p) as [? ?]; [by right|done|]. split; [by right|done].
Qed.

End StripFacts.

(** ** Recovery of the payload from a rich-text container *)

Section Recovery.
Import RTFKnowledgeGraphImporter.

Implicit Types (s pre body rest content line : list N) (c : N).

Lemma findall_from_skip n s : findall_from n s = findall_from 0 (drop n s).
Proof.
  revert n. induction s as [|c s IH]; intros [|n]; simpl; try done.
Qed.

Lemma findall_from_miss c s :
  starts_with marker (c :: s) = false ->
  findall_from 0 (c :: s) = findall_from 0 s.
Proof.
  intros H. cbn [findall_from]. unfold match_here. by rewrite H.
Qed.

Lemma findall_from_hit c s group :
  match_here (c :: s) = Some group ->
  findall_from 0 (c :: s)
  = group :: findall_from 0 (drop (length marker + length group) s).
Proof.
  intros H. cbn [findall_from]. rewrite H. f_equal. apply findall_from_skip.
Qed.

Lemma findall_absent s : contains marker s = false -> findall s = [].
Proof.
  unfold findall. induction s as [|c s IH]; intros H; [done|].
  apply contains_false_cons in H as [H1 H2].
  rewrite findall_from_miss by done. by apply IH.
Qed.

Lemma up_to_app stop body rest :
  stop ∉ body -> up_to stop (body ++ stop :: rest) = Some body.
Proof.
  induction body as [|c body IH]; intros Hnot; simpl.
  - by rewrite N.eqb_refl.
  - destruct (c =? stop) eqn:E.
    + apply N.eqb_eq in E as ->. exfalso. apply Hnot. by left.
    + rewrite IH; [done|]. intros Hin. apply Hnot. by right.
Qed.

Lemma match_here_marker c body rest :
  RBRACE ∉ body ->
  match_here (marker ++ c :: body ++ RBRACE :: rest) = Some (c :: body).
Proof.
  intros Hnot. unfold match_here.
  rewrite starts_with_app, drop_app_length. by rewrite up_to_app.
Qed.

(** The marker holds one backslash, its first character: an occurrence
    cannot begin before another one and run into it. *)
Lemma marker_no_overlap pre s :
  pre <> [] -> (length pre < length marker)%nat ->
  starts_with marker (pre ++ marker ++ s) = false.
Proof.
  intros Hne Hlen. destruct (starts_with marker (pre ++ marker ++ s)) eqn:E; [|done].
  exfalso. apply (starts_with_lookup _ _ (length pre)) in E; [|done].
  rewrite lookup_app_r, Nat.sub_diag in E by lia.
  assert (length pre <> 0%nat) as Hpos by by destruct pre.
  change ((marker ++ s) !! 0%nat) with (Some BACKSLASH) in E.
  remember (length pre) as n eqn:Hn. clear Hn Hne.
  do 10 (destruct n as [|n]; [by vm_compute in E|]).
  vm_compute in Hlen. lia.
Qed.

Lemma findall_from_marker c body rest :
  RBRACE ∉ body ->
  findall_from 0 (marker ++ c :: body ++ RBRACE :: rest)
  = (c :: body) :: findall_from 0 rest.
Proof.
  intros Hbody. pose proof (match_here_marker c body rest Hbody) as Hm.
  assert (marker = BACKSLASH :: u "strokec2 ") as Hmk by reflexivity.
  rewrite Hmk in Hm |- *. rewrite <- app_comm_cons in Hm |- *.
  rewrite (findall_from_hit _ _ _ Hm). f_equal. f_equal.
  replace (length marker + length (c :: body))%nat
    with (length (u "strokec2 " ++ c :: body ++ [RBRACE])).
  - replace (u "strokec2 " ++ c :: body ++ RBRACE :: rest)
      with ((u "strokec2 " ++ c :: body ++ [RBRACE]) ++ rest).
    + by rewrite drop_app_length.
    + rewrite <- !app_assoc. f_equal. simpl. f_equal. by rewrite <- app_assoc.
  - rewrite length_app. cbn [length]. rewrite length_app. cbn [length].
    change (length marker) with 10%nat.
    change (length (u "strokec2 ")) with 9%nat. lia.
Qed.

Lemma findall_first pre c body rest :
  contains marker pre = false -> RBRACE ∉ body ->
  findall (pre ++ marker ++ c :: body ++ RBRACE :: rest) = (c :: body) :: findall rest.
Proof.
  intros Hpre Hbody. unfold findall. induction pre as [|a pre IH].
  - by apply findall_from_marker.
  - apply contains_false_cons in Hpre as [H1 H2].
    rewrite <- app_comm_cons, findall_from_miss; [by apply IH|].
    rewrite app_comm_cons.
    destruct (decide (length marker <= length (a :: pre))%nat) as [Hle|Hgt].
    + by rewrite starts_with_app_long.
    + apply marker_no_overlap; [done|lia].
Qed.

Lemma extract_first_run pre c body rest :
  contains marker pre = false -> RBRACE ∉ body ->
  extract_csv_from_rtf (pre ++ marker ++ c :: body ++ RBRACE :: rest)
  = payload_lines (remove_braces (replace [BACKSLASH] [LF] (c :: body))).
Proof.
  intros Hpre Hbody. unfold extract_csv_from_rtf. by rewrite findall_first.
Qed.

(** C8: when the marker does not occur in the text, the recovery returns the
    empty list (it is a total function: nothing is raised); and when a run
    is found after the first marker, the result is made from that run alone:
    [findall] does return the later runs, and they are dropped. *)
Theorem extract_first_run_only :
  (forall content,
     contains marker content = false -> extract_csv_from_rtf content = []) /\
  (forall pre c body rest,
     contains marker pre = false -> RBRACE ∉ body ->
     findall (pre ++ marker ++ c :: body ++ RBRACE :: rest)
     = (c :: body) :: findall rest /\
     extract_csv_from_rtf (pre ++ marker ++ c :: body ++ RBRACE :: rest)
     = payload_lines (remove_braces (replace [BACKSLASH] [LF] (c :: body)))).
Proof.
  split.
  - intros content H. unfold extract_csv_from_rtf. by rewrite findall_absent.
  - intros pre c body rest Hpre Hbody.
    split; [by apply findall_first|].
    unfold extract_csv_from_rtf. by rewrite findall_first.
Qed.

Lemma extract_first_run_only_witness :
  extract_csv_from_rtf (u "{\rtf1\ansi no payload here}") = [] /\
  let content := u "{\rtf1 " ++ marker ++ u "a,b\
1,2\
}" ++ marker ++ u "c,d\
3,4}" in
  findall content = [u "a,b\
1,2\
"; u "c,d\
3,4"] /\
  extract_csv_from_rtf content = [u "a,b"; u "1,2"].
Proof.
  split.
  - apply (proj1 extract_first_run_only). by vm_compute.
  - set (body := u ",b\
1,2\
").
    set (rest := marker ++ u "c,d\
3,4}").
    destruct (proj2 extract_first_run_only (u "{\rtf1 ") 97 body rest) as [H1 H2].
    + by vm_compute.
    + by_evaluation.
    + split.
      * etrans; [exact H1|]. by vm_compute.
      * etrans; [exact H2|]. by vm_compute.
Defined.

(** C9: every line that the recovery returns is non-empty, is its own
    stripped form, and holds no brace and no line feed. *)
Theorem extract_lines_clean content line :
  line ∈ extract_csv_from_rtf content ->
  line <> [] /\ strip line = line /\
  (LBRACE ∉ line) /\ (RBRACE ∉ line) /\ (LF ∉ line).
Proof.
  unfold extract_csv_from_rtf. destruct (findall content) as [|csv_content _].
  { intros H. by apply elem_of_nil in H. }
  unfold payload_lines. intros Hin.
  apply list_elem_of_fmap in Hin as (l & -> & Hl).
  apply list_elem_of_filter in Hl as [Hne Hl].
  assert (forall x, x ∈ strip l ->
            x ∈ remove_braces (replace [BACKSLASH] [LF] csv_content) /\ x <> LF)
    as Hchars.
  { intros x Hx%strip_elem. destruct (split_elem _ _ _ _ Hl Hx) as [Hs ?].
    split; [by apply strip_elem in Hs|done]. }
  split; [done|]. split; [apply strip_idem|].
  repeat split; intros Hx; destruct (Hchars _ Hx) as [Hb Hlf]; try done;
    apply list_elem_of_filter in Hb as [[? ?] _]; done.
Qed.

Lemma extract_lines_clean_witness :
  let line := u "1,2" in
  line <> [] /\ strip line = line /\
  (LBRACE ∉ line) /\ (RBRACE ∉ line) /\ (LF ∉ line).
Proof.
  apply (extract_lines_clean (u "{\rtf1 \strokec2 a,b\
  {1,2} \
}")).
  by_evaluation.
Defined.

End Recovery.

(** ** The read-only query interface *)

Section Query.
Import KnowledgeGraphQuery.

Lemma keys_dict_set {V} (k k' : hkey) (v : V) (d : pydict V) :
  k' ∈ keys (dict_set k v d) <-> k' = k \/ k' ∈ keys d.
Proof.
  unfold keys. induction d as [|[k0 v0] d IH]; simpl.
  - rewrite list_elem_of_singleton, elem_of_nil. tauto.
  - destruct (decide (k0 = k)) as [->|Hne]; simpl.
    + rewrite elem_of_cons. tauto.
    + rewrite !elem_of_cons, IH. tauto.
Qed.

Lemma fill_row_keys hs : forall i row acc d,
  fill_row i hs row acc = Ok d ->
  forall k, k ∈ keys d <->
    k ∈ keys acc \/
    exists j h n, hs !! j = Some h /\ to_key h = Some k /\
                  py_len row = Ok n /\ (i + j < n)%nat.
Proof.
  induction hs as [|header hs IH]; intros i row acc d H k.
  - simpl in H. injection H as <-. split; [by left|].
    intros [?|(j & h & n & Hj & _)]; [done|]. by rewrite lookup_nil in Hj.
  - cbn [fill_row] in H. unfold and_then in H.
    destruct (py_len row) as [n|] eqn:Hlen; [|done].
    destruct (i <? n)%nat eqn:Hi.
    + apply Nat.ltb_lt in Hi.
      destruct (py_index row i) as [v|]; [|done].
      destruct (to_key header) as [k0|] eqn:Hk0; [|done].
      rewrite (IH _ _ _ _ H k), keys_dict_set. split.
      * intros [[->|?]|(j & h & n' & Hj & Hh & Hn & Hlt)].
        -- right. exists 0%nat, header, n. split_and!; [by simpl|done|congruence|lia].
        -- by left.
        -- right. exists (S j), h, n'. split_and!; [by simpl|done|congruence|lia].
      * intros [?|(j & h & n' & Hj & Hh & Hn & Hlt)]; [left; by right|].
        destruct j as [|j].
        -- left. left. simpl in Hj. congruence.
        -- right. exists j, h, n'. split_and!; [by simpl|done|congruence|lia].
    + apply Nat.ltb_ge in Hi.
      rewrite (IH _ _ _ _ H k). split.
      * intros [?|(j & h & n' & Hj & Hh & Hn & Hlt)]; [by left|].
        right. exists (S j), h, n'. split_and!; [by simpl|done|congruence|lia].
      * intros [?|(j & h & n' & Hj & Hh & Hn & Hlt)]; [by left|].
        destruct j as [|j].
        -- assert (n' = n) by congruence. lia.
        -- right. exists j, h, n'. split_and!; [by simpl|done|congruence|lia].
Qed.

Lemma format_rows_formatted headers rows ds :
  format_rows headers rows = Ok ds ->
  Forall2 (row_formatted headers) ds rows.
Proof.
  revert ds. induction rows as [|row rows IH]; intros ds H.
  - simpl in H. injection H as <-. constructor.
  - cbn [format_rows] in H. unfold and_then in H.
    destruct (py_iter headers) as [hs|] eqn:Hhs; [|done].
    destruct (fill_row 0 hs row []) as [d|] eqn:Hd; [|done].
    destruct (format_rows headers rows) as [ds'|]; [|done].
    injection H as <-. constructor; [|by apply IH].
    intros k. rewrite (fill_row_keys _ _ _ _ _ Hd k). split.
    + intros [Hnil|(j & h & n & ?)]; [by apply elem_of_nil in Hnil|].
      by exists hs, j, h, n.
    + intros (hs' & j & h & n & Hhs' & ?). right.
      assert (hs' = hs) as -> by congruence. by exists j, h, n.
Qed.

(** C10: [query] is a function of the store's answer with a list as its
    value, so nothing is raised to the caller.  When the command fails, or
    anything in the body of [try] raises, or the result has fewer than two
    elements, the value is the empty list.  Otherwise, when the body
    completes, there is one dictionary per row of [result[1]], in order, and
    the keys of each are exactly the headers at the positions where its row
    has a value. *)
Theorem query_formats_rows (execute_command : list N -> reply) (cypher_query : list N) :
  let answer := execute_command cypher_query in
  let formatted := query execute_command cypher_query in
  (forall msg, answer = Fails msg -> formatted = []) /\
  (forall e, query_try answer = Raise e -> formatted = []) /\
  (forall result n,
     answer = Replies result -> py_len result = Ok n -> (n < 2)%nat ->
     formatted = []) /\
  (forall result n ds,
     answer = Replies result -> py_len result = Ok n -> (2 <= n)%nat ->
     query_try answer = Ok ds ->
     exists headers rows_value rows,
       py_index result 0 = Ok headers /\
       py_index result 1 = Ok rows_value /\
       py_iter rows_value = Ok rows /\
       formatted = ds /\
       length formatted = length rows /\
       Forall2 (row_formatted headers) formatted rows).
Proof.
  intros answer formatted. subst formatted. unfold query. fold answer.
  split; [|split; [|split]].
  - intros msg ->. done.
  - intros e ->. done.
  - intros result n -> Hlen Hn. cbn [query_try]. rewrite Hlen. unfold and_then.
    apply Nat.ltb_lt in Hn. by rewrite Hn.
  - intros result n ds Hans Hlen Hn Hds. rewrite Hds.
    rewrite Hans in Hds. cbn [query_try] in Hds. rewrite Hlen in Hds.
    unfold and_then in Hds.
    apply Nat.ltb_ge in Hn. rewrite Hn in Hds.
    destruct (py_index result 0) as [headers|] eqn:Hh; [|done].
    destruct (py_index result 1) as [rows_value|] eqn:Hr; [|done].
    destruct (py_iter rows_value) as [rows|] eqn:Hi; [|done].
    exists headers, rows_value, rows.
    pose proof (format_rows_formatted _ _ _ Hds) as HF.
    split_and!; try done. by apply Forall2_length in HF.
Qed.

Lemma query_formats_rows_witness :
  let result :=
    PList [PList [PStr (u "t.node_id"); PStr (u "t.role")];
           PList [PList [PStr (u "T1"); PStr (u "PRODM")]; PList [PStr (u "T2")]];
           PList [PStr (u "Cached execution: 0")]] in
  let formatted := query (fun _ => Replies result) (u "MATCH (t) RETURN t.node_id, t.role") in
  formatted = [[(KStr (u "t.node_id"), PStr (u "T1")); (KStr (u "t.role"), PStr (u "PRODM"))];
               [(KStr (u "t.node_id"), PStr (u "T2"))]] /\
  exists headers rows_value rows,
    py_index result 0 = Ok headers /\
    py_index result 1 = Ok rows_value /\
    py_iter rows_value = Ok rows /\
    formatted = formatted /\
    length formatted = length rows /\
    Forall2 (row_formatted headers) formatted rows.
Proof.
  intros result formatted. split; [by vm_compute|].
  apply (proj2 (proj2 (proj2 (query_formats_rows (fun _ => Replies result)
           (u "MATCH (t) RETURN t.node_id, t.role")))) result 3%nat formatted).
  - done.
  - done.
  - lia.
  - by vm_compute.
Defined.

End Query.

(** ** The loading loops *)

Section Loading.

Variable E : env.

Implicit Types (self : importer) (row : pydict pyval) (t : table) (c : counter).

Lemma get_counter_increment c (s : Stats) :
  get_counter c (increment c s) = S (get_counter c s).
Proof. by destruct c. Qed.

Lemma errors_increment c (s : Stats) : errors (increment c s) = errors s.
Proof. by destruct c. Qed.

Lemma get_counter_append_error c msg (s : Stats) :
  get_counter c (append_error msg s) = get_counter c s.
Proof. by destruct c. Qed.

Lemma for_each_app {A} (l1 l2 : list A) (body : A -> M unit) self :
  for_each (l1 ++ l2) body self
  = match for_each l1 body self with
    | (Ok _, self1) => for_each l2 body self1
    | (Raise e, self1) => (Raise e, self1)
    end.
Proof.
  revert self. induction l1 as [|x l1 IH]; intros self; [done|].
  simpl. unfold bind. destruct (body x self) as [[[]|e] self1]; [|done].
  apply IH.
Qed.

Lemma attempted_all_nil message c self : attempted_all E message c [] self self.
Proof.
  exists []. rewrite !app_nil_r. split_and!; try done; simpl; lia.
Qed.

Lemma attempted_all_cons message c row rows self self1 self2 :
  attempted_all E message c [row] self self1 ->
  attempted_all E message c rows self1 self2 ->
  attempted_all E message c (row :: rows) self self2.
Proof.
  intros (qs1 & Hs1 & Hl1 & He1 & Hc1) (qs2 & Hs2 & Hl2 & He2 & Hc2).
  destruct qs1 as [|q [|? ?]]; try done.
  exists (q :: qs2). split_and!.
  - rewrite Hs2, Hs1. by rewrite <- app_assoc.
  - simpl. by rewrite Hl2.
  - rewrite He2, He1, Hs1. simpl. rewrite app_nil_r. by rewrite <- app_assoc.
  - rewrite Hc2, Hc1. simpl. lia.
Qed.

Lemma for_each_attempts body message c rows :
  Forall (attempts_one E body message c) rows ->
  forall self, exists self',
    for_each rows body self = (Ok tt, self') /\
    attempted_all E message c rows self self'.
Proof.
  induction 1 as [|row rows Hrow _ IH]; intros self.
  - exists self. split; [done|]. apply attempted_all_nil.
  - destruct (Hrow self) as (self1 & Hbody & Hone).
    destruct (IH self1) as (self2 & Hloop & Hall).
    exists self2. split.
    + simpl. unfold bind. by rewrite Hbody.
    + by apply (attempted_all_cons _ _ _ _ _ self1).
Qed.

(** The submission itself: the query is sent, a failure becomes a message,
    and the call returns. *)
Lemma submit_spec (q : list N) (message : list N -> list N) self :
  exists v self',
    submit E q message self = (Ok v, self') /\
    sent self' = sent self ++ [q] /\
    clock_reads self' = clock_reads self /\
    errors (stats self') = errors (stats self) ++ outcome_errors E (sent self) q message /\
    forall c, get_counter c (stats self') = get_counter c (stats self).
Proof.
  unfold submit, outcome_errors.
  destruct (execute_command E (sent self) q) as [v|msg]; eexists _, _;
    (split; [reflexivity|]); simpl; split_and!; try done;
    try (by rewrite app_nil_r); intros c; apply get_counter_append_error.
Qed.

Lemma import_row_rtf_complete t row :
  complete t row ->
  attempts_one E (RTFKnowledgeGraphImporter.import_row E t)
    (fun q => RTFKnowledgeGraphImporter.error_message q) (counts t) row.
Proof.
  intros [[kvs Hkvs] Hprint] self.
  unfold RTFKnowledgeGraphImporter.import_row, build_params, bind, lift, now, ret.
  rewrite Hkvs. unfold RTFKnowledgeGraphImporter.execute_cypher.
  match goal with
  | |- context [submit E ?q ?m ?s] =>
      destruct (submit_spec q m s) as (v & self1 & -> & Hs & _ & He & Hc)
  end.
  unfold modify_stats. rewrite Hprint. eexists. split; [reflexivity|].
  eexists [_]. simpl in *. split_and!.
  - exact Hs.
  - done.
  - rewrite errors_increment, He. by rewrite app_nil_r.
  - rewrite get_counter_increment, Hc. lia.
Qed.

Lemma import_row_plain_complete t row :
  complete_plain t row ->
  attempts_one E (KnowledgeGraphImporter.import_row E t)
    (fun _ => KnowledgeGraphImporter.error_message (template t)) (counts t) row.
Proof.
  intros (row' & Hclean & [kvs Hkvs] & Hprint) self.
  unfold KnowledgeGraphImporter.import_row, build_params, bind, lift, now, ret.
  rewrite Hclean, Hkvs. unfold KnowledgeGraphImporter.execute_cypher.
  match goal with
  | |- context [submit E ?q ?m ?s] =>
      destruct (submit_spec q m s) as (v & self1 & -> & Hs & _ & He & Hc)
  end.
  unfold modify_stats. rewrite Hprint. eexists. split; [reflexivity|].
  eexists [_]. simpl in *. split_and!.
  - exact Hs.
  - done.
  - rewrite errors_increment, He. by rewrite app_nil_r.
  - rewrite get_counter_increment, Hc. lia.
Qed.

End Loading.

(** ** Failed submissions, malformed rows *)

Section ErrorHandling.

Variable E : env.

Lemma for_stream_rows {A} (rows : list A) (body : A -> M unit) self :
  for_stream (rows, None) body self = for_each rows body self.
Proof.
  unfold for_stream, bind, ret. simpl.
  by destruct (for_each rows body self) as [[[]|e] self'].
Qed.


End ErrorHandling.

Section ErrorHandlingExamples.
Import Fixtures.



End ErrorHandlingExamples.

Section MalformedRows.

Variable E : env.

Lemma import_row_rtf_unreadable t row e self :
  read_columns row (columns t) = Raise e ->
  RTFKnowledgeGraphImporter.import_row E t row self = (Raise e, self).
Proof.
  intros H. unfold RTFKnowledgeGraphImporter.import_row, build_params, bind, lift.
  by rewrite H.
Qed.

Lemma import_row_plain_unreadable t row row' e self :
  KnowledgeGraphImporter.clean_row row = Ok row' ->
  read_columns row' (columns t) = Raise e ->
  KnowledgeGraphImporter.import_row E t row self = (Raise e, self).
Proof.
  intros Hc H. unfold KnowledgeGraphImporter.import_row, build_params, bind, lift.
  by rewrite Hc, H.
Qed.

(** A cell that is not numeric makes the reading of an integer column raise
    [ValueError]. *)
Lemma read_column_not_numeric row name s :
  dict_get (KStr (u name)) row = Some (PStr s) ->
  int_of_str s = None ->
  read_column row (name, as_int) = Raise ValueError.
Proof.
  intros Hget Hint. unfold read_column, getitem. simpl. rewrite Hget. simpl.
  by rewrite Hint.
Qed.

(** C3 (amended): in a table load of either importer, a row whose columns
    cannot be read (an integer column that is not numeric raises
    [ValueError] while the parameters are built) ends the loop with that
    exception: the rows before it were submitted and counted, the malformed
    row and the rows after it are not attempted. *)
Theorem malformed_row_stops_table t pre bad post e self :
  (Forall (complete t) pre ->
   read_columns bad (columns t) = Raise e ->
   exists self',
     for_each (pre ++ bad :: post) (RTFKnowledgeGraphImporter.import_row E t) self
     = (Raise e, self') /\
     attempted_all E (fun q => RTFKnowledgeGraphImporter.error_message q)
       (counts t) pre self self') /\
  (Forall (complete_plain t) pre ->
   (exists bad', KnowledgeGraphImporter.clean_row bad = Ok bad' /\
                 read_columns bad' (columns t) = Raise e) ->
   exists self',
     for_each (pre ++ bad :: post) (KnowledgeGraphImporter.import_row E t) self
     = (Raise e, self') /\
     attempted_all E (fun _ => KnowledgeGraphImporter.error_message (template t))
       (counts t) pre self self').
Proof.
  split.
  - intros Hpre Hbad.
    destruct (for_each_attempts E (RTFKnowledgeGraphImporter.import_row E t)
                (fun q => RTFKnowledgeGraphImporter.error_message q) (counts t) pre)
      with (self := self) as (self' & Hloop & Hatt).
    { eapply Forall_impl; [exact Hpre|]. intros row. apply import_row_rtf_complete. }
    exists self'. split; [|done].
    rewrite for_each_app, Hloop. simpl. unfold bind.
    by rewrite (import_row_rtf_unreadable t bad e).
  - intros Hpre (bad' & Hclean & Hbad).
    destruct (for_each_attempts E (KnowledgeGraphImporter.import_row E t)
                (fun _ => KnowledgeGraphImporter.error_message (template t)) (counts t) pre)
      with (self := self) as (self' & Hloop & Hatt).
    { eapply Forall_impl; [exact Hpre|]. intros row. apply import_row_plain_complete. }
    exists self'. split; [|done].
    rewrite for_each_app, Hloop. simpl. unfold bind.
    by rewrite (import_row_plain_unreadable t bad bad' e).
Qed.

End MalformedRows.

Section MalformedRowsExamples.
Import Fixtures.

Lemma malformed_row_stops_table_witness :
  let t := RTFKnowledgeGraphImporter.task_workflow_relationships_table in
  let rows := (DictReader (RTFKnowledgeGraphImporter.extract_csv_from_rtf
                             relationships_rtf)).1 in
  exists self',
    for_each (take 1 rows ++ drop 1 rows)
      (RTFKnowledgeGraphImporter.import_row accepting t) init
    = (Raise ValueError, self') /\
    attempted_all accepting (fun q => RTFKnowledgeGraphImporter.error_message q)
      (counts t) (take 1 rows) init self'.
Proof.
  intros t rows. subst rows. vm_compute DictReader. cbn [fst take drop].
  match goal with
  | |- context [for_each ([?r1] ++ ?r2 :: ?post)] =>
      apply (proj1 (malformed_row_stops_table accepting t [r1] r2 post ValueError init))
  end.
  - repeat (constructor; [split; [eexists; vm_compute; reflexivity | vm_compute; reflexivity]|]).
    constructor.
  - by vm_compute.
Defined.

(** C3, as stated, fails: of three relationship rows of which the second has
    the priority score [abc], only the first is submitted and counted; the
    load ends with [ValueError] and the third row is never attempted.  This
    is so in the plain-file importer and in the rich-text importer. *)
Lemma error_isolation_counterexample :
  (let '(outcome, self') :=
     KnowledgeGraphImporter.import_task_workflow_relationships accepting
       relationships_csv init in
   outcome = Raise ValueError /\
   used_in_relationships (stats self') = 1%nat /\
   length (sent self') = 1%nat /\
   used_in_relationships (stats self') <> 2%nat) /\
  (let '(outcome, self') :=
     RTFKnowledgeGraphImporter.import_task_workflow_relationships accepting
       relationships_rtf init in
   outcome = Raise ValueError /\
   used_in_relationships (stats self') = 1%nat /\
   length (sent self') = 1%nat /\
   used_in_relationships (stats self') <> 2%nat).
Proof. vm_compute. split_and!; done. Qed.

End MalformedRowsExamples.

(** ** The reader on the lines of a payload *)

Section ReaderFacts.

Implicit Types (r : reader) (l : list N) (c : N).

Lemma process_line_chars r l :
  process_line r l
  = match process_chars r l with
    | Ok r' => parse_process_char r' None
    | Raise e => Raise e
    end.
Proof.
  revert r. induction l as [|c l IH]; intros r; simpl; [done|].
  destruct (parse_process_char r (Some c)); [apply IH|done].
Qed.

Lemma process_line_app r l1 l2 :
  process_line r (l1 ++ l2)
  = match process_chars r l1 with
    | Ok r' => process_line r' l2
    | Raise e => Raise e
    end.
Proof.
  revert r. induction l1 as [|c l1 IH]; intros r; simpl; [done|].
  destruct (parse_process_char r (Some c)); [apply IH|done].
Qed.

Lemma payload_char_spec c :
  payload_char c ->
  is_newline c = false /\ c <> BACKSLASH /\ c <> LBRACE /\ c <> RBRACE /\ c <> LF /\ c <> CR.
Proof.
  unfold payload_char, is_newline. intros H.
  assert (c <> BACKSLASH /\ c <> LBRACE /\ c <> RBRACE /\ c <> LF /\ c <> CR)
    as (?&?&?&?&?).
  { split_and!; intros ->; apply H; by_evaluation. }
  split_and!; try done.
  apply orb_false_iff. split; by apply N.eqb_neq.
Qed.

(** After a character that is not a line end the reader is inside a
    record. *)
Lemma char_inside_record r c r' :
  is_newline c = false ->
  parse_process_char r (Some c) = Ok r' ->
  state r' <> START_RECORD /\ state r' <> EAT_CRNL.
Proof.
  intros Hnl. unfold parse_process_char, parse_add_char. rewrite Hnl.
  destruct (state r) eqn:E; repeat case_match; intros [= <-]; simpl;
    rewrite ?E; done.
Qed.

Lemma chars_inside_record l r r' :
  l <> [] -> Forall (fun c => is_newline c = false) l ->
  process_chars r l = Ok r' ->
  state r' <> START_RECORD /\ state r' <> EAT_CRNL.
Proof.
  intros Hne Hl. revert r. induction Hl as [|c l Hc Hl IH]; intros r H; [done|].
  simpl in H. destruct (parse_process_char r (Some c)) as [r1|] eqn:H1; [|done].
  destruct l as [|c' l].
  - simpl in H. injection H as <-. by eapply char_inside_record.
  - by apply (IH ltac:(done) r1).
Qed.

(** The end of a line inside a record, outside a quoted field: whatever
    the line ends with, the record is closed in the same way. *)
Lemma end_of_record r e :
  state r <> START_RECORD -> state r <> EAT_CRNL -> state r <> IN_QUOTED_FIELD ->
  parse_process_char r None = Ok (mk_reader (fields r ++ [field r]) [] START_RECORD) /\
  process_line r (end_text e) = parse_process_char r None.
Proof.
  intros H1 H2 H3. destruct e; cbn [end_text process_line];
    unfold parse_process_char; destruct (state r) eqn:E; done.
Qed.

(** An empty line with a line end gives the empty record. *)
Lemma record_of_empty_line e :
  e <> end_none ->
  process_line parse_reset (end_text e) = Ok (mk_reader [] [] START_RECORD).
Proof. by destruct e. Qed.

(** A line that is not empty and closes its quotes gives one record, which
    is not empty, whatever the line ends with. *)
Lemma record_of_line l e :
  l <> [] -> Forall payload_char l -> closes_quotes l = true ->
  process_line parse_reset (l ++ end_text e) = process_line parse_reset l /\
  forall r', process_line parse_reset l = Ok r' ->
    state r' = START_RECORD /\ fields r' <> [].
Proof.
  intros Hne Hl Hq. rewrite process_line_app, process_line_chars.
  unfold closes_quotes in Hq.
  destruct (process_chars parse_reset l) as [r1|] eqn:H1; [|done].
  apply negb_true_iff, bool_decide_eq_false in Hq.
  destruct (chars_inside_record l parse_reset r1 Hne) as [Hs1 Hs2]; [|done|].
  { eapply Forall_impl; [exact Hl|]. by intros c (? & _)%payload_char_spec. }
  destruct (end_of_record r1 e Hs1 Hs2 Hq) as [Heol Hlf]. split; [done|].
  rewrite Heol. intros r' [= <-]. simpl. split; [done|].
  by destruct (fields r1).
Qed.

End ReaderFacts.

Section ReaderRows.

Implicit Types (r : reader) (l : list N) (ls : list (list N)).

Lemma ends_well_line l e (rest : list (list N * line_end)) :
  ends_well ((l, e) :: rest) -> (l = [] -> e <> end_none) /\ ends_well rest.
Proof. intros (H1 & _ & H3). split; [|done]. intros -> ->. by destruct (H1 eq_refl). Qed.

(** The records of the lines with their ends are the records of the lines
    that are not empty, with an empty record for every empty line; every
    record that is not empty is the record of one of the lines. *)
Lemma reader_rows_payload (lines : list (list N * line_end)) :
  Forall (fun l => Forall payload_char l /\ closes_quotes l = true) (map fst lines) ->
  ends_well lines ->
  exists recs e,
    reader_rows parse_reset (map (fun le => le.1 ++ end_text le.2) lines) = (recs, e) /\
    reader_rows parse_reset (filter (fun l => l <> []) (map fst lines))
    = (filter (fun rec => rec <> []) recs, e) /\
    Forall (fun rec => rec <> [] ->
              exists l, l ∈ map fst lines /\ line_record l = Some rec) recs.
Proof.
  induction lines as [|[l le] lines IH]; intros Hall Hends.
  - exists [], None. by split_and!.
  - cbn [map fst] in Hall. apply Forall_cons in Hall as [[Hl Hq] Hall].
    apply ends_well_line in Hends as [Hblank Hends].
    destruct (IH Hall Hends) as (recs & e & IH1 & IH2 & IH3).
    cbn [map fst snd].
    destruct (decide (l = [])) as [->|Hne].
    + exists ([] :: recs), e. cbn [app reader_rows].
      rewrite record_of_empty_line by by apply Hblank.
      cbn [state fields]. rewrite bool_decide_eq_true_2 by done. rewrite IH1.
      rewrite filter_cons_False by (intros H; by apply H).
      rewrite filter_cons_False by (intros H; by apply H).
      split_and!; [done..|].
      constructor; [done|].
      eapply Forall_impl; [exact IH3|]. intros rec Hrec Hn.
      destruct (Hrec Hn) as (l' & ? & ?). exists l'. split; [by right|done].
    + destruct (record_of_line l le Hne Hl Hq) as [Hlf Hrec].
      cbn [reader_rows]. rewrite Hlf.
      rewrite filter_cons_True by done. cbn [reader_rows].
      destruct (process_line parse_reset l) as [r'|e'] eqn:Hline.
      * destruct (Hrec r' eq_refl) as (Hst & Hf).
        rewrite Hst. rewrite bool_decide_eq_true_2 by done. rewrite IH1, IH2.
        exists (fields r' :: recs), e. rewrite filter_cons_True by done.
        split_and!; [done..|].
        constructor.
        -- intros _. exists l. split; [by left|]. unfold line_record. by rewrite Hline.
        -- eapply Forall_impl; [exact IH3|]. intros rec Hrec' Hn.
           destruct (Hrec' Hn) as (l' & ? & ?). exists l'. split; [by right|done].
      * exists [], (Some e'). by split_and!.
Qed.

End ReaderRows.

(** ** Dictionaries in insertion order *)

Section DictFacts.

Context {V : Type}.
Implicit Types (d acc : pydict V) (k : hkey) (v : V).

Lemma dict_set_fresh k v d : k ∉ keys d -> dict_set k v d = d ++ [(k, v)].
Proof.
  unfold keys. induction d as [|[k0 v0] d IH]; intros Hk; simpl; [done|].
  rewrite decide_False.
  - rewrite IH; [done|]. intros Hin. apply Hk. simpl. by right.
  - intros ->. apply Hk. simpl. by left.
Qed.

Lemma dict_set_NoDup k v d : NoDup (keys d) -> NoDup (keys (dict_set k v d)).
Proof.
  unfold keys. induction d as [|[k0 v0] d IH]; intros Hd; simpl.
  - apply NoDup_singleton.
  - apply NoDup_cons in Hd as [Hk0 Hd].
    destruct (decide (k0 = k)) as [->|Hne]; simpl.
    + by apply NoDup_cons.
    + apply NoDup_cons. split; [|by apply IH].
      intros Hin. apply (keys_dict_set k k0 v d) in Hin as [?|?]; [congruence|done].
Qed.

Lemma fold_dict_set_NoDup {A} (f : A -> hkey) (g : A -> V) (l : list A) d :
  NoDup (keys d) ->
  NoDup (keys (fold_left (fun d x => dict_set (f x) (g x) d) l d)).
Proof.
  revert d. induction l as [|x l IH]; intros d Hd; simpl; [done|].
  apply IH. by apply dict_set_NoDup.
Qed.

Lemma fold_dict_set_keys {A} (f : A -> hkey) (g : A -> V) (l : list A) d k :
  k ∈ keys (fold_left (fun d x => dict_set (f x) (g x) d) l d) ->
  k ∈ keys d \/ exists x, x ∈ l /\ k = f x.
Proof.
  revert d. induction l as [|x l IH]; intros d Hk; simpl in Hk; [by left|].
  apply IH in Hk as [Hk|(y & Hy & ->)].
  - apply keys_dict_set in Hk as [->|Hk]; [|by left].
    right. exists x. split; [by left|done].
  - right. exists y. split; [by right|done].
Qed.

End DictFacts.

(** ** The plain-file side of the round trip *)

Section PlainSide.
Import KnowledgeGraphImporter.

Implicit Types (names rec : list (list N)) (row : pydict pyval).

Lemma clean_name_fix (name : list N) : no_bom_head name -> clean_name name = name.
Proof.
  intros Hname. unfold clean_name, lstrip_chars. apply drop_while_fix.
  intros c Hc. apply bool_decide_eq_false. intros Hin.
  apply list_elem_of_singleton in Hin as ->. by apply Hname.
Qed.

Lemma clean_items_id (d acc : pydict pyval) :
  NoDup (keys acc ++ keys d) ->
  (forall k, k ∈ keys d -> exists name, k = KStr name /\ no_bom_head name) ->
  clean_items d acc = Ok (acc ++ d).
Proof.
  revert acc. induction d as [|[k v] d IH]; intros acc Hnd Hkeys.
  - by rewrite app_nil_r.
  - destruct (Hkeys k) as (name & -> & Hname); [by left|].
    cbn [clean_items]. rewrite clean_name_fix by done.
    apply NoDup_app in Hnd as (Hacc & Hdisj & Hd).
    rewrite dict_set_fresh.
    + rewrite IH.
      * by rewrite <- app_assoc.
      * unfold keys in *. rewrite map_app. simpl. rewrite <- app_assoc. simpl.
        apply NoDup_app. split_and!; [done| |done].
        intros x Hx. by apply Hdisj.
      * intros k' Hk'. apply Hkeys. by right.
    + intros Hin. apply (Hdisj _ Hin). by left.
Qed.

Lemma make_row_no_surplus names rec :
  (length rec <= length names)%nat ->
  make_row names rec
  = fold_left (fun d k => dict_set (KStr k) PNone d) (drop (length rec) names)
      (fold_left (fun d kv => dict_set (KStr kv.1) (PStr kv.2) d) (zip names rec) []).
Proof.
  intros Hlen. unfold make_row.
  destruct (length names <? length rec)%nat eqn:E; [|done].
  apply Nat.ltb_lt in E. lia.
Qed.

Lemma clean_row_make_row names rec :
  Forall no_bom_head names -> (length rec <= length names)%nat ->
  clean_row (make_row names rec) = Ok (make_row names rec).
Proof.
  intros Hnames Hlen. rewrite make_row_no_surplus by done.
  unfold clean_row. rewrite clean_items_id; [done| |].
  - simpl.
    apply (fold_dict_set_NoDup (fun k => KStr k) (fun _ => PNone)).
    apply (fold_dict_set_NoDup (fun kv : list N * list N => KStr kv.1)
                               (fun kv => PStr kv.2)).
    apply NoDup_nil_2.
  - intros k Hk.
    apply (fold_dict_set_keys (fun k => KStr k) (fun _ => PNone)) in Hk
      as [Hk|(name & Hin & ->)].
    + apply (fold_dict_set_keys (fun kv : list N * list N => KStr kv.1)
                                (fun kv => PStr kv.2)) in Hk
        as [Hk|([name val] & Hin & ->)]; [by apply elem_of_nil in Hk|].
      exists name. split; [done|].
      apply elem_of_zip_l in Hin. by apply (proj1 (Forall_forall _ _) Hnames).
    + exists name. split; [done|].
      apply (proj1 (Forall_forall _ _) Hnames).
      by apply (subseteq_drop (length rec) names).
Qed.

Lemma clean_rows_id (rows : list (pydict pyval)) :
  Forall (fun row => clean_row row = Ok row) rows -> clean_rows rows = (rows, None).
Proof.
  induction 1 as [|row rows Hrow _ IH]; simpl; [done|].
  by rewrite Hrow, IH.
Qed.

Lemma map_clean_name_id (names : list (list N)) :
  Forall no_bom_head names -> map clean_name names = names.
Proof.
  induction 1 as [|n ns Hn _ IH]; simpl; [done|].
  by rewrite clean_name_fix, IH.
Qed.

(** Empty records are skipped once. *)
Lemma data_rows_filter names (recs : list (list (list N))) :
  data_rows names (filter (fun rec => rec <> []) recs) = data_rows names recs.
Proof.
  unfold data_rows. f_equal. induction recs as [|rec recs IH]; [done|].
  rewrite !filter_cons. destruct (decide (rec <> [])); [|done].
  rewrite filter_cons_True by done. by rewrite IH.
Qed.

(** Reading the file line by line. *)
Lemma file_lines_from_chars (cur l rest : list N) :
  Forall (fun c => c <> LF /\ c <> CR) l ->
  file_lines_from cur false (l ++ rest) = file_lines_from (cur ++ l) false rest.
Proof.
  intros Hl. revert cur. induction Hl as [|c l [Hlf Hcr] _ IH]; intros cur.
  - by rewrite app_nil_r.
  - simpl. apply N.eqb_neq in Hlf, Hcr. rewrite Hlf, Hcr.
    rewrite IH. by rewrite <- app_assoc.
Qed.

(** After a carriage return, a character that is not a line feed begins
    the next line. *)
Lemma file_lines_after_cr (cur rest : list N) :
  cur <> [] -> head rest <> Some LF ->
  file_lines_from cur true rest = cur :: file_lines_from [] false rest.
Proof.
  intros Hcur Hrest. destruct rest as [|c rest]; simpl.
  - by destruct cur.
  - destruct (c =? LF) eqn:E; [|done].
    apply N.eqb_eq in E as ->. by destruct Hrest.
Qed.

Lemma payload_text_head (lines : list (list N * line_end)) :
  Forall (Forall (fun c => c <> LF /\ c <> CR)) (map fst lines) ->
  ends_well lines -> head lines <> Some ([], end_lf) ->
  head (payload_text lines) <> Some LF.
Proof.
  unfold payload_text. destruct lines as [|[l e] lines]; intros Hall Hends Hhead; [done|].
  cbn [map fst] in Hall. apply Forall_cons in Hall as [Hl _].
  destruct Hends as (Hnone & _ & _). cbn [map concat fst snd].
  destruct l as [|c l].
  - destruct e; cbn [end_text app head]; try done.
    by destruct (Hnone eq_refl).
  - apply Forall_cons in Hl as [[Hc _] _]. simpl. congruence.
Qed.

Lemma file_lines_payload (lines : list (list N * line_end)) :
  Forall (Forall (fun c => c <> LF /\ c <> CR)) (map fst lines) ->
  ends_well lines ->
  file_lines (payload_text lines) = map (fun le => le.1 ++ end_text le.2) lines.
Proof.
  unfold file_lines.
  induction lines as [|[l e] lines IH]; intros Hall Hends; [done|].
  pose proof Hall as Hall'. cbn [map fst] in Hall'.
  apply Forall_cons in Hall' as [Hl Hrest].
  destruct Hends as (Hnone & Hcr & Hends).
  unfold payload_text in *. cbn [map concat fst snd]. rewrite <- app_assoc.
  rewrite file_lines_from_chars by done. cbn [app].
  destruct e; cbn [end_text app].
  - cbn [file_lines_from]. rewrite N.eqb_refl. by rewrite IH.
  - cbn [file_lines_from]. rewrite N.eqb_refl.
    change (CR =? LF) with false. cbv iota. rewrite N.eqb_refl.
    rewrite <- app_assoc. by rewrite IH.
  - cbn [file_lines_from].
    change (CR =? LF) with false. cbv iota. rewrite N.eqb_refl.
    rewrite file_lines_after_cr.
    + by rewrite IH.
    + by destruct l.
    + by apply (payload_text_head lines Hrest Hends), Hcr.
  - destruct (Hnone eq_refl) as [Hne ->]. cbn [map concat app file_lines_from].
    rewrite app_nil_r. by destruct l.
Qed.

Lemma decode_plain_file with_bom (l : list N) e (lines : list (list N * line_end)) :
  l <> [] -> no_bom_head l ->
  decode_utf_8_sig (plain_file with_bom (payload_text ((l, e) :: lines)))
  = payload_text ((l, e) :: lines).
Proof.
  intros Hne Hbom. destruct with_bom; simpl.
  - by rewrite ?N.eqb_refl.
  - destruct l as [|c l]; [done|].
    unfold payload_text. simpl. destruct (c =? BOM) eqn:E; [|done].
    apply N.eqb_eq in E as ->. by destruct Hbom.
Qed.

End PlainSide.

(** ** The rich-text side of the round trip *)

Section Unwrap.
Import RTFKnowledgeGraphImporter.

Implicit Types (l s : list N) (ls : list (list N)) (c z : N).

#[local] Abbreviation wrapped lines :=
  (concat (map (fun le : list N * line_end => le.1 ++ wrapped_end le.2) lines)).
#[local] Abbreviation as_read lines :=
  (concat (map (fun le : list N * line_end => le.1 ++ read_end le.2) lines)).
#[local] Abbreviation spread lines :=
  (concat (map (fun le : list N * line_end => le.1 ++ spread_end le.2) lines)).

(** The lines of a text as [payload_lines] keeps them. *)
#[local] Abbreviation kept lines :=
  (map strip (filter (fun line => strip line <> []) lines)).

Lemma payload_line_chars l :
  Forall payload_char l ->
  (BACKSLASH ∉ l) /\ (LBRACE ∉ l) /\ (RBRACE ∉ l) /\ (LF ∉ l) /\
  Forall (fun c => c <> LF /\ c <> CR) l.
Proof.
  intros Hl. split_and!;
    try (intros Hin; apply (proj1 (Forall_forall _ _) Hl) in Hin;
         apply Hin; by_evaluation).
  eapply Forall_impl; [exact Hl|]. intros c Hc.
  split; intros ->; apply Hc; by_evaluation.
Qed.

Lemma rtf_escape_line l : Forall payload_char l -> rtf_escape l = l.
Proof.
  induction 1 as [|c l Hc _ IH]; [done|].
  apply payload_char_spec in Hc as (_ & Hb & Hl & Hr & Hlf & _).
  unfold rtf_escape in *. simpl. rewrite IH.
  apply N.eqb_neq in Hb, Hl, Hr, Hlf. by rewrite Hb, Hl, Hr, Hlf.
Qed.

Lemma rtf_escape_end e : rtf_escape (end_text e) = wrapped_end e.
Proof. by destruct e. Qed.

Lemma rtf_escape_payload (lines : list (list N * line_end)) :
  Forall (Forall payload_char) (map fst lines) ->
  rtf_escape (payload_text lines) = wrapped lines.
Proof.
  unfold payload_text. induction lines as [|[l e] lines IH]; intros Hall; [done|].
  cbn [map fst] in Hall. apply Forall_cons in Hall as [Hl Hall].
  cbn [map concat fst snd]. unfold rtf_escape in *. rewrite !flat_map_app, IH by done.
  fold (rtf_escape l). fold (rtf_escape (end_text e)).
  by rewrite rtf_escape_line, rtf_escape_end.
Qed.

Lemma unescape_line l :
  BACKSLASH ∉ l ->
  flat_map (fun c => if c =? BACKSLASH then [LF] else [c]) l = l.
Proof.
  induction l as [|c l IH]; intros Hl; [done|]. simpl.
  rewrite IH by (intros ?; apply Hl; by right).
  destruct (c =? BACKSLASH) eqn:E; [|done].
  apply N.eqb_eq in E as ->. exfalso. apply Hl. by left.
Qed.

(** Reading the file of the container. *)
Lemma read_text_from_head after_cr s :
  head s <> Some LF -> read_text_from after_cr s = read_text_from false s.
Proof.
  destruct s as [|c s]; [done|]. intros Hc. simpl.
  destruct (c =? CR); [done|]. destruct (c =? LF) eqn:E; [|done].
  apply N.eqb_eq in E as ->. by destruct Hc.
Qed.

Lemma read_text_from_app after_cr s1 s2 :
  head s2 <> Some LF ->
  read_text_from after_cr (s1 ++ s2)
  = read_text_from after_cr s1 ++ read_text_from false s2.
Proof.
  intros H2. revert after_cr. induction s1 as [|c s1 IH]; intros after_cr.
  - by apply read_text_from_head.
  - simpl. rewrite !IH. by repeat case_match.
Qed.

Lemma read_text_from_chars l s :
  Forall (fun c => c <> LF /\ c <> CR) l ->
  read_text_from false (l ++ s) = l ++ read_text_from false s.
Proof.
  induction 1 as [|c l [Hlf Hcr] _ IH]; [done|].
  simpl. apply N.eqb_neq in Hlf, Hcr. by rewrite Hlf, Hcr, IH.
Qed.

Lemma starts_with_read_text p s :
  Forall (fun c => c <> LF /\ c <> CR) p ->
  starts_with p (read_text_from false s) = starts_with p s.
Proof.
  intros Hp. revert s. induction Hp as [|a p [Hlf Hcr] _ IH]; intros s; [done|].
  destruct s as [|c s]; [done|]. simpl.
  destruct (c =? CR) eqn:E1; [|destruct (c =? LF) eqn:E2].
  - apply N.eqb_eq in E1 as ->. simpl.
    apply N.eqb_neq in Hlf, Hcr. by rewrite Hlf, Hcr.
  - apply N.eqb_eq in E2 as ->. simpl. by rewrite IH.
  - simpl. by rewrite IH.
Qed.

(** The marker is in the text as read only if it is in the text of the
    file. *)
Lemma read_text_no_marker after_cr s :
  contains marker s = false -> contains marker (read_text_from after_cr s) = false.
Proof.
  assert (Forall (fun c => c <> LF /\ c <> CR) marker) as Hm.
  { apply Forall_forall. intros c Hc. split; intros ->; revert Hc; by_evaluation. }
  assert (forall s, starts_with marker (LF :: s) = false) as Hlf by done.
  revert after_cr. induction s as [|c s IH]; intros after_cr Hs; [done|].
  apply contains_false_cons in Hs as [Hhere Hs]. simpl.
  destruct (c =? CR) eqn:E1; [|destruct (c =? LF) eqn:E2].
  - rewrite contains_cons, Hlf. by apply IH.
  - destruct after_cr; [by apply IH|]. rewrite contains_cons, Hlf. by apply IH.
  - rewrite contains_cons, IH by done. rewrite orb_false_r.
    pose proof (starts_with_read_text marker (c :: s) Hm) as Hst.
    cbn [read_text_from] in Hst. rewrite E1, E2 in Hst. by rewrite Hst.
Qed.

Lemma wrapped_head (lines : list (list N * line_end)) s :
  Forall (Forall payload_char) (map fst lines) ->
  head s <> Some LF -> head (wrapped lines ++ s) <> Some LF.
Proof.
  induction lines as [|[l e] lines IH]; intros Hall Hs; [done|].
  cbn [map fst] in Hall. apply Forall_cons in Hall as [Hl Hall].
  cbn [map concat fst snd]. destruct l as [|c l].
  - destruct e; try done. by apply IH.
  - apply Forall_cons in Hl as [Hc _].
    apply payload_char_spec in Hc as (_ & _ & _ & _ & Hlf & _). simpl. congruence.
Qed.

Lemma read_wrapped (lines : list (list N * line_end)) s :
  Forall (Forall payload_char) (map fst lines) ->
  head s <> Some LF ->
  read_text_from false (wrapped lines ++ s) = as_read lines ++ read_text_from false s.
Proof.
  intros Hall Hs. induction lines as [|[l e] lines IH]; [done|].
  pose proof (wrapped_head lines s) as Hhead.
  cbn [map fst] in Hall. apply Forall_cons in Hall as [Hl Hall].
  specialize (IH Hall). specialize (Hhead Hall Hs).
  cbn [map concat fst snd]. rewrite <- !app_assoc.
  rewrite read_text_from_chars by by apply payload_line_chars.
  f_equal. destruct e; cbn [wrapped_end read_end app].
  - simpl. by rewrite IH.
  - simpl. by rewrite IH.
  - simpl. by rewrite read_text_from_head, IH.
  - done.
Qed.

Lemma unescape_payload (lines : list (list N * line_end)) :
  Forall (Forall payload_char) (map fst lines) ->
  replace [BACKSLASH] [LF] (as_read lines) = spread lines.
Proof.
  rewrite replace_single. induction lines as [|[l e] lines IH]; intros Hall; [done|].
  cbn [map fst] in Hall. apply Forall_cons in Hall as [Hl Hall].
  cbn [map concat fst snd]. rewrite !flat_map_app, IH by done.
  rewrite unescape_line by by apply payload_line_chars. by destruct e.
Qed.

Lemma remove_braces_line l : Forall payload_char l -> remove_braces l = l.
Proof.
  unfold remove_braces. induction 1 as [|c l Hc _ IH]; [done|].
  rewrite filter_cons_True, IH; [done|].
  by apply payload_char_spec in Hc as (_ & _ & ? & ? & _).
Qed.

Lemma remove_braces_spread (lines : list (list N * line_end)) :
  Forall (Forall payload_char) (map fst lines) ->
  remove_braces (spread lines) = spread lines.
Proof.
  unfold remove_braces. induction lines as [|[l e] lines IH]; intros Hall; [done|].
  cbn [map fst] in Hall. apply Forall_cons in Hall as [Hl Hall].
  cbn [map concat fst snd]. rewrite !filter_app. fold (remove_braces l).
  rewrite remove_braces_line by done. rewrite IH by done.
  by destruct e.
Qed.

Lemma as_read_no_brace (lines : list (list N * line_end)) :
  Forall (Forall payload_char) (map fst lines) -> RBRACE ∉ as_read lines.
Proof.
  induction lines as [|[l e] lines IH]; intros Hall.
  - apply not_elem_of_nil.
  - cbn [map fst] in Hall. apply Forall_cons in Hall as [Hl Hall].
    cbn [map concat fst snd]. rewrite !elem_of_app. intros [[Hin|Hin]|Hin].
    + by apply (payload_line_chars l Hl) in Hin.
    + revert Hin. destruct e; by_evaluation.
    + by apply IH.
Qed.

(** Whitespace at the ends of a text, and at the ends of its lines. *)
Lemma rstrip_space_last s z : isspace z = true -> rstrip (s ++ [z]) = rstrip s.
Proof. intros Hz. unfold rstrip. rewrite rev_unit. simpl. by rewrite Hz. Qed.

Lemma rstrip_nonspace_last s z : isspace z = false -> rstrip (s ++ [z]) = s ++ [z].
Proof.
  intros Hz. unfold rstrip. rewrite rev_unit. simpl. rewrite Hz.
  simpl. by rewrite rev_involutive.
Qed.

Lemma lstrip_snoc_space s z :
  isspace z = true ->
  lstrip (s ++ [z]) = match lstrip s with [] => [] | _ :: _ => lstrip s ++ [z] end.
Proof.
  intros Hz. unfold lstrip. induction s as [|c s IH]; simpl; [by rewrite Hz|].
  by destruct (isspace c).
Qed.

Lemma strip_snoc_space s z : isspace z = true -> strip (s ++ [z]) = strip s.
Proof.
  intros Hz. unfold strip. rewrite lstrip_snoc_space by done.
  destruct (lstrip s) as [|c t]; [done|].
  by rewrite rstrip_space_last.
Qed.

Lemma strip_cons_space c s : isspace c = true -> strip (c :: s) = strip s.
Proof. intros Hc. unfold strip, lstrip. simpl. by rewrite Hc. Qed.

Lemma kept_app (a b : list (list N)) : kept (a ++ b) = kept a ++ kept b.
Proof. by rewrite filter_app, map_app. Qed.

Lemma kept_blank (lines : list (list N)) : kept ([] :: lines) = kept lines.
Proof. by rewrite filter_cons_False by (intros H; by apply H). Qed.

Lemma kept_head_space c p (lines : list (list N)) :
  isspace c = true -> kept ((c :: p) :: lines) = kept (p :: lines).
Proof.
  intros Hc. rewrite !filter_cons, strip_cons_space by done.
  destruct (decide (strip p <> [])); cbn [map]; [|done].
  by rewrite strip_cons_space.
Qed.

Lemma split_snoc s z :
  exists init last,
    split LF s = init ++ [last] /\
    split LF (s ++ [z])
    = if z =? LF then init ++ [last; []] else init ++ [last ++ [z]].
Proof.
  induction s as [|c s (init & last & Hs & Hz)].
  - exists [], []. split; [done|]. simpl. by destruct (z =? LF).
  - cbn [app split]. rewrite Hs, Hz. destruct (c =? LF).
    + exists ([] :: init), last. split; [done|]. by destruct (z =? LF).
    + destruct init as [|p init].
      * exists [], (c :: last). split; [done|]. by destruct (z =? LF).
      * exists ((c :: p) :: init), last. split; [done|]. by destruct (z =? LF).
Qed.

Lemma kept_split_cons_space c s :
  isspace c = true -> kept (split LF (c :: s)) = kept (split LF s).
Proof.
  intros Hc. cbn [split]. destruct (c =? LF).
  - apply kept_blank.
  - destruct (split LF s) as [|p ps] eqn:E; [by apply split_nonempty in E|].
    by apply kept_head_space.
Qed.

Lemma kept_split_snoc_space s z :
  isspace z = true -> kept (split LF (s ++ [z])) = kept (split LF s).
Proof.
  intros Hz. destruct (split_snoc s z) as (init & last & -> & ->).
  destruct (z =? LF).
  - rewrite !kept_app. by f_equal.
  - rewrite !kept_app. f_equal.
    rewrite !filter_cons, strip_snoc_space by done.
    destruct (decide (strip last <> [])); cbn [map]; [|done].
    by rewrite strip_snoc_space.
Qed.

Lemma kept_split_lstrip s : kept (split LF (lstrip s)) = kept (split LF s).
Proof.
  unfold lstrip. induction s as [|c s IH]; [done|]. simpl drop_while.
  destruct (isspace c) eqn:Hc; [|done].
  by rewrite IH, kept_split_cons_space.
Qed.

Lemma kept_split_rstrip s : kept (split LF (rstrip s)) = kept (split LF s).
Proof.
  induction s as [|z s IH] using rev_ind; [done|].
  destruct (isspace z) eqn:Hz.
  - by rewrite rstrip_space_last, kept_split_snoc_space.
  - by rewrite rstrip_nonspace_last.
Qed.

(** Stripping the whole text first changes nothing in the lines kept. *)
Lemma payload_lines_unstripped s : payload_lines s = kept (split LF s).
Proof.
  unfold payload_lines, strip. by rewrite kept_split_rstrip, kept_split_lstrip.
Qed.

Lemma split_line l s : LF ∉ l -> split LF (l ++ LF :: s) = l :: split LF s.
Proof.
  induction l as [|c l IH]; intros Hl; simpl; [done|].
  destruct (c =? LF) eqn:E.
  - apply N.eqb_eq in E as ->. exfalso. apply Hl. by left.
  - rewrite IH; [done|]. intros ?. apply Hl. by right.
Qed.

Lemma split_last l : LF ∉ l -> split LF l = [l].
Proof.
  induction l as [|c l IH]; intros Hl; simpl; [done|].
  destruct (c =? LF) eqn:E.
  - apply N.eqb_eq in E as ->. exfalso. apply Hl. by left.
  - rewrite IH; [done|]. intros ?. apply Hl. by right.
Qed.

Lemma kept_line l (lines : list (list N)) :
  strip l = l -> kept (l :: lines) = (if decide (l <> []) then [l] else []) ++ kept lines.
Proof.
  intros Hstrip. rewrite filter_cons, Hstrip.
  destruct (decide (l <> [])); cbn [map app]; by rewrite ?Hstrip.
Qed.

Lemma payload_lines_spread (lines : list (list N * line_end)) :
  Forall (fun l => strip l = l /\ Forall payload_char l) (map fst lines) ->
  ends_well lines ->
  payload_lines (spread lines) = filter (fun l => l <> []) (map fst lines).
Proof.
  rewrite payload_lines_unstripped.
  induction lines as [|[l e] lines IH]; intros Hall Hends; [done|].
  cbn [map fst] in Hall. apply Forall_cons in Hall as [[Hstrip Hl] Hall].
  destruct Hends as (Hnone & _ & Hends).
  destruct (payload_line_chars l Hl) as (_ & _ & _ & Hlf & _).
  cbn [map concat fst snd]. rewrite filter_cons.
  destruct e; cbn [spread_end].
  - rewrite <- app_assoc. cbn [app]. rewrite split_line by done.
    cbn [split]. rewrite N.eqb_refl.
    rewrite kept_line, kept_blank, IH by done. by destruct (decide (l <> [])).
  - rewrite <- app_assoc. cbn [app]. rewrite split_line by done.
    cbn [split]. rewrite N.eqb_refl.
    rewrite kept_line, !kept_blank, IH by done. by destruct (decide (l <> [])).
  - rewrite <- app_assoc. cbn [app]. rewrite split_line by done.
    rewrite kept_line, IH by done. by destruct (decide (l <> [])).
  - destruct (Hnone eq_refl) as [_ ->]. cbn [map concat filter]. rewrite !app_nil_r.
    rewrite split_last by done.
    rewrite kept_line by done. by destruct (decide (l <> [])).
Qed.

(** The recovery gives back the lines of the payload that are not empty. *)
Lemma extract_wrapped prologue epilogue l e (lines : list (list N * line_end)) :
  contains marker prologue = false ->
  l <> [] ->
  Forall (fun l => strip l = l /\ Forall payload_char l) (l :: map fst lines) ->
  ends_well ((l, e) :: lines) ->
  extract_csv_from_rtf
    (read_text (rtf_wrap prologue (payload_text ((l, e) :: lines)) epilogue))
  = filter (fun l => l <> []) (l :: map fst lines).
Proof.
  intros Hpro Hne Hall Hends.
  assert (Forall (Forall payload_char) (map fst ((l, e) :: lines))) as Hplain.
  { eapply Forall_impl; [exact Hall|]. by intros ? (_ & ?). }
  assert (Forall (fun c => c <> LF /\ c <> CR) marker) as Hm.
  { apply Forall_forall. intros c Hc. split; intros ->; revert Hc; by_evaluation. }
  unfold rtf_wrap, read_text. rewrite rtf_escape_payload by done.
  rewrite read_text_from_app by done.
  rewrite read_text_from_chars by done.
  rewrite app_assoc, read_wrapped, <- app_assoc by done.
  pose proof (as_read_no_brace _ Hplain) as Hno.
  remember (as_read ((l, e) :: lines)) as escaped eqn:Hesc.
  assert (exists c body, escaped = c :: body) as (c & body & Hbody).
  { rewrite Hesc. destruct l as [|c l']; [done|]. simpl. eauto. }
  assert (RBRACE ∉ body) as Hbrace.
  { intros Hin. apply Hno. rewrite Hbody. by right. }
  rewrite Hbody. cbn [app read_text_from].
  change (RBRACE =? CR) with false. change (RBRACE =? LF) with false. cbv iota.
  rewrite (extract_first_run _ c body _ (read_text_no_marker false _ Hpro) Hbrace).
  rewrite <- Hbody, Hesc.
  rewrite unescape_payload, remove_braces_spread by done.
  by apply (payload_lines_spread ((l, e) :: lines)).
Qed.

End Unwrap.

(** ** Round trip through the rich-text container *)

Section RoundTrip.
Import RTFKnowledgeGraphImporter KnowledgeGraphImporter.

(** C4 (amended): for a payload whose lines (ended by a line feed, by a
    carriage return and a line feed, or by a carriage return; the last line
    may end with nothing) have no whitespace at their ends, hold no
    backslash and no brace, and close the quoted fields that they open,
    whose header line is not empty and neither begins with a byte-order mark
    nor has a field name that does, and whose data lines have no more fields
    than the header line: wrapping the payload in the rich-text container,
    after a prologue that does not hold the marker, and recovering it from
    the file of the container gives the loop of the rich-text importer
    exactly the sequence of rows, and the exception at its end if there is
    one, that the loop of the plain-file importer gets from the file of the
    payload itself, with or without a byte-order mark at its head.  Fields
    may be quoted, with commas and doubled quotes inside, and data lines may
    be empty. *)
Theorem rich_text_round_trip prologue epilogue header header_end data with_bom :
  contains marker prologue = false ->
  header <> [] ->
  no_bom_head header ->
  ends_well ((header, header_end) :: data) ->
  Forall wrappable_line (header :: map fst data) ->
  Forall no_bom_head (line_fields header) ->
  Forall (fun l => (length (line_fields l) <= length (line_fields header))%nat)
         (map fst data) ->
  rtf_file_rows (rtf_wrap prologue (payload_text ((header, header_end) :: data)) epilogue)
  = plain_table_rows (plain_file with_bom (payload_text ((header, header_end) :: data))).
Proof.
  intros Hpro Hne Hbom Hends Hall Hnames Hfields.
  apply Forall_cons in Hall as Hsplit. destruct Hsplit as [(Hstrip & Hchars & Hq) Hdata].
  unfold rtf_file_rows, rtf_table_rows. rewrite extract_wrapped; [|done..| |done].
  2:{ eapply Forall_impl; [exact Hall|]. by intros l (? & ? & _). }
  rewrite filter_cons_True by done.
  unfold plain_table_rows, read_rows. rewrite decode_plain_file by done.
  rewrite file_lines_payload; [|cbn [map fst]|done].
  2:{ eapply Forall_impl; [exact Hall|]. intros l (_ & Hl & _).
      by apply payload_line_chars. }
  destruct (record_of_line header header_end Hne Hchars Hq) as [Hlf Hrec].
  unfold DictReader, reader_iter. cbn [map reader_rows fst snd]. rewrite Hlf.
  unfold line_fields, line_record in Hnames, Hfields.
  destruct (process_line parse_reset header) as [r'|e'] eqn:Hline; [|done].
  destruct (Hrec r' eq_refl) as [Hst Hf]. simpl in Hnames, Hfields.
  rewrite Hst. rewrite bool_decide_eq_true_2 by done.
  destruct (reader_rows_payload data) as (recs & e & -> & -> & Hrecs).
  { eapply Forall_impl; [exact Hdata|]. by intros l (_ & ? & ?). }
  { by destruct Hends as (_ & _ & ?). }
  rewrite data_rows_filter.
  assert (match fields r' with [] => fields r' | _ :: _ => map clean_name (fields r') end
          = fields r') as ->.
  { destruct (fields r'); [done|]. by apply map_clean_name_id. }
  rewrite clean_rows_id; [done|].
  unfold data_rows. apply Forall_fmap, Forall_forall. intros rec Hrec'.
  apply list_elem_of_filter in Hrec' as [Hn Hrec'].
  destruct (proj1 (Forall_forall _ _) Hrecs rec Hrec' Hn) as (l & Hl & Hlrec).
  simpl. apply clean_row_make_row; [done|].
  pose proof (proj1 (Forall_forall _ _) Hfields l Hl) as Hle.
  cbv beta in Hle. unfold line_record in Hlrec.
  destruct (process_line parse_reset l); [|done].
  injection Hlrec as <-. done.
Qed.

End RoundTrip.

Section RoundTripExamples.
Import RTFKnowledgeGraphImporter.

Ltac wrappable_by_evaluation :=
  split; [by vm_compute|split; [|by vm_compute]];
  repeat (constructor; [by_evaluation|]); constructor.

Lemma rich_text_round_trip_witness :
  let header := u "segment_id,segment_name,description" in
  let data :=
    [(u "SEG1,Product," ++ [DQUOTE] ++ u "Plans, roadmaps" ++ [DQUOTE], end_crlf);
     ([], end_lf);
     (u "SEG2,Sales", end_cr);
     (u "SEG3," ++ [DQUOTE] ++ u "say " ++ [DQUOTE; DQUOTE] ++ u "hi"
        ++ [DQUOTE; DQUOTE; DQUOTE], end_none)] in
  rtf_file_rows
    (rtf_wrap (u "{\rtf1\ansi ") (payload_text ((header, end_lf) :: data)) (u "}"))
  = plain_table_rows (plain_file true (payload_text ((header, end_lf) :: data))).
Proof.
  intros header data. apply rich_text_round_trip.
  - by vm_compute.
  - discriminate.
  - by vm_compute.
  - simpl. by split_and!.
  - repeat (constructor; [wrappable_by_evaluation|]). constructor.
  - vm_compute. repeat (constructor; [discriminate|]). constructor.
  - repeat (constructor; [vm_compute; lia|]). constructor.
Defined.

(** C4, as stated, fails.  The recovery strips every line, turns every
    backslash into a line break, drops the braces and cuts the run at the
    first closing brace, and it hands the reader lines without their line
    ends: a payload whose data line ends with a space comes back without the
    space; a payload with a brace in a field comes back cut; a backslash
    comes back as a line break; a quoted field that runs over two lines
    loses its line break, whether that is a line feed or a carriage return;
    and a field name that begins with a byte-order mark is cleaned by the
    plain-file importer only, as is the head of the file.  A data line with
    more fields than the header, and a first line that is empty, end the
    plain-file rows with [AttributeError].  And when the text before the
    payload holds the marker, the recovery starts at the earlier marker. *)
Lemma round_trip_counterexample :
  (let payload := payload_of [u "a,b"; u "1,2 "] in
   rtf_file_rows (rtf_wrap (u "{\rtf1 ") payload (u "}"))
   <> plain_table_rows (plain_file false payload) /\
   rtf_file_rows (rtf_wrap (u "{\rtf1 ") payload (u "}"))
   = ([[(KStr (u "a"), PStr (u "1")); (KStr (u "b"), PStr (u "2"))]], None) /\
   plain_table_rows (plain_file false payload)
   = ([[(KStr (u "a"), PStr (u "1")); (KStr (u "b"), PStr (u "2 "))]], None)) /\
  (let payload := payload_of [u "a,b"; u "1,{x}"] in
   rtf_file_rows (rtf_wrap (u "{\rtf1 ") payload (u "}"))
   <> plain_table_rows (plain_file false payload)) /\
  (forall payload,
     payload ∈ [payload_of [u "a,b"; u "1,x\y"];
                payload_of [u "a,b"; u "1," ++ [DQUOTE] ++ u "x"; u "y" ++ [DQUOTE]];
                payload_of [u "a,b"; u "1," ++ [DQUOTE] ++ u "x" ++ [CR] ++ u "y" ++ [DQUOTE]];
                payload_of [u "a," ++ [BOM] ++ u "b"; u "1,2"];
                payload_of [[BOM] ++ u "a,b"; u "1,2"];
                payload_of [u "a,b"; u "1,2,3"];
                payload_of [[]; u "a,b"; u "1,2"]] ->
     rtf_file_rows (rtf_wrap (u "{\rtf1 ") payload (u "}"))
     <> plain_table_rows (plain_file false payload)) /\
  (let payload := payload_of [u "a,b"; u "1,2"] in
   rtf_file_rows (rtf_wrap (u "{\rtf1 " ++ marker ++ u "x ") payload (u "}"))
   <> plain_table_rows (plain_file false payload)).
Proof.
  split; [by vm_compute|]. split; [by vm_compute|]. split; [|by vm_compute].
  intros payload Hin.
  repeat (apply elem_of_cons in Hin as [->|Hin]; [by vm_compute|]).
  by apply elem_of_nil in Hin.
Qed.

End RoundTripExamples.

(* ===================================================================== *)
(** * Part III.  Further properties of the code                           *)
(* ===================================================================== *)

(** ** The order of substitution and the escaping of string values *)

Section TemplaterMore.
Import RTFKnowledgeGraphImporter.

Implicit Types (ps : list (list N * pyval)) (s : list N).

Lemma insert_by_length_filter (n : nat) x ps :
  filter (fun kv : list N * pyval => length kv.1 = n) (insert_by_length x ps)
  = filter (fun kv : list N * pyval => length kv.1 = n) (x :: ps).
Proof.
  induction ps as [|y ps IH]; [done|]. cbn [insert_by_length].
  destruct (_ <? _)%nat eqn:E; [|done]. apply Nat.ltb_lt in E.
  rewrite (filter_cons _ y), IH, !filter_cons.
  repeat case_decide; try done; lia.
Qed.

(** The substitution loop works on the items of the mapping, all of them and
    nothing else, longest names first, and items whose names have the same
    length stay in the order of the mapping. *)
Theorem sorted_params_order ps :
  Permutation (sorted_params ps) ps /\
  Sorted by_length_desc (sorted_params ps) /\
  forall n, filter (fun kv : list N * pyval => length kv.1 = n) (sorted_params ps)
            = filter (fun kv : list N * pyval => length kv.1 = n) ps.
Proof.
  split; [apply sorted_params_perm|]. split; [apply sorted_params_sorted|].
  intros n. induction ps as [|x ps IH]; [done|].
  cbn [sorted_params foldr]. fold (sorted_params ps).
  rewrite insert_by_length_filter, !filter_cons, IH. done.
Qed.

Lemma guarded_escape_quote b s :
  guarded b (flat_map (fun c => if c =? DQUOTE then [BACKSLASH; DQUOTE] else [c]) s).
Proof.
  revert b. induction s as [|c s IH]; intros b; [done|]. cbn [flat_map].
  destruct (c =? DQUOTE) eqn:E.
  - cbn [app guarded]. split_and!; [done|done|apply IH].
  - cbn [app guarded]. split; [|apply IH].
    intros ->. by rewrite N.eqb_refl in E.
Qed.

Lemma guarded_escape_other a x b s :
  a <> DQUOTE -> a <> BACKSLASH -> x <> DQUOTE -> x <> BACKSLASH ->
  guarded b s ->
  guarded b (flat_map (fun c => if c =? a then [BACKSLASH; x] else [c]) s).
Proof.
  intros Ha Ha' Hx Hx'. revert b. induction s as [|c s IH]; intros b Hs; [done|].
  destruct Hs as [Hc Hs]. cbn [flat_map]. destruct (c =? a) eqn:E.
  - apply N.eqb_eq in E as ->. cbn [app guarded]. split_and!; [done|done|].
    apply IH. apply N.eqb_neq in Ha', Hx'. by rewrite Hx', <- Ha'.
  - cbn [app guarded]. split; [done|by apply IH].
Qed.

Lemma guarded_lookup b s :
  guarded b s ->
  (s !! 0%nat = Some DQUOTE -> b = true) /\
  forall i, s !! S i = Some DQUOTE -> s !! i = Some BACKSLASH.
Proof.
  revert b. induction s as [|c s IH]; intros b Hs; [done|].
  destruct Hs as [Hc Hs]. destruct (IH _ Hs) as [IH0 IHS]. split.
  - simpl. intros [= ->]. by apply Hc.
  - intros [|i] Hi; simpl in *.
    + f_equal. apply N.eqb_eq. by apply IH0.
    + by apply IHS.
Qed.

(** The literal of a string value in the rich-text importer: it begins and
    ends with a double quote, holds no line feed and no carriage return, and
    every double quote between the two is right after a backslash. *)
Theorem string_literal_escaped (value : list N) :
  literal (PStr value) = [DQUOTE] ++ escaped_value value ++ [DQUOTE] /\
  (LF ∉ literal (PStr value)) /\ (CR ∉ literal (PStr value)) /\
  forall i, escaped_value value !! i = Some DQUOTE ->
    exists j, i = S j /\ escaped_value value !! j = Some BACKSLASH.
Proof.
  split; [done|].
  destruct (escaped_value_no_line_break value) as [Hlf Hcr].
  split_and!.
  - cbn [literal]. rewrite !elem_of_app, !list_elem_of_singleton.
    intros [?|[?|?]]; done.
  - cbn [literal]. rewrite !elem_of_app, !list_elem_of_singleton.
    intros [?|[?|?]]; done.
  - assert (guarded false (escaped_value value)) as Hg.
    { unfold escaped_value. rewrite !replace_single.
      apply (guarded_escape_other CR 114); [done..|].
      apply (guarded_escape_other LF 110); [done..|].
      apply guarded_escape_quote. }
    destruct (guarded_lookup _ _ Hg) as [H0 HS].
    intros [|j] Hi; [by apply H0 in Hi|]. exists j. split; [done|by apply HS].
Qed.

End TemplaterMore.

(** ** More on the recovery from rich text *)

Section RecoveryMore.
Import RTFKnowledgeGraphImporter.

Implicit Types (s content line : list N) (c : N).

Lemma up_to_elem stop s body : up_to stop s = Some body -> stop ∈ s.
Proof.
  revert body. induction s as [|c s IH]; intros body H; [done|]. simpl in H.
  destruct (c =? stop) eqn:E.
  - apply N.eqb_eq in E as ->. by left.
  - destruct (up_to stop s) as [b|]; [|done]. right. by apply (IH b).
Qed.

Lemma match_here_brace s group : match_here s = Some group -> RBRACE ∈ s.
Proof.
  unfold match_here. destruct (starts_with marker s); [|done].
  destruct (drop (length marker) s) as [|c rest] eqn:Hd; [done|].
  intros H. destruct (up_to RBRACE rest) as [body|] eqn:Hu; [|done].
  apply up_to_elem in Hu.
  apply (subseteq_drop (length marker) s). rewrite Hd. by right.
Qed.

Lemma findall_from_no_brace n s : RBRACE ∉ s -> findall_from n s = [].
Proof.
  revert n. induction s as [|c s IH]; intros n Hs; [done|].
  assert (RBRACE ∉ s) as Hs' by (intros ?; apply Hs; by right).
  destruct n as [|n]; cbn [findall_from]; [|by apply IH].
  destruct (match_here (c :: s)) as [group|] eqn:Hm; [|by apply IH].
  by apply match_here_brace in Hm.
Qed.

(** When the text holds no marker, or no closing brace, nothing is
    recovered, and every import function of the rich-text importer returns
    at once: no query is submitted, no counter moves, nothing is raised. *)
Theorem no_payload_no_load content :
  contains marker content = false \/ RBRACE ∉ content ->
  extract_csv_from_rtf content = [] /\
  forall E t self, import_table E t content self = (Ok tt, self).
Proof.
  intros H.
  assert (extract_csv_from_rtf content = []) as Hnone.
  { unfold extract_csv_from_rtf. destruct H as [H|H].
    - by rewrite findall_absent.
    - unfold findall. by rewrite findall_from_no_brace. }
  split; [done|]. intros E t self. unfold import_table. by rewrite Hnone.
Qed.

Lemma no_payload_no_load_witness :
  extract_csv_from_rtf (u "{\rtf1 \strokec2 segment_id,segment_name\
SEG1,Product") = [] /\
  forall E t self,
    import_table E t (u "{\rtf1 \strokec2 segment_id,segment_name\
SEG1,Product") self = (Ok tt, self).
Proof.
  apply no_payload_no_load. right. by_evaluation.
Defined.

(** The characters of the recovered lines are characters of the run in
    which the backslashes were replaced and the braces removed. *)
Lemma extract_line_chars content line c :
  line ∈ extract_csv_from_rtf content -> c ∈ line ->
  c <> BACKSLASH /\ c <> LBRACE /\ c <> RBRACE /\ c <> LF.
Proof.
  unfold extract_csv_from_rtf. destruct (findall content) as [|csv_content _].
  { intros H. by apply elem_of_nil in H. }
  unfold payload_lines. intros Hin Hc.
  apply list_elem_of_fmap in Hin as (l & -> & Hl).
  apply list_elem_of_filter in Hl as [_ Hl].
  apply strip_elem in Hc. destruct (split_elem _ _ _ _ Hl Hc) as [Hs Hlf].
  apply strip_elem in Hs.
  apply list_elem_of_filter in Hs as [[Hlb Hrb] Hs].
  split_and!; try done. intros ->.
  revert Hs. rewrite replace_single. apply escape_removes. by_evaluation.
Qed.

Lemma add_char_holds P r ch r' :
  reader_holds P r -> P ch -> parse_add_char r ch = Ok r' -> reader_holds P r'.
Proof.
  intros [Hfs Hf] Hch. unfold parse_add_char. case_match; [done|].
  intros [= <-]. split; simpl; [done|]. apply Forall_app. split; [done|].
  by constructor.
Qed.

Lemma save_field_holds P r : reader_holds P r -> reader_holds P (parse_save_field r).
Proof.
  intros [Hfs Hf]. split; simpl; [|constructor].
  apply Forall_app. split; [done|]. by constructor.
Qed.

Lemma set_state_holds P st r : reader_holds P r -> reader_holds P (set_state st r).
Proof. done. Qed.

Lemma process_char_holds P r ch r' :
  reader_holds P r -> (forall c, ch = Some c -> P c) ->
  parse_process_char r ch = Ok r' -> reader_holds P r'.
Proof.
  intros Hr Hch H. unfold parse_process_char in H.
  assert (forall c r0 r1, ch = Some c -> reader_holds P r0 ->
            parse_add_char r0 c = Ok r1 -> reader_holds P r1) as Hadd.
  { intros c r0 r1 -> ? ?. eapply add_char_holds; [done| |done]. by apply Hch. }
  destruct (state r), ch as [c|];
    repeat match type of H with
           | context [match ?x with _ => _ end] => destruct x eqn:?
           end;
    simplify_eq;
    eauto 6 using set_state_holds, save_field_holds.
Qed.

Lemma process_line_holds P r l r' :
  reader_holds P r -> Forall P l -> process_line r l = Ok r' -> reader_holds P r'.
Proof.
  intros Hr Hl. revert r Hr. induction Hl as [|c l Hc _ IH]; intros r Hr H; simpl in H.
  - eapply process_char_holds; [exact Hr| |exact H]. by intros ? [=].
  - destruct (parse_process_char r (Some c)) as [r1|] eqn:H1; [|done].
    eapply IH; [|exact H]. eapply process_char_holds; [exact Hr| |exact H1].
    by intros ? [= <-].
Qed.

Lemma reader_rows_hold P r lines :
  reader_holds P r -> Forall (Forall P) lines ->
  Forall (Forall (Forall P)) (reader_rows r lines).1.
Proof.
  intros Hr Hl. revert r Hr. induction Hl as [|l lines Hl _ IH]; intros r Hr.
  - cbn [reader_rows]. case_match; [|constructor].
    repeat constructor. by apply save_field_holds.
  - cbn [reader_rows].
    destruct (process_line r l) as [r'|] eqn:Hp; [|constructor].
    pose proof (process_line_holds P r l r' Hr Hl Hp) as Hr'.
    case_match.
    + destruct (reader_rows parse_reset lines) as [rows e] eqn:Hrows.
      simpl. constructor; [apply Hr'|].
      specialize (IH parse_reset). rewrite Hrows in IH. apply IH.
      split; constructor.
    + by apply IH.
Qed.

End RecoveryMore.

(** ** No backslash reaches the templater from a rich-text file *)

Section CellsFromRichText.
Import RTFKnowledgeGraphImporter.

Lemma dict_set_elem {V} (k k' : hkey) (v v' : V) (d : pydict V) :
  (k, v) ∈ dict_set k' v' d -> (k, v) = (k', v') \/ (k, v) ∈ d.
Proof.
  induction d as [|[k0 v0] d IH]; simpl.
  - intros ?%list_elem_of_singleton. by left.
  - destruct (decide (k0 = k')) as [->|Hne].
    + intros [?|?]%elem_of_cons; [by left|right; by right].
    + intros [->|Hin]%elem_of_cons; [right; by left|].
      destruct (IH Hin); [by left|right; by right].
Qed.

Lemma fold_dict_set_elem {A V} (f : A -> hkey) (g : A -> V) (l : list A)
    (d : pydict V) k v :
  (k, v) ∈ fold_left (fun d x => dict_set (f x) (g x) d) l d ->
  (k, v) ∈ d \/ exists x, x ∈ l /\ v = g x.
Proof.
  revert d. induction l as [|x l IH]; intros d H; simpl in H; [by left|].
  apply IH in H as [H|(y & Hy & ->)].
  - apply dict_set_elem in H as [[= -> ->]|H]; [|by left].
    right. exists x. split; [by left|done].
  - right. exists y. split; [by right|done].
Qed.

Lemma make_row_text names rec k (s : list N) :
  (k, PStr s) ∈ make_row names rec -> s ∈ rec.
Proof.
  unfold make_row. intros H.
  assert (forall d : pydict pyval,
            (k, PStr s) ∈ fold_left (fun d kv => dict_set (KStr kv.1) (PStr kv.2) d)
                            (zip names rec) [] -> s ∈ rec) as Hzip.
  { intros _ Hd.
    apply (fold_dict_set_elem (fun kv : list N * list N => KStr kv.1)
                              (fun kv => PStr kv.2)) in Hd
      as [Hd|([n val] & Hin & [= ->])]; [by apply elem_of_nil in Hd|].
    by apply elem_of_zip_r in Hin. }
  case_match.
  - apply dict_set_elem in H as [[=]|H]. by apply (Hzip []).
  - apply (fold_dict_set_elem (fun k => KStr k) (fun _ => PNone)) in H
      as [H|(x & _ & [=])]. by apply (Hzip []).
Qed.

(** Every text cell of every row that the loop of the rich-text importer
    receives is free of backslashes, braces and line feeds: the escaping of
    string values, which leaves the backslash alone, never meets one on this
    path. *)
Theorem rich_text_cells_without_backslash content row k (s : list N) :
  row ∈ (rtf_table_rows content).1 ->
  (k, PStr s) ∈ row ->
  (BACKSLASH ∉ s) /\ (LBRACE ∉ s) /\ (RBRACE ∉ s) /\ (LF ∉ s).
Proof.
  intros Hrow Hcell.
  pose (P := fun c : N => c <> BACKSLASH /\ c <> LBRACE /\ c <> RBRACE /\ c <> LF).
  assert (Forall P s) as Hs.
  { unfold rtf_table_rows, DictReader, reader_iter in Hrow.
    pose proof (reader_rows_hold P parse_reset (extract_csv_from_rtf content)) as Hall.
    destruct (reader_rows parse_reset (extract_csv_from_rtf content)) as [records e].
    simpl in Hall.
    assert (Forall (Forall (Forall P)) records) as Hrecs.
    { apply Hall; [split; constructor|].
      apply Forall_forall. intros line Hline. apply Forall_forall. intros c Hc.
      by apply (extract_line_chars content line c). }
    destruct records as [|fieldnames records]; [by apply elem_of_nil in Hrow|].
    simpl in Hrow. unfold data_rows in Hrow.
    apply list_elem_of_fmap in Hrow as (rec & -> & Hrec).
    apply list_elem_of_filter in Hrec as [_ Hrec].
    apply make_row_text in Hcell.
    apply Forall_cons in Hrecs as [_ Hrecs].
    pose proof (proj1 (Forall_forall _ _) Hrecs rec Hrec) as Hr.
    by apply (proj1 (Forall_forall _ _) Hr s). }
  split_and!; intros Hin; by destruct (proj1 (Forall_forall _ _) Hs _ Hin) as (?&?&?&?).
Qed.

End CellsFromRichText.

Section CellsFromRichTextExample.
Import Fixtures.

Lemma rich_text_cells_without_backslash_witness :
  let s := u "Product management" in
  (BACKSLASH ∉ s) /\ (LBRACE ∉ s) /\ (RBRACE ∉ s) /\ (LF ∉ s).
Proof.
  intros s.
  apply (rich_text_cells_without_backslash segments_rtf
           [(KStr (u "segment_id"), PStr (u "SEG1"));
            (KStr (u "segment_name"), PStr (u "Product"));
            (KStr (u "description"), PStr s);
            (KStr (u "version"), PStr (u "1"));
            (KStr (u "node_type"), PStr (u "segment"))]
           (KStr (u "description")) s).
  - vm_compute. by left.
  - do 2 right. by left.
Defined.

End CellsFromRichTextExample.

(** ** What a table load does to the importer, whatever its input *)

Section LoadAccounting.

Variable E : env.

Implicit Types (self : importer) (c : counter) (t : table) (row : pydict pyval).

Lemma collected_app (message : list N -> list N -> list N) history qs1 qs2 :
  collected E message history (qs1 ++ qs2)
  = collected E message history qs1 ++ collected E message (history ++ qs1) qs2.
Proof.
  revert history. induction qs1 as [|q qs1 IH]; intros history; simpl.
  - by rewrite app_nil_r.
  - rewrite IH, <- !app_assoc. done.
Qed.

Lemma accounted_refl message c self : accounted E message c self self.
Proof.
  exists []. rewrite !app_nil_r. split_and!; try done; simpl; lia.
Qed.

Lemma accounted_trans message c self1 self2 self3 :
  accounted E message c self1 self2 -> accounted E message c self2 self3 ->
  accounted E message c self1 self3.
Proof.
  intros (qs1 & Hs1 & He1 & Hc1 & Hf1) (qs2 & Hs2 & He2 & Hc2 & Hf2).
  exists (qs1 ++ qs2). split_and!.
  - by rewrite Hs2, Hs1, app_assoc.
  - by rewrite He2, He1, Hs1, collected_app, app_assoc.
  - rewrite Hc2, Hc1, length_app. lia.
  - intros c' Hc'. by rewrite Hf2, Hf1.
Qed.

(** A loop keeps what each of its turns keeps. *)
Lemma for_each_keeps {A} (R : importer -> importer -> Prop) (body : A -> M unit)
    (items : list A) :
  (forall self, R self self) ->
  (forall s1 s2 s3, R s1 s2 -> R s2 s3 -> R s1 s3) ->
  (forall x self, R self (body x self).2) ->
  forall self, R self (for_each items body self).2.
Proof.
  intros Hrefl Htrans Hbody. induction items as [|x items IH]; intros self.
  - apply Hrefl.
  - simpl. unfold bind. pose proof (Hbody x self) as Hx.
    destruct (body x self) as [[[]|e] self1]; [|done].
    eapply Htrans; [exact Hx|apply IH].
Qed.

Lemma for_stream_keeps {A} (R : importer -> importer -> Prop) (body : A -> M unit)
    (it : stream A) :
  (forall self, R self self) ->
  (forall s1 s2 s3, R s1 s2 -> R s2 s3 -> R s1 s3) ->
  (forall x self, R self (body x self).2) ->
  forall self, R self (for_stream it body self).2.
Proof.
  intros Hrefl Htrans Hbody self. unfold for_stream, bind.
  pose proof (for_each_keeps R body it.1 Hrefl Htrans Hbody self) as H.
  destruct (for_each it.1 body self) as [[[]|e] self1]; [|done].
  by destruct it.2.
Qed.

Lemma get_counter_increment_other c c' (s : Stats) :
  c' <> c -> get_counter c' (increment c s) = get_counter c' s.
Proof. by destruct c, c'. Qed.

(** Submitting one query and counting it. *)
Lemma submit_and_count (message : list N -> list N -> list N) c (q : list N)
    (outcome : result unit) self :
  accounted E message c self
    (match submit E q (message q) self with
     | (Ok _, self1) =>
         (outcome, mk_importer (increment c (stats self1)) (sent self1) (clock_reads self1))
     | (Raise e, self1) => (Raise e, self1)
     end).2.
Proof.
  destruct (submit_spec E q (message q) self) as (v & self1 & -> & Hs & _ & He & Hc).
  exists [q]. simpl. split_and!.
  - done.
  - by rewrite errors_increment, He, app_nil_r.
  - rewrite get_counter_increment, Hc. lia.
  - intros c' Hc'. by rewrite get_counter_increment_other, Hc.
Qed.

Lemma import_row_rtf_accounted t row self :
  accounted E (fun q => RTFKnowledgeGraphImporter.error_message q) (counts t) self
    (RTFKnowledgeGraphImporter.import_row E t row self).2.
Proof.
  unfold RTFKnowledgeGraphImporter.import_row, build_params, bind, lift, now, ret.
  destruct (read_columns row (columns t)) as [kvs|e]; [|apply accounted_refl].
  unfold RTFKnowledgeGraphImporter.execute_cypher, modify_stats.
  match goal with
  | |- context [submit E ?qq ?m ?s] =>
      pose proof (submit_and_count
                    (fun q => RTFKnowledgeGraphImporter.error_message q) (counts t) qq
                    (progress_line t row) s) as H;
      destruct (submit E qq m s) as [[v|e] self1]
  end; [|done].
  destruct H as (qs & Hs & He & Hc & Hf). exists qs. simpl in *. by split_and!.
Qed.

Lemma import_row_plain_accounted t row self :
  accounted E (fun _ => KnowledgeGraphImporter.error_message (template t)) (counts t) self
    (KnowledgeGraphImporter.import_row E t row self).2.
Proof.
  unfold KnowledgeGraphImporter.import_row, build_params, bind, lift, now, ret.
  destruct (KnowledgeGraphImporter.clean_row row) as [row'|e]; [|apply accounted_refl].
  destruct (read_columns row' (columns t)) as [kvs|e]; [|apply accounted_refl].
  unfold KnowledgeGraphImporter.execute_cypher, modify_stats.
  match goal with
  | |- context [submit E ?qq ?m ?s] =>
      pose proof (submit_and_count
                    (fun _ => KnowledgeGraphImporter.error_message (template t)) (counts t) qq
                    (progress_line t row') s) as H;
      destruct (submit E qq m s) as [[v|e] self1]
  end; [|done].
  destruct H as (qs & Hs & He & Hc & Hf). exists qs. simpl in *. by split_and!.
Qed.

Lemma import_table_accounting t (text : list N) self :
  accounted E (fun q => RTFKnowledgeGraphImporter.error_message q) (counts t) self
    (RTFKnowledgeGraphImporter.import_table E t text self).2 /\
  accounted E (fun _ => KnowledgeGraphImporter.error_message (template t)) (counts t) self
    (KnowledgeGraphImporter.import_table E t text self).2.
Proof.
  split.
  - unfold RTFKnowledgeGraphImporter.import_table.
    destruct (RTFKnowledgeGraphImporter.extract_csv_from_rtf text);
      [apply accounted_refl|].
    apply for_stream_keeps;
      [apply accounted_refl|apply accounted_trans|apply import_row_rtf_accounted].
  - unfold KnowledgeGraphImporter.import_table.
    apply for_stream_keeps;
      [apply accounted_refl|apply accounted_trans|apply import_row_plain_accounted].
Qed.

(** For every table, every text of the file and every behaviour of the
    store, and also when the load ends with an exception: the counter of the
    table has grown by exactly the number of queries that were submitted,
    the other counters are unchanged, the trace and the error list have only
    been appended to, and the new error messages are those of the
    submissions on which the store failed. *)
Theorem import_table_accounted t (text : list N) self :
  accounted E (fun q => RTFKnowledgeGraphImporter.error_message q) (counts t) self
    (RTFKnowledgeGraphImporter.import_table E t text self).2 /\
  accounted E (fun _ => KnowledgeGraphImporter.error_message (template t)) (counts t) self
    (KnowledgeGraphImporter.import_table E t text self).2.
Proof. apply import_table_accounting. Qed.

Lemma collected_never_fails (message : list N -> list N -> list N) history qs :
  never_fails E -> collected E message history qs = [].
Proof.
  intros Hok. revert history. induction qs as [|q qs IH]; intros history; [done|].
  simpl. rewrite IH. unfold outcome_errors.
  by destruct (Hok history q) as [v ->].
Qed.

Lemma collected_always_fails (message : list N -> list N -> list N) history qs :
  always_fails E -> length (collected E message history qs) = length qs.
Proof.
  intros Hko. revert history. induction qs as [|q qs IH]; intros history; [done|].
  simpl. rewrite length_app, IH. unfold outcome_errors.
  by destruct (Hko history q) as [msg ->].
Qed.

Lemma accounted_errors message c self self' :
  accounted E message c self self' ->
  (never_fails E -> errors (stats self') = errors (stats self)) /\
  (always_fails E ->
   length (errors (stats self'))
   = (length (errors (stats self)) + (get_counter c (stats self') - get_counter c (stats self)))%nat).
Proof.
  intros (qs & Hs & He & Hc & _). split; intros H.
  - by rewrite He, collected_never_fails, app_nil_r.
  - rewrite He, length_app, collected_always_fails, Hc by done. lia.
Qed.

(** The error list after a table load of either importer, whatever the file
    holds: with a store that answers every query it is what it was before;
    with a store that fails on every query it has one more message for each
    row that was counted. *)
Theorem errors_follow_the_store t (text : list N) self :
  let rtf := (RTFKnowledgeGraphImporter.import_table E t text self).2 in
  let plain := (KnowledgeGraphImporter.import_table E t text self).2 in
  (never_fails E ->
     errors (stats rtf) = errors (stats self) /\
     errors (stats plain) = errors (stats self)) /\
  (always_fails E ->
     length (errors (stats rtf))
     = (length (errors (stats self))
        + (get_counter (counts t) (stats rtf) - get_counter (counts t) (stats self)))%nat /\
     length (errors (stats plain))
     = (length (errors (stats self))
        + (get_counter (counts t) (stats plain) - get_counter (counts t) (stats self)))%nat).
Proof.
  intros rtf plain.
  destruct (import_table_accounting t text self) as [Hr Hp].
  destruct (accounted_errors _ _ _ _ Hr) as [Hr1 Hr2].
  destruct (accounted_errors _ _ _ _ Hp) as [Hp1 Hp2].
  split; intros H; split; auto.
Qed.

End LoadAccounting.

Section LoadAccountingExample.
Import Fixtures.

Lemma errors_follow_the_store_witness :
  let t := RTFKnowledgeGraphImporter.business_segments_table in
  let rtf := (RTFKnowledgeGraphImporter.import_table rejecting t segments_rtf init).2 in
  let plain := (KnowledgeGraphImporter.import_table accepting t segments_csv init).2 in
  length (errors (stats rtf))
  = (length (errors (stats init))
     + (get_counter (counts t) (stats rtf) - get_counter (counts t) (stats init)))%nat /\
  errors (stats plain) = errors (stats init).
Proof.
  intros t rtf plain. split.
  - apply (proj2 (errors_follow_the_store rejecting t segments_rtf init)).
    intros history q. by eexists.
  - apply (proj1 (errors_follow_the_store accepting t segments_csv init)).
    intros history q. by eexists.
Defined.

End LoadAccountingExample.

(** ** Rows that end a load *)

Section RowsThatEndALoad.

Variable E : env.

Implicit Types (self : importer) (t : table) (row : pydict pyval).

Lemma read_columns_missing row (cols : list (string * conv)) name cv :
  (name, cv) ∈ cols -> dict_get (KStr (u name)) row = None ->
  exists e, read_columns row cols = Raise e.
Proof.
  intros Hin Hget. induction cols as [|col cols IH]; [by apply elem_of_nil in Hin|].
  cbn [read_columns].
  destruct (read_column row col) as [kv|e] eqn:Hcol; [|by exists e].
  apply elem_of_cons in Hin as [<-|Hin].
  - unfold read_column, getitem in Hcol. simpl in Hcol. by rewrite Hget in Hcol.
  - destruct (IH Hin) as [e ->]. by exists e.
Qed.

(** A row that lacks a column of the table (the header of the file does not
    name it) ends the load with an exception before anything is submitted:
    the importer is as it was.  In the plain-file importer this is said of
    the row with its keys cleaned. *)
Theorem missing_column_ends_load t row name cv self :
  (name, cv) ∈ columns t ->
  dict_get (KStr (u name)) row = None ->
  (exists e, RTFKnowledgeGraphImporter.import_row E t row self = (Raise e, self)) /\
  (forall raw, KnowledgeGraphImporter.clean_row raw = Ok row ->
     exists e, KnowledgeGraphImporter.import_row E t raw self = (Raise e, self)).
Proof.
  intros Hin Hget.
  destruct (read_columns_missing row (columns t) name cv Hin Hget) as [e He].
  split.
  - exists e. by apply import_row_rtf_unreadable.
  - intros raw Hraw. exists e. by apply (import_row_plain_unreadable E t raw row).
Qed.

(** In the tables whose progress line slices a cell (task templates and
    workflow templates slice [workflow_name]), a row in which that cell is
    [None], as in a line shorter than the header, is submitted and counted,
    and then ends the load with [TypeError]. *)
Theorem unsliceable_cell_ends_load_after_submit t name row kvs self :
  sliced t = Some name ->
  read_columns row (columns t) = Ok kvs ->
  dict_get (KStr (u name)) row = Some PNone ->
  (exists q self',
     RTFKnowledgeGraphImporter.import_row E t row self = (Raise TypeError, self') /\
     sent self' = sent self ++ [q] /\
     get_counter (counts t) (stats self') = S (get_counter (counts t) (stats self))) /\
  (forall raw, KnowledgeGraphImporter.clean_row raw = Ok row ->
     exists q self',
       KnowledgeGraphImporter.import_row E t raw self = (Raise TypeError, self') /\
       sent self' = sent self ++ [q] /\
       get_counter (counts t) (stats self') = S (get_counter (counts t) (stats self))).
Proof.
  intros Hsl Hkvs Hget.
  assert (progress_line t row = Raise TypeError) as Hprint.
  { unfold progress_line, getitem. by rewrite Hsl, Hget. }
  split.
  - unfold RTFKnowledgeGraphImporter.import_row, build_params, bind, lift, now, ret.
    rewrite Hkvs. unfold RTFKnowledgeGraphImporter.execute_cypher.
    match goal with
    | |- context [submit E ?qq ?m ?s] =>
        destruct (submit_spec E qq m s) as (v & self1 & -> & Hs & _ & _ & Hc);
        exists qq
    end.
    unfold modify_stats. rewrite Hprint. eexists. split; [reflexivity|].
    simpl in *. split; [done|]. by rewrite get_counter_increment, Hc.
  - intros raw Hraw.
    unfold KnowledgeGraphImporter.import_row, build_params, bind, lift, now, ret.
    rewrite Hraw, Hkvs. unfold KnowledgeGraphImporter.execute_cypher.
    match goal with
    | |- context [submit E ?qq ?m ?s] =>
        destruct (submit_spec E qq m s) as (v & self1 & -> & Hs & _ & _ & Hc);
        exists qq
    end.
    unfold modify_stats. rewrite Hprint. eexists. split; [reflexivity|].
    simpl in *. split; [done|]. by rewrite get_counter_increment, Hc.
Qed.

Lemma clean_items_surplus (d : pydict pyval) v acc :
  (forall k, k ∈ keys d -> exists name, k = KStr name) ->
  KnowledgeGraphImporter.clean_items (d ++ [(KNone, v)]) acc = Raise AttributeError.
Proof.
  revert acc. induction d as [|[k v0] d IH]; intros acc Hkeys; [done|].
  destruct (Hkeys k) as [name ->]; [by left|].
  cbn [app KnowledgeGraphImporter.clean_items]. apply IH.
  intros k' Hk'. apply Hkeys. by right.
Qed.

(** In the plain-file importer, a data row with more fields than the header
    ends the load with [AttributeError] (its key [None] has no [lstrip])
    before anything of the row is submitted. *)
Theorem surplus_fields_end_plain_load t (names rec : list (list N)) self :
  (length names < length rec)%nat ->
  KnowledgeGraphImporter.import_row E t (make_row names rec) self
  = (Raise AttributeError, self).
Proof.
  intros Hlen. unfold KnowledgeGraphImporter.import_row, bind, lift.
  assert (KnowledgeGraphImporter.clean_row (make_row names rec) = Raise AttributeError)
    as ->; [|done].
  unfold make_row. cbv zeta. apply Nat.ltb_lt in Hlen. rewrite Hlen.
  set (d := fold_left (fun d (kv : list N * list N) => dict_set (KStr kv.1) (PStr kv.2) d)
                      (zip names rec) []).
  assert (forall k, k ∈ keys d -> exists name, k = KStr name) as Hkeys.
  { intros k Hk.
    apply (fold_dict_set_keys (fun kv : list N * list N => KStr kv.1)
                              (fun kv => PStr kv.2)) in Hk
      as [Hk|([name val] & _ & ->)]; [by apply elem_of_nil in Hk|by exists name]. }
  rewrite dict_set_fresh.
  - by apply clean_items_surplus.
  - intros Hin. by destruct (Hkeys _ Hin).
Qed.

End RowsThatEndALoad.

Section RowsThatEndALoadExamples.
Import Fixtures.

Lemma missing_column_ends_load_witness :
  let t := RTFKnowledgeGraphImporter.business_segments_table in
  let row := make_row [u "segment_id"; u "segment_name"] [u "SEG1"; u "Product"] in
  (exists e, RTFKnowledgeGraphImporter.import_row accepting t row init = (Raise e, init)) /\
  (forall raw, KnowledgeGraphImporter.clean_row raw = Ok row ->
     exists e, KnowledgeGraphImporter.import_row accepting t raw init = (Raise e, init)).
Proof.
  intros t row.
  apply (missing_column_ends_load accepting t row "description"%string as_is init).
  - do 2 right. by left.
  - by vm_compute.
Defined.

Lemma unsliceable_cell_ends_load_after_submit_witness :
  let t := RTFKnowledgeGraphImporter.workflow_templates_table in
  let row :=
    make_row
      [u "workflow_id"; u "node_type"; u "segment_id"; u "description";
       u "business_value"; u "total_tasks"; u "involved_roles";
       u "complexity_level"; u "workflow_name"]
      [u "LAUNCH_001"; u "workflow"; u "SEG1"; u "Launch of a product";
       u "Revenue"; u "12"; u "PRODM"; u "High"] in
  exists q self',
    RTFKnowledgeGraphImporter.import_row accepting t row init = (Raise TypeError, self') /\
    sent self' = sent init ++ [q] /\
    get_counter (counts t) (stats self') = S (get_counter (counts t) (stats init)).
Proof.
  intros t row.
  eapply proj1, (unsliceable_cell_ends_load_after_submit accepting t).
  - reflexivity.
  - vm_compute. reflexivity.
  - by vm_compute.
Defined.

Lemma surplus_fields_end_plain_load_witness :
  KnowledgeGraphImporter.import_row accepting
    KnowledgeGraphImporter.business_segments_table
    (make_row [u "segment_id"; u "segment_name"] [u "SEG1"; u "Product"; u "extra"])
    init
  = (Raise AttributeError, init).
Proof.
  apply (surplus_fields_end_plain_load accepting). simpl. lia.
Defined.

End RowsThatEndALoadExamples.

(** ** Indexes, verification and the whole run *)

Section StepsAfterTheLoads.

Variable E : env.

Implicit Types (self : importer) (c : counter) (t : table).

Lemma counters_kept_refl self : counters_kept self self.
Proof. split_and!; [by exists []; rewrite app_nil_r..|done]. Qed.

Lemma counters_kept_trans s1 s2 s3 :
  counters_kept s1 s2 -> counters_kept s2 s3 -> counters_kept s1 s3.
Proof.
  intros ([qs1 Hs1] & [es1 He1] & Hc1) ([qs2 Hs2] & [es2 He2] & Hc2). split_and!.
  - exists (qs1 ++ qs2). by rewrite Hs2, Hs1, app_assoc.
  - exists (es1 ++ es2). by rewrite He2, He1, app_assoc.
  - intros c. by rewrite Hc2, Hc1.
Qed.

Lemma bind_keeps {A B} (R : importer -> importer -> Prop) (m : M A) (k : A -> M B) self :
  (forall s1 s2 s3, R s1 s2 -> R s2 s3 -> R s1 s3) ->
  R self (m self).2 ->
  (forall a s, R s (k a s).2) ->
  R self (bind m k self).2.
Proof.
  intros Htrans Hm Hk. unfold bind.
  destruct (m self) as [[a|e] self1]; [|done].
  eapply Htrans; [exact Hm|apply Hk].
Qed.

Lemma submit_kept (q : list N) (message : list N -> list N) self :
  counters_kept self (submit E q message self).2.
Proof.
  destruct (submit_spec E q message self) as (v & self1 & -> & Hs & _ & He & Hc).
  split_and!; [by exists [q]|by eexists|done].
Qed.

Lemma execute_command_direct_kept (q : list N) self :
  counters_kept self (execute_command_direct E q self).2.
Proof.
  unfold execute_command_direct.
  destruct (execute_command E (sent self) q); simpl;
    (split_and!; [by exists [q]|by exists []; rewrite app_nil_r|done]).
Qed.

Lemma lift_kept {A} (r : result A) self : counters_kept self (lift r self).2.
Proof. apply counters_kept_refl. Qed.

Lemma ret_kept {A} (a : A) self : counters_kept self (ret a self).2.
Proof. apply counters_kept_refl. Qed.

Lemma try_except_kept {A} (body : M A) (handler : exn -> M A) self :
  counters_kept self (body self).2 ->
  (forall e s, counters_kept s (handler e s).2) ->
  counters_kept self (try_except body handler self).2.
Proof.
  intros Hb Hh. unfold try_except. destruct (body self) as [[a|e] self1]; [done|].
  eapply counters_kept_trans; [exact Hb|apply Hh].
Qed.

Ltac kept :=
  repeat first
    [ apply submit_kept
    | apply execute_command_direct_kept
    | apply lift_kept
    | apply ret_kept
    | apply counters_kept_refl
    | apply bind_keeps; [apply counters_kept_trans| |intros ? ?]
    | apply try_except_kept; [|intros ? ?]
    | case_match ].

Lemma create_indexes_rtf_kept self :
  counters_kept self (RTFKnowledgeGraphImporterRun.create_indexes E self).2.
Proof.
  unfold RTFKnowledgeGraphImporterRun.create_indexes.
  apply (for_each_keeps counters_kept);
    [apply counters_kept_refl|apply counters_kept_trans|].
  intros q s. unfold RTFKnowledgeGraphImporter.execute_cypher. kept.
Qed.

Lemma create_indexes_plain_kept self :
  counters_kept self (KnowledgeGraphImporterRun.create_indexes E self).2.
Proof.
  unfold KnowledgeGraphImporterRun.create_indexes.
  apply (for_each_keeps counters_kept);
    [apply counters_kept_refl|apply counters_kept_trans|].
  intros q s. unfold KnowledgeGraphImporter.execute_cypher. kept.
Qed.

Lemma count_by_kept (query_of : list N -> list N) names (counts : pydict pyval) self :
  counters_kept self (RTFKnowledgeGraphImporterRun.count_by E query_of names counts self).2.
Proof.
  revert counts self. induction names as [|name names IH]; intros counts self;
    cbn [RTFKnowledgeGraphImporterRun.count_by]; [apply ret_kept|].
  unfold RTFKnowledgeGraphImporter.execute_cypher.
  apply bind_keeps; [apply counters_kept_trans|apply submit_kept|intros result s].
  apply bind_keeps; [apply counters_kept_trans| |intros ? ?; apply IH].
  kept.
Qed.

Lemma verify_import_rtf_kept self :
  counters_kept self (RTFKnowledgeGraphImporterRun.verify_import E self).2.
Proof.
  unfold RTFKnowledgeGraphImporterRun.verify_import.
  apply bind_keeps; [apply counters_kept_trans|apply count_by_kept|intros ? ?].
  apply bind_keeps; [apply counters_kept_trans|apply count_by_kept|intros ? ?].
  apply ret_kept.
Qed.

Lemma test_autogen_queries_kept self :
  counters_kept self (RTFKnowledgeGraphImporterRun.test_autogen_queries E self).2.
Proof.
  unfold RTFKnowledgeGraphImporterRun.test_autogen_queries,
    RTFKnowledgeGraphImporter.execute_cypher. kept.
Qed.

Lemma verify_import_plain_kept self :
  counters_kept self (KnowledgeGraphImporterRun.verify_import E self).2.
Proof. unfold KnowledgeGraphImporterRun.verify_import. kept. Qed.

(** Verifying the import and testing a query never change a counter,
    whatever the store answers and whether they return or raise; they only
    submit queries and append error messages. *)
Theorem verification_keeps_counters self :
  counters_kept self (RTFKnowledgeGraphImporterRun.verify_import E self).2 /\
  counters_kept self (RTFKnowledgeGraphImporterRun.test_autogen_queries E self).2 /\
  counters_kept self (KnowledgeGraphImporterRun.verify_import E self).2.
Proof.
  split_and!;
    [ apply verify_import_rtf_kept | apply test_autogen_queries_kept
    | apply verify_import_plain_kept ].
Qed.

End StepsAfterTheLoads.

Section Indexes.

Variable E : env.

Implicit Types (self : importer) (c : counter).

Lemma submit_each (message : list N -> list N -> list N) (body : list N -> M unit)
    (qs : list (list N)) :
  (forall q self, body q self = (submit E q (message q) ;; ret tt) self) ->
  forall self, exists self',
    for_each qs body self = (Ok tt, self') /\
    sent self' = sent self ++ qs /\
    errors (stats self') = errors (stats self) ++ collected E message (sent self) qs /\
    forall c, get_counter c (stats self') = get_counter c (stats self).
Proof.
  intros Hbody. induction qs as [|q qs IH]; intros self.
  - exists self. by rewrite !app_nil_r.
  - cbn [for_each]. unfold bind at 1. rewrite Hbody. unfold bind at 1.
    destruct (submit_spec E q (message q) self) as (v & self1 & -> & Hs & _ & He & Hc).
    cbn [ret]. destruct (IH self1) as (self2 & -> & Hs2 & He2 & Hc2).
    exists self2. split_and!; [done| | |].
    + by rewrite Hs2, Hs, <- app_assoc.
    + rewrite He2, He, Hs. cbn [collected]. by rewrite <- app_assoc.
    + intros c. by rewrite Hc2, Hc.
Qed.

(** Creating the indexes never raises, in either importer: every index
    statement is submitted, in the order of the list, also after one of them
    has failed; a failure only adds its message to the error list, and no
    counter changes. *)
Theorem create_indexes_submits_all self :
  (exists self',
     RTFKnowledgeGraphImporterRun.create_indexes E self = (Ok tt, self') /\
     sent self' = sent self ++ RTFKnowledgeGraphImporterRun.indexes /\
     errors (stats self')
     = errors (stats self)
       ++ collected E (fun q => RTFKnowledgeGraphImporter.error_message q) (sent self)
            RTFKnowledgeGraphImporterRun.indexes /\
     forall c, get_counter c (stats self') = get_counter c (stats self)) /\
  (exists self',
     KnowledgeGraphImporterRun.create_indexes E self = (Ok tt, self') /\
     sent self' = sent self ++ KnowledgeGraphImporterRun.indexes /\
     errors (stats self')
     = errors (stats self)
       ++ collected E (fun q => KnowledgeGraphImporter.error_message q) (sent self)
            KnowledgeGraphImporterRun.indexes /\
     forall c, get_counter c (stats self') = get_counter c (stats self)).
Proof.
  split.
  - apply submit_each. intros q s. done.
  - apply submit_each. intros q s.
    unfold try_except, KnowledgeGraphImporter.execute_cypher, bind,
      KnowledgeGraphImporter.query_with_params.
    by destruct (submit_spec E q (KnowledgeGraphImporter.error_message q) s)
      as (v & self1 & -> & _).
Qed.

End Indexes.

Section StoreDown.

Variable E : env.
Hypothesis down : always_fails E.

Implicit Types (self : importer) (c : counter).

Lemma submit_down (q : list N) (message : list N -> list N) self :
  exists msg self',
    submit E q message self = (Ok (PList []), self') /\
    sent self' = sent self ++ [q] /\
    errors (stats self') = errors (stats self) ++ [message msg] /\
    forall c, get_counter c (stats self') = get_counter c (stats self).
Proof.
  unfold submit. destruct (down (sent self) q) as [msg ->].
  eexists msg, _. split; [reflexivity|]. simpl. split_and!; try done;
    intros c; apply get_counter_append_error.
Qed.

Lemma count_by_down (query_of : list N -> list N) names (counts : pydict pyval) self :
  exists self',
    RTFKnowledgeGraphImporterRun.count_by E query_of names counts self = (Ok counts, self') /\
    sent self' = sent self ++ map query_of names /\
    length (errors (stats self')) = (length (errors (stats self)) + length names)%nat /\
    forall c, get_counter c (stats self') = get_counter c (stats self).
Proof.
  revert self. induction names as [|name names IH]; intros self.
  - exists self. simpl. rewrite app_nil_r. split_and!; try done; lia.
  - cbn [RTFKnowledgeGraphImporterRun.count_by].
    unfold RTFKnowledgeGraphImporter.execute_cypher, RTFKnowledgeGraphImporter.render.
    unfold bind at 1.
    destruct (submit_down (query_of name)
                (RTFKnowledgeGraphImporter.error_message (query_of name)) self)
      as (msg & self1 & -> & Hs & He & Hc).
    cbn [py_truthy bool_decide negb]. unfold bind at 1.
    rewrite bool_decide_true by done. cbn [negb ret].
    destruct (IH self1) as (self2 & -> & Hs2 & He2 & Hc2).
    exists self2. split_and!; [done| | |].
    + rewrite Hs2, Hs. simpl. by rewrite <- app_assoc.
    + rewrite He2, He, length_app. simpl. lia.
    + intros c. by rewrite Hc2, Hc.
Qed.

Lemma verify_import_rtf_down self :
  exists self',
    RTFKnowledgeGraphImporterRun.verify_import E self = (Ok ([], []), self') /\
    sent self'
    = sent self
      ++ map RTFKnowledgeGraphImporterRun.node_count_query
           RTFKnowledgeGraphImporterRun.node_types
      ++ map RTFKnowledgeGraphImporterRun.rel_count_query
           RTFKnowledgeGraphImporterRun.rel_types /\
    length (errors (stats self')) = (length (errors (stats self)) + 5)%nat /\
    forall c, get_counter c (stats self') = get_counter c (stats self).
Proof.
  unfold RTFKnowledgeGraphImporterRun.verify_import. unfold bind at 1.
  destruct (count_by_down RTFKnowledgeGraphImporterRun.node_count_query
              RTFKnowledgeGraphImporterRun.node_types [] self)
    as (self1 & -> & Hs1 & He1 & Hc1).
  unfold bind at 1.
  destruct (count_by_down RTFKnowledgeGraphImporterRun.rel_count_query
              RTFKnowledgeGraphImporterRun.rel_types [] self1)
    as (self2 & -> & Hs2 & He2 & Hc2).
  exists self2. split_and!; [done| | |].
  - by rewrite Hs2, Hs1, <- app_assoc.
  - rewrite He2, He1. simpl. lia.
  - intros c. by rewrite Hc2, Hc1.
Qed.

Lemma verify_import_plain_down self :
  exists msg,
    KnowledgeGraphImporterRun.verify_import E self
    = (Raise (ResponseError msg),
       mk_importer (stats self)
         (sent self ++ [KnowledgeGraphImporterRun.node_counts_query]) (clock_reads self)).
Proof.
  unfold KnowledgeGraphImporterRun.verify_import, bind, execute_command_direct.
  destruct (down (sent self) KnowledgeGraphImporterRun.node_counts_query) as [msg ->].
  by exists msg.
Qed.

Lemma test_autogen_queries_down self :
  exists self',
    RTFKnowledgeGraphImporterRun.test_autogen_queries E self = (Ok tt, self') /\
    sent self' = sent self ++ [RTFKnowledgeGraphImporterRun.autogen_query] /\
    length (errors (stats self')) = S (length (errors (stats self))) /\
    forall c, get_counter c (stats self') = get_counter c (stats self).
Proof.
  unfold RTFKnowledgeGraphImporterRun.test_autogen_queries,
    RTFKnowledgeGraphImporter.execute_cypher, RTFKnowledgeGraphImporter.render.
  unfold bind at 1.
  destruct (submit_down RTFKnowledgeGraphImporterRun.autogen_query
              (RTFKnowledgeGraphImporter.error_message
                 RTFKnowledgeGraphImporterRun.autogen_query) self)
    as (msg & self1 & -> & Hs & He & Hc).
  cbn [py_truthy]. rewrite bool_decide_true by done. cbn [negb ret].
  exists self1. split_and!; try done. rewrite He, length_app. simpl. lia.
Qed.

End StoreDown.

Section Verification.

Variable E : env.

(** With a store that fails on every query, the verification of the
    rich-text importer returns with both count tables empty, after it has
    sent its five counting queries and recorded five error messages; the
    verification of the plain-file importer, which calls the store outside
    any handler, raises the error of the store at its first query and
    records nothing. *)
Theorem verification_with_store_down self :
  always_fails E ->
  (exists self',
     RTFKnowledgeGraphImporterRun.verify_import E self = (Ok ([], []), self') /\
     sent self'
     = sent self
       ++ map RTFKnowledgeGraphImporterRun.node_count_query
            RTFKnowledgeGraphImporterRun.node_types
       ++ map RTFKnowledgeGraphImporterRun.rel_count_query
            RTFKnowledgeGraphImporterRun.rel_types /\
     length (errors (stats self')) = (length (errors (stats self)) + 5)%nat /\
     forall c, get_counter c (stats self') = get_counter c (stats self)) /\
  (exists msg,
     KnowledgeGraphImporterRun.verify_import E self
     = (Raise (ResponseError msg),
        mk_importer (stats self)
          (sent self ++ [KnowledgeGraphImporterRun.node_counts_query]) (clock_reads self))).
Proof.
  intros down. split; [by apply verify_import_rtf_down|by apply verify_import_plain_down].
Qed.

End Verification.

Section VerificationExample.
Import Fixtures.

Lemma rejecting_always_fails : always_fails rejecting.
Proof. intros history q. by eexists. Qed.

Lemma accepting_never_fails : never_fails accepting.
Proof. intros history q. by eexists. Qed.

Lemma verification_with_store_down_witness :
  (exists self',
     RTFKnowledgeGraphImporterRun.verify_import rejecting init = (Ok ([], []), self') /\
     sent self'
     = sent init
       ++ map RTFKnowledgeGraphImporterRun.node_count_query
            RTFKnowledgeGraphImporterRun.node_types
       ++ map RTFKnowledgeGraphImporterRun.rel_count_query
            RTFKnowledgeGraphImporterRun.rel_types /\
     length (errors (stats self')) = (length (errors (stats init)) + 5)%nat /\
     forall c, get_counter c (stats self') = get_counter c (stats init)) /\
  (exists msg,
     KnowledgeGraphImporterRun.verify_import rejecting init
     = (Raise (ResponseError msg),
        mk_importer (stats init)
          (sent init ++ [KnowledgeGraphImporterRun.node_counts_query]) (clock_reads init))).
Proof.
  apply (verification_with_store_down rejecting init). intros history q. by eexists.
Defined.

End VerificationExample.

(** ** The whole run *)

Section WholeRun.

Variable E : env.

Implicit Types (self : importer) (c : counter) (t : table) (files : sources).

Lemma table_loads_rtf t (content : list N) self :
  loads_to_end rtf_table_rows complete (t, content) ->
  exists self',
    RTFKnowledgeGraphImporter.import_table E t content self = (Ok tt, self') /\
    grown t (length (rtf_table_rows content).1) self self' /\
    (always_fails E ->
     length (errors (stats self'))
     = (length (errors (stats self)) + length (rtf_table_rows content).1)%nat).
Proof.
  unfold loads_to_end, rtf_table_rows. cbn [fst snd].
  destruct (DictReader (RTFKnowledgeGraphImporter.extract_csv_from_rtf content))
    as [rows e] eqn:Hrows.
  cbn [fst snd]. intros [-> Hall].
  destruct (for_each_attempts E (RTFKnowledgeGraphImporter.import_row E t)
              (fun q => RTFKnowledgeGraphImporter.error_message q) (counts t) rows)
    with (self := self) as (self' & Hloop & (qs & Hs & Hlen & He & Hc)).
  { eapply Forall_impl; [exact Hall|]. intros row. apply import_row_rtf_complete. }
  assert (RTFKnowledgeGraphImporter.import_table E t content self = (Ok tt, self')) as Hrun.
  { unfold RTFKnowledgeGraphImporter.import_table.
    destruct (RTFKnowledgeGraphImporter.extract_csv_from_rtf content) as [|l ls] eqn:Hlines.
    - vm_compute in Hrows. injection Hrows as <-. by simpl in Hloop.
    - by rewrite Hrows, for_stream_rows. }
  exists self'. split; [done|]. split.
  - intros c. case_bool_decide as Hcase.
    + by subst c.
    + destruct (proj1 (import_table_accounting E t content self))
        as (qs' & _ & _ & _ & Hother).
      rewrite Hrun in Hother. cbn [snd] in Hother. rewrite Hother by done. lia.
  - intros down. by rewrite He, length_app, collected_always_fails, Hlen.
Qed.

Lemma table_loads_plain t (text : list N) self :
  loads_to_end KnowledgeGraphImporter.read_rows complete_plain (t, text) ->
  exists self',
    KnowledgeGraphImporter.import_table E t text self = (Ok tt, self') /\
    grown t (length (KnowledgeGraphImporter.read_rows text).1) self self' /\
    (always_fails E ->
     length (errors (stats self'))
     = (length (errors (stats self)) + length (KnowledgeGraphImporter.read_rows text).1)%nat).
Proof.
  unfold loads_to_end. cbn [fst snd].
  destruct (KnowledgeGraphImporter.read_rows text) as [rows e] eqn:Hrows.
  cbn [fst snd]. intros [-> Hall].
  destruct (for_each_attempts E (KnowledgeGraphImporter.import_row E t)
              (fun _ => KnowledgeGraphImporter.error_message (template t)) (counts t) rows)
    with (self := self) as (self' & Hloop & (qs & Hs & Hlen & He & Hc)).
  { eapply Forall_impl; [exact Hall|]. intros row. apply import_row_plain_complete. }
  assert (KnowledgeGraphImporter.import_table E t text self = (Ok tt, self')) as Hrun.
  { unfold KnowledgeGraphImporter.import_table. by rewrite Hrows, for_stream_rows. }
  exists self'. split; [done|]. split.
  - intros c. case_bool_decide as Hcase.
    + by subst c.
    + destruct (proj2 (import_table_accounting E t text self))
        as (qs' & _ & _ & _ & Hother).
      rewrite Hrun in Hother. cbn [snd] in Hother. rewrite Hother by done. lia.
  - intros down. by rewrite He, length_app, collected_always_fails, Hlen.
Qed.

Lemma bind_ok {A B} (m : M A) (k : A -> M B) a self self' :
  m self = (Ok a, self') -> bind m k self = k a self'.
Proof. intros H. unfold bind. by rewrite H. Qed.

Ltac split_loads H :=
  repeat match type of H with
         | Forall _ (_ :: _) =>
             let H1 := fresh "Hload" in
             apply Forall_cons_1 in H as [H1 H]
         end.

Ltac each_load Hl :=
  repeat (apply elem_of_cons in Hl as [->|Hl]); [..|by apply elem_of_nil in Hl].

Ltac settle_counter :=
  repeat match goal with
         | |- context [bool_decide ?P] =>
             let b := eval vm_compute in (bool_decide P) in
             change (bool_decide P) with b
         end;
  cbn [fst snd]; lia.

(** A run of the rich-text importer over five files that load to the end:
    whatever the store answers, every counter ends as it was plus the number
    of data rows of its file.  With a store that fails on every query the
    run still returns normally, with these same counts, and the error list
    has grown by one message per data row, per index statement and per
    query of the verification and of the test: the counters count the rows
    that were submitted, not the rows that were stored. *)
Theorem run_import_rtf_counts_rows files self :
  Forall (loads_to_end rtf_table_rows complete) (rtf_loads files) ->
  let self' := (RTFKnowledgeGraphImporterRun.run_import E files self).2 in
  (forall l, l ∈ rtf_loads files ->
     get_counter (counts l.1) (stats self')
     = (get_counter (counts l.1) (stats self) + length (rtf_table_rows l.2).1)%nat) /\
  (always_fails E ->
     RTFKnowledgeGraphImporterRun.run_import E files self = (Ok tt, self') /\
     length (errors (stats self'))
     = (length (errors (stats self)) + rows_in rtf_table_rows (rtf_loads files)
        + length RTFKnowledgeGraphImporterRun.indexes + 6)%nat).
Proof.
  intros Hfiles. unfold rtf_loads in Hfiles. split_loads Hfiles.
  unfold RTFKnowledgeGraphImporterRun.run_import,
    RTFKnowledgeGraphImporter.import_business_segments,
    RTFKnowledgeGraphImporter.import_task_templates,
    RTFKnowledgeGraphImporter.import_workflow_templates,
    RTFKnowledgeGraphImporter.import_task_workflow_relationships,
    RTFKnowledgeGraphImporter.import_task_dependencies.
  destruct (table_loads_rtf _ _ self Hload) as (s1 & R1 & G1 & D1).
  destruct (table_loads_rtf _ _ s1 Hload0) as (s2 & R2 & G2 & D2).
  destruct (table_loads_rtf _ _ s2 Hload1) as (s3 & R3 & G3 & D3).
  destruct (table_loads_rtf _ _ s3 Hload2) as (s4 & R4 & G4 & D4).
  destruct (table_loads_rtf _ _ s4 Hload3) as (s5 & R5 & G5 & D5).
  destruct (submit_each E (fun q => RTFKnowledgeGraphImporter.error_message q)
              (fun q => RTFKnowledgeGraphImporter.execute_cypher E q None ;; ret tt)
              RTFKnowledgeGraphImporterRun.indexes (fun _ _ => eq_refl) s5)
    as (s6 & R6 & _ & E6 & C6).
  rewrite (bind_ok _ _ _ _ _ R1), (bind_ok _ _ _ _ _ R2), (bind_ok _ _ _ _ _ R3),
    (bind_ok _ _ _ _ _ R4), (bind_ok _ _ _ _ _ R5), (bind_ok _ _ _ _ _ R6).
  unfold grown in *.
  set (self' := ((RTFKnowledgeGraphImporterRun.verify_import E ;;
                  RTFKnowledgeGraphImporterRun.test_autogen_queries E) s6).2).
  split.
  - assert (counters_kept s6 self') as (_ & _ & K).
    { apply bind_keeps; [apply counters_kept_trans|apply verify_import_rtf_kept|].
      intros ? ?. apply test_autogen_queries_kept. }
    intros l Hl. unfold rtf_loads in Hl.
    each_load Hl; cbn [fst snd counts RTFKnowledgeGraphImporter.business_segments_table
                       RTFKnowledgeGraphImporter.task_templates_table
                       RTFKnowledgeGraphImporter.workflow_templates_table
                       RTFKnowledgeGraphImporter.task_workflow_relationships_table
                       RTFKnowledgeGraphImporter.task_dependencies_table];
      rewrite K, C6, G5, G4, G3, G2, G1; settle_counter.
  - intros down. subst self'.
    destruct (verify_import_rtf_down E down s6) as (s7 & R7 & _ & E7 & _).
    destruct (test_autogen_queries_down E down s7) as (s8 & R8 & _ & E8 & _).
    rewrite (bind_ok _ _ _ _ _ R7), R8. split; [done|]. cbn [snd].
    rewrite E8, E7, E6, length_app, collected_always_fails, D5, D4, D3, D2, D1 by done.
    unfold rows_in, rtf_loads. cbn [sum_list_with fst snd]. lia.
Qed.

(** A run of the plain-file importer over five files that load to the end:
    every counter ends as it was plus the number of data rows of its file,
    whatever the store answers.  With a store that fails on every query the
    run ends with the error of the store, raised by the verification, after
    the loads and the index statements have recorded one message each. *)
Theorem run_import_plain_counts_rows files self :
  Forall (loads_to_end KnowledgeGraphImporter.read_rows complete_plain) (plain_loads files) ->
  let self' := (KnowledgeGraphImporterRun.run_import E files self).2 in
  (forall l, l ∈ plain_loads files ->
     get_counter (counts l.1) (stats self')
     = (get_counter (counts l.1) (stats self)
        + length (KnowledgeGraphImporter.read_rows l.2).1)%nat) /\
  (always_fails E ->
     (exists msg,
        KnowledgeGraphImporterRun.run_import E files self
        = (Raise (ResponseError msg), self')) /\
     length (errors (stats self'))
     = (length (errors (stats self))
        + rows_in KnowledgeGraphImporter.read_rows (plain_loads files)
        + length KnowledgeGraphImporterRun.indexes)%nat).
Proof.
  intros Hfiles. unfold plain_loads in Hfiles. split_loads Hfiles.
  unfold KnowledgeGraphImporterRun.run_import,
    KnowledgeGraphImporter.import_business_segments,
    KnowledgeGraphImporter.import_task_templates,
    KnowledgeGraphImporter.import_workflow_templates,
    KnowledgeGraphImporter.import_task_workflow_relationships,
    KnowledgeGraphImporter.import_task_dependencies.
  destruct (table_loads_plain _ _ self Hload) as (s1 & R1 & G1 & D1).
  destruct (table_loads_plain _ _ s1 Hload0) as (s2 & R2 & G2 & D2).
  destruct (table_loads_plain _ _ s2 Hload1) as (s3 & R3 & G3 & D3).
  destruct (table_loads_plain _ _ s3 Hload2) as (s4 & R4 & G4 & D4).
  destruct (table_loads_plain _ _ s4 Hload3) as (s5 & R5 & G5 & D5).
  destruct (submit_each E (fun q => KnowledgeGraphImporter.error_message q)
              (fun q => try_except (KnowledgeGraphImporter.execute_cypher E q None ;; ret tt)
                          (fun _ => ret tt))
              KnowledgeGraphImporterRun.indexes) with (self := s5)
    as (s6 & R6 & _ & E6 & C6).
  { intros q s.
    unfold try_except, KnowledgeGraphImporter.execute_cypher, bind,
      KnowledgeGraphImporter.query_with_params.
    by destruct (submit_spec E q (KnowledgeGraphImporter.error_message q) s)
      as (v & self1 & -> & _). }
  rewrite (bind_ok _ _ _ _ _ R1), (bind_ok _ _ _ _ _ R2), (bind_ok _ _ _ _ _ R3),
    (bind_ok _ _ _ _ _ R4), (bind_ok _ _ _ _ _ R5), (bind_ok _ _ _ _ _ R6).
  unfold grown in *.
  set (self' := (KnowledgeGraphImporterRun.verify_import E s6).2).
  split.
  - assert (counters_kept s6 self') as (_ & _ & K)
      by apply verify_import_plain_kept.
    intros l Hl. unfold plain_loads in Hl.
    each_load Hl; cbn [fst snd counts KnowledgeGraphImporter.business_segments_table
                       KnowledgeGraphImporter.task_templates_table
                       KnowledgeGraphImporter.workflow_templates_table
                       KnowledgeGraphImporter.task_workflow_relationships_table
                       KnowledgeGraphImporter.task_dependencies_table];
      rewrite K, C6, G5, G4, G3, G2, G1; settle_counter.
  - intros down. subst self'.
    destruct (verify_import_plain_down E down s6) as (msg & ->).
    split; [by exists msg|]. cbn [snd stats].
    rewrite E6, length_app, collected_always_fails, D5, D4, D3, D2, D1 by done.
    unfold rows_in, plain_loads. cbn [sum_list_with fst snd]. lia.
Qed.

End WholeRun.

Section WholeRunExamples.
Import Fixtures.

Ltac row_complete :=
  split; [eexists; vm_compute; reflexivity | vm_compute; reflexivity].

(** The rows of a concrete file, by evaluation. *)
Ltac evaluate_rows f :=
  repeat match goal with
         | |- context [f ?x] =>
             let v := eval vm_compute in (f x) in
             replace (f x) with v by (vm_compute; reflexivity)
         end.

Ltac row_complete_plain :=
  eexists; split; [vm_compute; reflexivity | row_complete].

Lemma run_files_rtf_load :
  Forall (loads_to_end rtf_table_rows complete) (rtf_loads run_files_rtf).
Proof.
  unfold rtf_loads, run_files_rtf, loads_to_end, rtf_table_rows.
  cbn [business_segments_file task_templates_file workflow_templates_file
       task_workflow_relationships_file task_dependencies_file].
  repeat apply Forall_cons_2; [..|apply Forall_nil_2];
    evaluate_rows DictReader; cbn [fst snd];
    (split; [done|]);
    repeat (apply Forall_cons_2; [row_complete|]); apply Forall_nil_2.
Qed.

Lemma run_files_csv_load :
  Forall (loads_to_end KnowledgeGraphImporter.read_rows complete_plain)
    (plain_loads run_files_csv).
Proof.
  unfold plain_loads, run_files_csv, loads_to_end.
  cbn [business_segments_file task_templates_file workflow_templates_file
       task_workflow_relationships_file task_dependencies_file].
  repeat apply Forall_cons_2; [..|apply Forall_nil_2];
    evaluate_rows KnowledgeGraphImporter.read_rows; cbn [fst snd];
    (split; [done|]);
    repeat (apply Forall_cons_2; [row_complete_plain|]); apply Forall_nil_2.
Qed.

Lemma run_import_rtf_counts_rows_witness :
  let self' := (RTFKnowledgeGraphImporterRun.run_import rejecting run_files_rtf init).2 in
  (forall l, l ∈ rtf_loads run_files_rtf ->
     get_counter (counts l.1) (stats self')
     = (get_counter (counts l.1) (stats init) + length (rtf_table_rows l.2).1)%nat) /\
  RTFKnowledgeGraphImporterRun.run_import rejecting run_files_rtf init = (Ok tt, self') /\
  length (errors (stats self'))
  = (length (errors (stats init)) + rows_in rtf_table_rows (rtf_loads run_files_rtf)
     + length RTFKnowledgeGraphImporterRun.indexes + 6)%nat.
Proof.
  intros self'.
  destruct (run_import_rtf_counts_rows rejecting run_files_rtf init run_files_rtf_load)
    as [Hcounts Hdown].
  split; [exact Hcounts|]. apply Hdown. intros history q. by eexists.
Defined.

Lemma run_import_plain_counts_rows_witness :
  let self' := (KnowledgeGraphImporterRun.run_import rejecting run_files_csv init).2 in
  (forall l, l ∈ plain_loads run_files_csv ->
     get_counter (counts l.1) (stats self')
     = (get_counter (counts l.1) (stats init)
        + length (KnowledgeGraphImporter.read_rows l.2).1)%nat) /\
  (exists msg,
     KnowledgeGraphImporterRun.run_import rejecting run_files_csv init
     = (Raise (ResponseError msg), self')) /\
  length (errors (stats self'))
  = (length (errors (stats init))
     + rows_in KnowledgeGraphImporter.read_rows (plain_loads run_files_csv)
     + length KnowledgeGraphImporterRun.indexes)%nat.
Proof.
  intros self'.
  destruct (run_import_plain_counts_rows rejecting run_files_csv init run_files_csv_load)
    as [Hcounts Hdown].
  split; [exact Hcounts|]. apply Hdown. intros history q. by eexists.
Defined.

End WholeRunExamples.

(** ** The query interface on well-formed replies *)

Section QueryMore.
Import KnowledgeGraphQuery KnowledgeGraphQueryHelpers.

Lemma fill_row_zip (names : list (list N)) (vals : list pyval) :
  forall i (acc : pydict pyval),
    NoDup names ->
    (forall name, name ∈ names -> KStr name ∉ keys acc) ->
    fill_row i (map PStr names) (PList vals) acc
    = Ok (acc ++ zip (map KStr names) (drop i vals)).
Proof.
  induction names as [|name names IH]; intros i acc Hnd Hfresh.
  - simpl. by rewrite app_nil_r.
  - apply NoDup_cons in Hnd as [Hname Hnd].
    cbn [map fill_row py_len and_then to_key].
    destruct (i <? length vals)%nat eqn:Hi.
    + apply Nat.ltb_lt in Hi.
      destruct (lookup_lt_is_Some_2 vals i Hi) as [v Hv].
      cbn [py_index]. rewrite Hv. cbn [and_then].
      rewrite IH; [|done|].
      * rewrite dict_set_fresh by (apply Hfresh; by left).
        rewrite (drop_S _ _ _ Hv). cbn [zip zip_with]. by rewrite <- app_assoc.
      * intros name' Hin Hkey. apply keys_dict_set in Hkey as [[= ->]|Hkey]; [done|].
        by apply (Hfresh name'); [right|].
    + apply Nat.ltb_ge in Hi.
      rewrite IH; [|done|intros name' Hin; apply Hfresh; by right].
      rewrite !drop_ge by lia. by destruct names.
Qed.

Lemma format_rows_zip (names : list (list N)) (rowss : list (list pyval)) :
  NoDup names ->
  format_rows (PList (map PStr names)) (map PList rowss)
  = Ok (map (fun vals => zip (map KStr names) vals) rowss).
Proof.
  intros Hnd. induction rowss as [|vals rowss IH]; [done|].
  cbn [map format_rows py_iter and_then].
  rewrite fill_row_zip; [|done|intros name _ Hin; by apply elem_of_nil in Hin].
  cbn [and_then]. rewrite IH. by rewrite drop_0.
Qed.

Lemma query_zip (execute_command : list N -> reply) (q : list N)
    (names : list (list N)) (rowss : list (list pyval)) (rest : list pyval) :
  NoDup names ->
  execute_command q
  = Replies (PList (PList (map PStr names) :: PList (map PList rowss) :: rest)) ->
  query execute_command q = map (fun vals => zip (map KStr names) vals) rowss.
Proof.
  intros Hnd Hans. unfold query. rewrite Hans.
  cbn [query_try py_len length Nat.ltb Nat.leb and_then py_index lookup list_lookup py_iter].
  by rewrite format_rows_zip.
Qed.

(** On a reply whose first element is a row of pairwise distinct column
    names and whose second element is a list of rows, [query] returns, for
    each row in order, the column names zipped with the values of the row:
    the values beyond the last column are dropped, and a row with fewer
    values has no entry for the later columns. *)
Theorem query_zips_columns_with_rows (execute_command : list N -> reply) (q : list N)
    (names : list (list N)) (rowss : list (list pyval)) (rest : list pyval) :
  NoDup names ->
  execute_command q
  = Replies (PList (PList (map PStr names) :: PList (map PList rowss) :: rest)) ->
  query execute_command q = map (fun vals => zip (map KStr names) vals) rowss.
Proof. apply query_zip. Qed.

Lemma query_zips_columns_with_rows_witness :
  query
    (fun _ => Replies (PList [PList (map PStr [u "t.node_id"; u "t.role"]);
                              PList (map PList [[PStr (u "T1"); PStr (u "PRODM"); PInt 7];
                                                [PStr (u "T2")]]);
                              PList [PStr (u "Cached execution: 0")]]))
    (u "MATCH (t) RETURN t.node_id, t.role")
  = map (fun vals => zip (map KStr [u "t.node_id"; u "t.role"]) vals)
        [[PStr (u "T1"); PStr (u "PRODM"); PInt 7]; [PStr (u "T2")]].
Proof.
  apply (query_zips_columns_with_rows _ _ _ _ [PList [PStr (u "Cached execution: 0")]]).
  - by_evaluation.
  - reflexivity.
Defined.

(** The roles that [get_all_roles] returns, on a reply with the one column
    [tt.role]: the values of the rows, in order, without those that are
    false as a condition ([None], the empty string, zero, the empty list).
    The default ['Unknown'] is never used. *)
Theorem get_all_roles_keeps_true_values (execute_command : list N -> reply)
    (roles rest : list pyval) :
  execute_command all_roles_query
  = Replies (PList (PList (map PStr [u "tt.role"])
                    :: PList (map PList (map (fun v => [v]) roles)) :: rest)) ->
  get_all_roles execute_command = filter (fun v => py_truthy v = true) roles.
Proof.
  intros Hans. unfold get_all_roles.
  rewrite (query_zip _ _ [u "tt.role"] (map (fun v => [v]) roles) rest); [|by_evaluation|done].
  clear Hans. induction roles as [|v roles IH]; [done|].
  cbn [map zip zip_with]. rewrite !filter_cons.
  change (dict_get_default (KStr (u "tt.role")) PNone [(KStr (u "tt.role"), v)]) with v.
  destruct (decide (py_truthy v = true)); cbn [map]; [f_equal|]; apply IH.
Qed.

Lemma get_all_roles_keeps_true_values_witness :
  get_all_roles
    (fun _ => Replies (PList (PList (map PStr [u "tt.role"])
                              :: PList (map PList (map (fun v => [v])
                                          [PStr (u "BA"); PNone; PStr []; PStr (u "PRODM")]))
                              :: [PList [PStr (u "Cached execution: 0")]])))
  = filter (fun v => py_truthy v = true) [PStr (u "BA"); PNone; PStr []; PStr (u "PRODM")].
Proof.
  apply (get_all_roles_keeps_true_values _ _ [PList [PStr (u "Cached execution: 0")]]).
  reflexivity.
Defined.

(** [get_workflow_details] gives the empty dictionary both when the store
    fails and when the reply has no rows, so that the two cannot be told
    apart; on a reply with rows it gives the column names zipped with the
    values of the first row. *)
Theorem get_workflow_details_first_row_or_empty (execute_command : list N -> reply)
    (workflow_id : list N) :
  (forall msg,
     execute_command (workflow_details_query workflow_id) = Fails msg ->
     get_workflow_details execute_command workflow_id = []) /\
  (forall names rowss rest,
     NoDup names ->
     execute_command (workflow_details_query workflow_id)
     = Replies (PList (PList (map PStr names) :: PList (map PList rowss) :: rest)) ->
     get_workflow_details execute_command workflow_id
     = match rowss with
       | [] => []
       | vals :: _ => zip (map KStr names) vals
       end).
Proof.
  split.
  - intros msg Hans. unfold get_workflow_details, query. by rewrite Hans.
  - intros names rowss rest Hnd Hans. unfold get_workflow_details.
    rewrite (query_zip _ _ names rowss rest) by done. by destruct rowss.
Qed.

Lemma get_workflow_details_first_row_or_empty_witness :
  get_workflow_details (fun _ => Fails (u "connection lost")) (u "LAUNCH_001") = [] /\
  get_workflow_details
    (fun _ => Replies (PList [PList (map PStr [u "wt.workflow_name"; u "wt.total_tasks"]);
                              PList (map PList [[PStr (u "Launch"); PInt 12]]);
                              PList []]))
    (u "LAUNCH_001")
  = zip (map KStr [u "wt.workflow_name"; u "wt.total_tasks"]) [PStr (u "Launch"); PInt 12].
Proof.
  split.
  - apply (proj1 (get_workflow_details_first_row_or_empty _ (u "LAUNCH_001"))
             (u "connection lost")).
    reflexivity.
  - apply (proj2 (get_workflow_details_first_row_or_empty _ (u "LAUNCH_001"))
             [u "wt.workflow_name"; u "wt.total_tasks"]
             [[PStr (u "Launch"); PInt 12]] [PList []]).
    + by_evaluation.
    + reflexivity.
Defined.

End QueryMore.
